(** * configure.py: the Athena++ build-configuration resolver

    A shallow embedding of [configure.py] and the properties of its
    option validation, derivation tables, file-name composition, flag
    assembly and template substitution.

    The script is a straight-line Python program.  Its dictionaries are
    insertion-ordered association lists (the order is observable: the
    substitution loop iterates over [items()]), its exceptions are an
    error result, and the statements of Step 3 run in a small state and
    error monad over the two dictionaries [definitions] and
    [makefile_options]. *)

From Stdlib Require Import String Ascii List Bool Arith Lia Permutation.
Import ListNotations.
Open Scope string_scope.

(* ================================================================== *)
(** * Python values the script manipulates *)

(** Exceptions that can end the run. *)
Inductive exn : Type :=
| SystemExit (msg : string)                 (* raise SystemExit(msg) *)
| ArgumentError (option_name value : string) (* argparse: invalid choice, exit status 2 *)
| ExpectedArgument (option_name : string)   (* argparse: expected one argument, exit status 2 *)
| IgnoredArgument (option_name value : string) (* argparse: ignored explicit argument, exit status 2 *)
| AmbiguousOption (text : string)           (* argparse: ambiguous option, exit status 2 *)
| UnrecognizedArguments (texts : list string) (* argparse: unrecognized arguments, exit status 2 *)
| HelpExit                                  (* argparse: -h or --help, exit status 0 *)
| KeyError (key : string)                   (* d[key] on a missing key *)
| IOError (path : string)                   (* open(path, mode) refused *)
| ReError (msg : string)                    (* re.error from re.sub; msg is the kind of error *)
| IndexError (msg : string).                (* unknown group name in re.sub *)

Inductive result (A : Type) : Type :=
| OK (x : A)
| Raise (e : exn).
Arguments OK {A} x.
Arguments Raise {A} e.

Definition rbind {A B : Type} (r : result A) (k : A -> result B) : result B :=
  match r with
  | OK x => k x
  | Raise e => Raise e
  end.

(** [x in (a, b, c)] on strings. *)
Definition py_in (x : string) (xs : list string) : bool :=
  existsb (String.eqb x) xs.

(** A [dict] with string keys and values, in insertion order. *)
Definition dict : Type := list (string * string).

Fixpoint dict_get (d : dict) (k : string) : option string :=
  match d with
  | [] => None
  | (k', v) :: d' => if k' =? k then Some v else dict_get d' k
  end.

(** [d[k] = v]: an existing key keeps its position, a new key goes last. *)
Fixpoint dict_set (d : dict) (k v : string) : dict :=
  match d with
  | [] => [(k, v)]
  | (k', v') :: d' =>
      if k' =? k then (k', v) :: d' else (k', v') :: dict_set d' k v
  end.

Definition dict_keys (d : dict) : list string := map fst d.

(* ================================================================== *)
(** * Step 1: the option model *)

(** The namespace returned by [parser.parse_args()], as the dictionary
    [args].  Field names are the dictionary keys. *)
Record Args : Type := mkArgs {
  prob : string;
  coord : string;
  eos : string;
  flux : string;
  order : string;
  fint : string;
  b : bool;
  s : bool;
  g : bool;
  t : bool;
  sh : bool;
  debug : bool;
  mpi : bool;
  omp : bool;
  hdf5 : bool;
  hdf5_path : string;
  cxx : string;
  ccmd : option string;
  include : list string;
  lib : list string
}.

Definition coord_choices : list string :=
  ["cartesian"; "cylindrical"; "spherical_polar"; "minkowski"; "sinusoidal";
   "tilted"; "schwarzschild"; "kerr-schild"; "gr_user"].
Definition eos_choices : list string := ["adiabatic"; "isothermal"].
Definition flux_choices : list string :=
  ["default"; "hlle"; "hllc"; "hlld"; "roe"; "llf"].
Definition order_choices : list string := ["plm"].
Definition fint_choices : list string := ["vl2"].
Definition cxx_choices : list string := ["g++"; "icc"; "cray"; "bgxl"; "icc-phi"].

(** One argument of the command line, as argparse (of Python 3.11) reads
    it.  argparse first decides for every string of [sys.argv] whether it
    is an option string of the parser (an abbreviation such as [--fl]
    counts as the option it abbreviates, [-bs] as [-b -s]) and whether it
    carries a value ([--eos=isothermal], or [--eos isothermal] when the
    next string is no option string).  The arguments are given here in
    that reading, in the order of the command line. *)
Inductive argument : Type :=
| Valued (name value : string)  (* an option string with a value *)
| Bare (name : string)          (* an option string without a value *)
| Ambiguous (text : string)     (* an abbreviation of several option strings *)
| Stray (text : string).        (* a string that is no option string *)

Definition CommandLine : Type := list argument.

Definition value_options : list string :=
  ["--prob"; "--coord"; "--eos"; "--flux"; "--order"; "--fint";
   "--hdf5_path"; "--cxx"; "--ccmd"; "--include"; "--lib"].
Definition switches : list string :=
  ["-b"; "-s"; "-g"; "-t"; "-sh"; "-debug"; "-mpi"; "-omp"; "-hdf5"].
Definition help_options : list string := ["-h"; "--help"].

(** The [choices] of an option, [None] for an option without. *)
Definition choices_of (pgen_choices : list string) (name : string)
    : option (list string) :=
  if name =? "--prob" then Some pgen_choices
  else if name =? "--coord" then Some coord_choices
  else if name =? "--eos" then Some eos_choices
  else if name =? "--flux" then Some flux_choices
  else if name =? "--order" then Some order_choices
  else if name =? "--fint" then Some fint_choices
  else if name =? "--cxx" then Some cxx_choices
  else None.

(** The [default] of every option: the options of a run with nothing on
    the command line.  A default is not checked against the choices. *)
Definition default_args : Args :=
  {| prob := "shock_tube"; coord := "cartesian"; eos := "adiabatic";
     flux := "default"; order := "plm"; fint := "vl2";
     b := false; s := false; g := false; t := false; sh := false;
     debug := false; mpi := false; omp := false; hdf5 := false;
     hdf5_path := ""; cxx := "g++"; ccmd := None;
     include := []; lib := [] |}.

(** [action='store'] (the default) and [action='append']: the value of
    an option goes into the namespace under the option's name; a later
    value replaces an earlier one, except for [--include] and [--lib],
    which collect their values in order. *)
Definition store (a : Args) (name value : string) : Args :=
  if name =? "--prob" then
    {| prob := value; coord := coord a; eos := eos a; flux := flux a;
       order := order a; fint := fint a; b := b a; s := s a; g := g a;
       t := t a; sh := sh a; debug := debug a; mpi := mpi a; omp := omp a;
       hdf5 := hdf5 a; hdf5_path := hdf5_path a; cxx := cxx a;
       ccmd := ccmd a; include := include a; lib := lib a |}
  else if name =? "--coord" then
    {| prob := prob a; coord := value; eos := eos a; flux := flux a;
       order := order a; fint := fint a; b := b a; s := s a; g := g a;
       t := t a; sh := sh a; debug := debug a; mpi := mpi a; omp := omp a;
       hdf5 := hdf5 a; hdf5_path := hdf5_path a; cxx := cxx a;
       ccmd := ccmd a; include := include a; lib := lib a |}
  else if name =? "--eos" then
    {| prob := prob a; coord := coord a; eos := value; flux := flux a;
       order := order a; fint := fint a; b := b a; s := s a; g := g a;
       t := t a; sh := sh a; debug := debug a; mpi := mpi a; omp := omp a;
       hdf5 := hdf5 a; hdf5_path := hdf5_path a; cxx := cxx a;
       ccmd := ccmd a; include := include a; lib := lib a |}
  else if name =? "--flux" then
    {| prob := prob a; coord := coord a; eos := eos a; flux := value;
       order := order a; fint := fint a; b := b a; s := s a; g := g a;
       t := t a; sh := sh a; debug := debug a; mpi := mpi a; omp := omp a;
       hdf5 := hdf5 a; hdf5_path := hdf5_path a; cxx := cxx a;
       ccmd := ccmd a; include := include a; lib := lib a |}
  else if name =? "--order" then
    {| prob := prob a; coord := coord a; eos := eos a; flux := flux a;
       order := value; fint := fint a; b := b a; s := s a; g := g a;
       t := t a; sh := sh a; debug := debug a; mpi := mpi a; omp := omp a;
       hdf5 := hdf5 a; hdf5_path := hdf5_path a; cxx := cxx a;
       ccmd := ccmd a; include := include a; lib := lib a |}
  else if name =? "--fint" then
    {| prob := prob a; coord := coord a; eos := eos a; flux := flux a;
       order := order a; fint := value; b := b a; s := s a; g := g a;
       t := t a; sh := sh a; debug := debug a; mpi := mpi a; omp := omp a;
       hdf5 := hdf5 a; hdf5_path := hdf5_path a; cxx := cxx a;
       ccmd := ccmd a; include := include a; lib := lib a |}
  else if name =? "--hdf5_path" then
    {| prob := prob a; coord := coord a; eos := eos a; flux := flux a;
       order := order a; fint := fint a; b := b a; s := s a; g := g a;
       t := t a; sh := sh a; debug := debug a; mpi := mpi a; omp := omp a;
       hdf5 := hdf5 a; hdf5_path := value; cxx := cxx a; ccmd := ccmd a;
       include := include a; lib := lib a |}
  else if name =? "--cxx" then
    {| prob := prob a; coord := coord a; eos := eos a; flux := flux a;
       order := order a; fint := fint a; b := b a; s := s a; g := g a;
       t := t a; sh := sh a; debug := debug a; mpi := mpi a; omp := omp a;
       hdf5 := hdf5 a; hdf5_path := hdf5_path a; cxx := value;
       ccmd := ccmd a; include := include a; lib := lib a |}
  else if name =? "--ccmd" then
    {| prob := prob a; coord := coord a; eos := eos a; flux := flux a;
       order := order a; fint := fint a; b := b a; s := s a; g := g a;
       t := t a; sh := sh a; debug := debug a; mpi := mpi a; omp := omp a;
       hdf5 := hdf5 a; hdf5_path := hdf5_path a; cxx := cxx a;
       ccmd := Some value; include := include a; lib := lib a |}
  else if name =? "--include" then
    {| prob := prob a; coord := coord a; eos := eos a; flux := flux a;
       order := order a; fint := fint a; b := b a; s := s a; g := g a;
       t := t a; sh := sh a; debug := debug a; mpi := mpi a; omp := omp a;
       hdf5 := hdf5 a; hdf5_path := hdf5_path a; cxx := cxx a;
       ccmd := ccmd a; include := (include a ++ [value])%list;
       lib := lib a |}
  else if name =? "--lib" then
    {| prob := prob a; coord := coord a; eos := eos a; flux := flux a;
       order := order a; fint := fint a; b := b a; s := s a; g := g a;
       t := t a; sh := sh a; debug := debug a; mpi := mpi a; omp := omp a;
       hdf5 := hdf5 a; hdf5_path := hdf5_path a; cxx := cxx a;
       ccmd := ccmd a; include := include a;
       lib := (lib a ++ [value])%list |}
  else a.

(** [action='store_true'] *)
Definition store_true (a : Args) (name : string) : Args :=
  if name =? "-b" then
    {| prob := prob a; coord := coord a; eos := eos a; flux := flux a;
       order := order a; fint := fint a; b := true; s := s a; g := g a;
       t := t a; sh := sh a; debug := debug a; mpi := mpi a; omp := omp a;
       hdf5 := hdf5 a; hdf5_path := hdf5_path a; cxx := cxx a;
       ccmd := ccmd a; include := include a; lib := lib a |}
  else if name =? "-s" then
    {| prob := prob a; coord := coord a; eos := eos a; flux := flux a;
       order := order a; fint := fint a; b := b a; s := true; g := g a;
       t := t a; sh := sh a; debug := debug a; mpi := mpi a; omp := omp a;
       hdf5 := hdf5 a; hdf5_path := hdf5_path a; cxx := cxx a;
       ccmd := ccmd a; include := include a; lib := lib a |}
  else if name =? "-g" then
    {| prob := prob a; coord := coord a; eos := eos a; flux := flux a;
       order := order a; fint := fint a; b := b a; s := s a; g := true;
       t := t a; sh := sh a; debug := debug a; mpi := mpi a; omp := omp a;
       hdf5 := hdf5 a; hdf5_path := hdf5_path a; cxx := cxx a;
       ccmd := ccmd a; include := include a; lib := lib a |}
  else if name =? "-t" then
    {| prob := prob a; coord := coord a; eos := eos a; flux := flux a;
       order := order a; fint := fint a; b := b a; s := s a; g := g a;
       t := true; sh := sh a; debug := debug a; mpi := mpi a; omp := omp a;
       hdf5 := hdf5 a; hdf5_path := hdf5_path a; cxx := cxx a;
       ccmd := ccmd a; include := include a; lib := lib a |}
  else if name =? "-sh" then
    {| prob := prob a; coord := coord a; eos := eos a; flux := flux a;
       order := order a; fint := fint a; b := b a; s := s a; g := g a;
       t := t a; sh := true; debug := debug a; mpi := mpi a; omp := omp a;
       hdf5 := hdf5 a; hdf5_path := hdf5_path a; cxx := cxx a;
       ccmd := ccmd a; include := include a; lib := lib a |}
  else if name =? "-debug" then
    {| prob := prob a; coord := coord a; eos := eos a; flux := flux a;
       order := order a; fint := fint a; b := b a; s := s a; g := g a;
       t := t a; sh := sh a; debug := true; mpi := mpi a; omp := omp a;
       hdf5 := hdf5 a; hdf5_path := hdf5_path a; cxx := cxx a;
       ccmd := ccmd a; include := include a; lib := lib a |}
  else if name =? "-mpi" then
    {| prob := prob a; coord := coord a; eos := eos a; flux := flux a;
       order := order a; fint := fint a; b := b a; s := s a; g := g a;
       t := t a; sh := sh a; debug := debug a; mpi := true; omp := omp a;
       hdf5 := hdf5 a; hdf5_path := hdf5_path a; cxx := cxx a;
       ccmd := ccmd a; include := include a; lib := lib a |}
  else if name =? "-omp" then
    {| prob := prob a; coord := coord a; eos := eos a; flux := flux a;
       order := order a; fint := fint a; b := b a; s := s a; g := g a;
       t := t a; sh := sh a; debug := debug a; mpi := mpi a; omp := true;
       hdf5 := hdf5 a; hdf5_path := hdf5_path a; cxx := cxx a;
       ccmd := ccmd a; include := include a; lib := lib a |}
  else if name =? "-hdf5" then
    {| prob := prob a; coord := coord a; eos := eos a; flux := flux a;
       order := order a; fint := fint a; b := b a; s := s a; g := g a;
       t := t a; sh := sh a; debug := debug a; mpi := mpi a; omp := omp a;
       hdf5 := true; hdf5_path := hdf5_path a; cxx := cxx a;
       ccmd := ccmd a; include := include a; lib := lib a |}
  else a.

(** One argument is consumed.  A value is checked against the choices of
    its option when it is read; a string that is no option string is set
    aside. *)
Definition consume (pgen_choices : list string)
    (state : Args * list string) (arg : argument)
    : result (Args * list string) :=
  let (a, extras) := state in
  match arg with
  | Valued name value =>
      if py_in name value_options then
        match choices_of pgen_choices name with
        | Some choices =>
            if py_in value choices then OK (store a name value, extras)
            else Raise (ArgumentError name value)
        | None => OK (store a name value, extras)
        end
      else if py_in name switches || py_in name help_options then
        Raise (IgnoredArgument name value)
      else OK (a, (extras ++ [(name ++ "=" ++ value)%string])%list)
  | Bare name =>
      if py_in name switches then OK (store_true a name, extras)
      else if py_in name help_options then Raise HelpExit
      else if py_in name value_options then Raise (ExpectedArgument name)
      else OK (a, (extras ++ [name])%list)
  | Ambiguous text => Raise (AmbiguousOption text)
  | Stray text => OK (a, (extras ++ [text])%list)
  end.

Fixpoint consume_all (pgen_choices : list string)
    (state : Args * list string) (argv : CommandLine)
    : result (Args * list string) :=
  match argv with
  | [] => OK state
  | arg :: argv' =>
      rbind (consume pgen_choices state arg) (fun state' =>
      consume_all pgen_choices state' argv')
  end.

Fixpoint first_ambiguous (argv : CommandLine) : option string :=
  match argv with
  | [] => None
  | Ambiguous text :: _ => Some text
  | _ :: argv' => first_ambiguous argv'
  end.

(** [parser.parse_args()]: an ambiguous abbreviation anywhere on the
    command line is reported before any argument is consumed; then the
    arguments are consumed from left to right, the first error ending
    the run; the strings that were set aside are reported last. *)
Definition parse_args (pgen_choices : list string) (argv : CommandLine)
    : result Args :=
  match first_ambiguous argv with
  | Some text => Raise (AmbiguousOption text)
  | None =>
      rbind (consume_all pgen_choices (default_args, []) argv) (fun state =>
      match snd state with
      | [] => OK (fst state)
      | extras => Raise (UnrecognizedArguments extras)
      end)
  end.

(** The invariant parsing establishes on the enumerated options ([prob]
    is checked against the discovered problem generators only when
    given). *)
Definition valid_args (a : Args) : Prop :=
  In (coord a) coord_choices /\ In (eos a) eos_choices /\
  In (flux a) flux_choices /\ In (order a) order_choices /\
  In (fint a) fint_choices /\ In (cxx a) cxx_choices.

(* ================================================================== *)
(** * Step 2: default flux and incompatible arguments *)

Definition with_flux (a : Args) (f : string) : Args :=
  {| prob := prob a; coord := coord a; eos := eos a; flux := f;
     order := order a; fint := fint a;
     b := b a; s := s a; g := g a; t := t a; sh := sh a;
     debug := debug a; mpi := mpi a; omp := omp a; hdf5 := hdf5 a;
     hdf5_path := hdf5_path a; cxx := cxx a; ccmd := ccmd a;
     include := include a; lib := lib a |}.

(** Set default flux; HLLD for MHD, HLLC for hydro, HLLE for isothermal
    hydro or any GR. *)
Definition set_default_flux (a : Args) : Args :=
  if flux a =? "default" then
    if g a then with_flux a "hlle"
    else if b a then with_flux a "hlld"
    else if eos a =? "isothermal" then with_flux a "hlle"
    else with_flux a "hllc"
  else a.

Definition flat_coords : list string :=
  ["cartesian"; "cylindrical"; "spherical_polar"].

Notation "'IF' c 'RAISE' m ';;;' k" :=
  (if c then Raise (SystemExit m) else k)
  (at level 10, c at level 99, m at level 99, k at level 200,
   only parsing).

(** The nine [raise SystemExit] tests, in source order. *)
Definition check_compatibility (a : Args) : result unit :=
  (* Check Riemann solver compatibility *)
  IF (flux a =? "hllc") && (eos a =? "isothermal")
    RAISE "### CONFIGURE ERROR: HLLC flux cannot be used with isothermal EOS" ;;;
  IF (flux a =? "hllc") && b a
    RAISE "### CONFIGURE ERROR: HLLC flux cannot be used with MHD" ;;;
  IF (flux a =? "hlld") && negb (b a)
    RAISE "### CONFIGURE ERROR: HLLD flux can only be used with MHD" ;;;
  (* Check relativity *)
  IF s a && g a
    RAISE "### CONFIGURE ERROR: "
          ++ "GR implies SR; the -s option is restricted to pure SR" ;;;
  IF t a && negb (g a)
    RAISE "### CONFIGURE ERROR: Frame transformations only apply to GR" ;;;
  IF g a && negb (t a) && negb (py_in (flux a) ["llf"; "hlle"])
    RAISE "### CONFIGURE ERROR: Frame transformations required for " ++ flux a ;;;
  IF g a && py_in (coord a) flat_coords
    RAISE "### CONFIGURE ERROR: "
          ++ "GR cannot be used with " ++ coord a ++ " coordinates" ;;;
  IF negb (g a) && negb (py_in (coord a) flat_coords)
    RAISE "### CONFIGURE ERROR: "
          ++ coord a ++ " coordinates only apply to GR" ;;;
  IF (eos a =? "isothermal") && (s a || g a)
    RAISE "### CONFIGURE ERROR: "
          ++ "Isothermal EOS is incompatible with relativity" ;;;
  OK tt.

(** Step 2 as a whole: the default is chosen first, the tests run on the
    completed options. *)
Definition step2 (a : Args) : result Args :=
  let a' := set_default_flux a in
  rbind (check_compatibility a') (fun _ => OK a').

(** ** The rule list of the Compatibility Validator, as the specification
    words it *)

Inductive rule : Type := R1 | R2 | R3 | R4 | R5 | R6 | R7 | R8 | R9.

Definition rules_in_order : list rule := [R1; R2; R3; R4; R5; R6; R7; R8; R9].

Definition violates (r : rule) (a : Args) : bool :=
  match r with
  | R1 => (flux a =? "hllc") && (eos a =? "isothermal")
  | R2 => (flux a =? "hllc") && b a
  | R3 => (flux a =? "hlld") && negb (b a)
  | R4 => s a && g a
  | R5 => t a && negb (g a)
  | R6 => g a && negb (t a) && negb (py_in (flux a) ["llf"; "hlle"])
  | R7 => g a && py_in (coord a) flat_coords
  | R8 => negb (g a) && negb (py_in (coord a) flat_coords)
  | R9 => (eos a =? "isothermal") && (s a || g a)
  end.

Definition first_violated (a : Args) : option rule :=
  find (fun r => violates r a) rules_in_order.

Definition rule_message (r : rule) (a : Args) : string :=
  match r with
  | R1 => "### CONFIGURE ERROR: HLLC flux cannot be used with isothermal EOS"
  | R2 => "### CONFIGURE ERROR: HLLC flux cannot be used with MHD"
  | R3 => "### CONFIGURE ERROR: HLLD flux can only be used with MHD"
  | R4 => "### CONFIGURE ERROR: GR implies SR; the -s option is restricted to pure SR"
  | R5 => "### CONFIGURE ERROR: Frame transformations only apply to GR"
  | R6 => "### CONFIGURE ERROR: Frame transformations required for " ++ flux a
  | R7 => "### CONFIGURE ERROR: GR cannot be used with " ++ coord a ++ " coordinates"
  | R8 => "### CONFIGURE ERROR: " ++ coord a ++ " coordinates only apply to GR"
  | R9 => "### CONFIGURE ERROR: Isothermal EOS is incompatible with relativity"
  end.

(* ================================================================== *)
(** * Step 3: definitions and Makefile options *)

(** The two dictionaries of substitutions. *)
Record Config : Type := mkConfig {
  definitions : dict;
  makefile_options : dict
}.

(** Statements over the two dictionaries; a failed lookup raises. *)
Definition M (A : Type) : Type := Config -> result (A * Config).

Definition ret {A : Type} (x : A) : M A := fun c => OK (x, c).

Definition bind {A B : Type} (m : M A) (k : A -> M B) : M B :=
  fun c =>
    match m c with
    | OK (x, c') => k x c'
    | Raise e => Raise e
    end.

Notation "x <- m ;; k" := (bind m (fun x => k))
  (at level 61, m at next level, right associativity).
Notation "m ;; k" := (bind m (fun _ => k))
  (at level 61, right associativity).

Definition skip : M unit := ret tt.
Definition when (c : bool) (m : M unit) : M unit := if c then m else skip.

(** [definitions[k] = v] *)
Definition def_set (k v : string) : M unit :=
  fun c => OK (tt, {| definitions := dict_set (definitions c) k v;
                      makefile_options := makefile_options c |}).
(** [makefile_options[k] = v] *)
Definition mk_set (k v : string) : M unit :=
  fun c => OK (tt, {| definitions := definitions c;
                      makefile_options := dict_set (makefile_options c) k v |}).
(** [definitions[k]] *)
Definition def_get (k : string) : M string :=
  fun c =>
    match dict_get (definitions c) k with
    | Some v => OK (v, c)
    | None => Raise (KeyError k)
    end.
(** [makefile_options[k]] *)
Definition mk_get (k : string) : M string :=
  fun c =>
    match dict_get (makefile_options c) k with
    | Some v => OK (v, c)
    | None => Raise (KeyError k)
    end.
(** [definitions[k] += v] *)
Definition def_iadd (k v : string) : M unit :=
  x <- def_get k ;; def_set k (x ++ v).
(** [makefile_options[k] += v] *)
Definition mk_iadd (k v : string) : M unit :=
  x <- mk_get k ;; mk_set k (x ++ v).
(** [definitions[kd] = makefile_options[km] = v] *)
Definition both_set (kd km v : string) : M unit :=
  def_set kd v ;; mk_set km v.

(** [for x in l: body] *)
Fixpoint for_each (l : list string) (body : string -> M unit) : M unit :=
  match l with
  | [] => skip
  | x :: l' => body x ;; for_each l' body
  end.

(** [[f(x) for x in l]] *)
Fixpoint list_comp {A : Type} (l : list string) (f : string -> M A)
    : M (list A) :=
  match l with
  | [] => ret []
  | x :: l' => y <- f x ;; ys <- list_comp l' f ;; ret (y :: ys)
  end.

(** Prepare dictionaries of substitutions to be made *)
Definition init_dicts : M unit :=
  mk_set "LOADER_FLAGS" "".

(** --prob=[name] argument *)
Definition set_prob (a : Args) : M unit :=
  both_set "PROBLEM" "PROBLEM_FILE" (prob a).

(** --coord=[name] argument *)
Definition set_coord (a : Args) : M unit :=
  both_set "COORDINATE_SYSTEM" "COORDINATES_FILE" (coord a).

(** --eos=[name] argument *)
Definition set_eos (a : Args) : M unit :=
  def_set "NON_BAROTROPIC_EOS" (if eos a =? "adiabatic" then "1" else "0") ;;
  mk_set "EOS_FILE" (eos a) ;;
  (* set number of hydro variables for adiabatic/isothermal *)
  when (eos a =? "adiabatic") (def_set "NHYDRO_VARIABLES" "5") ;;
  when (eos a =? "isothermal") (def_set "NHYDRO_VARIABLES" "4").

(** --flux=[name] argument *)
Definition set_flux (a : Args) : M unit :=
  both_set "RSOLVER" "RSOLVER_FILE" (flux a).

(** --order=[name] argument *)
Definition set_order (a : Args) : M unit :=
  both_set "RECONSTRUCT" "RECONSTRUCT_FILE" (order a).

(** --fint=[name] argument *)
Definition set_fint (a : Args) : M unit :=
  both_set "HYDRO_INTEGRATOR" "HYDRO_INT_FILE" (fint a).

(** -b argument: set variety of macros based on whether MHD/hydro or
    adi/iso are defined *)
Definition set_b (a : Args) : M unit :=
  if b a then
    def_set "MAGNETIC_FIELDS_ENABLED" "1" ;;
    mk_iadd "EOS_FILE" "_mhd" ;;
    def_set "NFIELD_VARIABLES" "3" ;;
    mk_set "RSOLVER_DIR" "mhd/" ;;
    when ((flux a =? "hlle") || (flux a =? "llf") || (flux a =? "roe"))
      (mk_iadd "RSOLVER_FILE" "_mhd") ;;
    (if eos a =? "adiabatic" then
       def_set "NWAVE_VALUE" "7"
     else
       def_set "NWAVE_VALUE" "6" ;;
       when (flux a =? "hlld") (mk_iadd "RSOLVER_FILE" "_iso"))
  else
    def_set "MAGNETIC_FIELDS_ENABLED" "0" ;;
    mk_iadd "EOS_FILE" "_hydro" ;;
    def_set "NFIELD_VARIABLES" "0" ;;
    mk_set "RSOLVER_DIR" "hydro/" ;;
    (if eos a =? "adiabatic" then
       def_set "NWAVE_VALUE" "5"
     else
       def_set "NWAVE_VALUE" "4").

(** -s, -g, and -t arguments *)
Definition set_relativity (a : Args) : M unit :=
  def_set "RELATIVISTIC_DYNAMICS" (if s a || g a then "1" else "0") ;;
  def_set "GENERAL_RELATIVITY" (if g a then "1" else "0") ;;
  def_set "FRAME_TRANSFORMATIONS" (if t a then "1" else "0") ;;
  when (s a)
    (mk_iadd "EOS_FILE" "_sr" ;;
     mk_iadd "RSOLVER_FILE" "_rel") ;;
  when (g a)
    (mk_iadd "EOS_FILE" "_gr" ;;
     mk_iadd "RSOLVER_FILE" "_rel" ;;
     when (negb (t a)) (mk_iadd "RSOLVER_FILE" "_no_transform")).

(** -sh argument *)
Definition set_sh (a : Args) : M unit :=
  if sh a then def_set "SHEARING_BOX" "1" else def_set "SHEARING_BOX" "0".

Definition bgxl_optimization_flags : string :=
  "-O3 -qhot=level=1:vector -qinline=level=5:auto -qipa=level=1:noobject"
  ++ " -qstrict=subnormals -qmaxmem=150000 -qlanglvl=extended -qsuppress=1500-036"
  ++ " -qsuppress=1540-1401 -qsuppress=1586-083 -qsuppress=1586-233"
  ++ " -qsuppress=1586-267".

(** --cxx=[name] argument *)
Definition set_cxx (a : Args) : M unit :=
  when (cxx a =? "g++")
    (def_set "COMPILER_CHOICE" "g++" ;;
     both_set "COMPILER_COMMAND" "COMPILER_COMMAND" "g++" ;;
     mk_set "PREPROCESSOR_FLAGS" "" ;;
     mk_set "COMPILER_FLAGS" "-O3 -march=native -ffast-math" ;;
     mk_set "LINKER_FLAGS" "" ;;
     mk_set "LIBRARY_FLAGS" "") ;;
  when (cxx a =? "icc")
    (def_set "COMPILER_CHOICE" "icc" ;;
     both_set "COMPILER_COMMAND" "COMPILER_COMMAND" "icc" ;;
     mk_set "PREPROCESSOR_FLAGS" "" ;;
     mk_set "COMPILER_FLAGS" "-O3 -xhost -ipo -inline-forceinline" ;;
     mk_set "LINKER_FLAGS" "" ;;
     mk_set "LIBRARY_FLAGS" "") ;;
  when (cxx a =? "cray")
    (def_set "COMPILER_CHOICE" "cray" ;;
     both_set "COMPILER_COMMAND" "COMPILER_COMMAND" "CC" ;;
     mk_set "PREPROCESSOR_FLAGS" "" ;;
     mk_set "COMPILER_FLAGS" "-O3 -h aggress -h vector3 -hfp3" ;;
     mk_set "LINKER_FLAGS" "-hwp -hpl=obj/lib" ;;
     mk_set "LIBRARY_FLAGS" "-lm") ;;
  when (cxx a =? "bgxl")
    (def_set "COMPILER_CHOICE" "bgxlc++" ;;
     both_set "COMPILER_COMMAND" "COMPILER_COMMAND" "bgxlc++" ;;
     mk_set "PREPROCESSOR_FLAGS" "" ;;
     mk_set "COMPILER_FLAGS" bgxl_optimization_flags ;;
     v <- mk_get "COMPILER_FLAGS" ;; mk_set "LINKER_FLAGS" v ;;
     mk_set "LIBRARY_FLAGS" "") ;;
  when (cxx a =? "icc-phi")
    (def_set "COMPILER_CHOICE" "icc" ;;
     both_set "COMPILER_COMMAND" "COMPILER_COMMAND" "icc" ;;
     mk_set "PREPROCESSOR_FLAGS" "" ;;
     mk_set "COMPILER_FLAGS" "-O3 -xMIC-AVX512 -ipo -inline-forceinline" ;;
     mk_set "LINKER_FLAGS" "" ;;
     mk_set "LIBRARY_FLAGS" "").

(** -debug argument *)
Definition set_debug (a : Args) : M unit :=
  if debug a then
    def_set "DEBUG" "DEBUG" ;;
    when ((cxx a =? "g++") || (cxx a =? "icc"))
      (mk_set "COMPILER_FLAGS" "-O0 -g") ;;
    when (cxx a =? "cray")
      (mk_set "COMPILER_FLAGS" "-O0") ;;
    when (cxx a =? "bgxl")
      (mk_set "COMPILER_FLAGS" "-O0 -g -qlanglvl=extended") ;;
    when (cxx a =? "icc-phi")
      (mk_set "COMPILER_FLAGS" "-O0 -g -xMIC-AVX512")
  else
    def_set "DEBUG" "NOT_DEBUG".

(** -mpi argument *)
Definition set_mpi (a : Args) : M unit :=
  if mpi a then
    def_set "MPI_OPTION" "MPI_PARALLEL" ;;
    when ((cxx a =? "g++") || (cxx a =? "icc") || (cxx a =? "icc-phi"))
      (both_set "COMPILER_COMMAND" "COMPILER_COMMAND" "mpicxx") ;;
    when (cxx a =? "cray")
      (mk_iadd "COMPILER_FLAGS" " -h mpi1") ;;
    when (cxx a =? "bgxl")
      (both_set "COMPILER_COMMAND" "COMPILER_COMMAND" "mpixlcxx")
  else
    def_set "MPI_OPTION" "NOT_MPI_PARALLEL".

(** -omp argument *)
Definition set_omp (a : Args) : M unit :=
  if omp a then
    def_set "OPENMP_OPTION" "OPENMP_PARALLEL" ;;
    when (cxx a =? "g++")
      (mk_iadd "COMPILER_FLAGS" " -fopenmp") ;;
    when ((cxx a =? "icc") || (cxx a =? "icc-phi"))
      (mk_iadd "COMPILER_FLAGS" " -openmp") ;;
    when (cxx a =? "cray")
      (mk_iadd "COMPILER_FLAGS" " -homp") ;;
    when (cxx a =? "bgxl")
      ((* use thread-safe version of compiler *)
       def_iadd "COMPILER_COMMAND" "_r" ;;
       mk_iadd "COMPILER_COMMAND" "_r" ;;
       mk_iadd "COMPILER_FLAGS" " -qsmp")
  else
    def_set "OPENMP_OPTION" "NOT_OPENMP_PARALLEL" ;;
    when (cxx a =? "cray")
      (mk_iadd "COMPILER_FLAGS" " -hnoomp") ;;
    when ((cxx a =? "icc") || (cxx a =? "icc-phi"))
      (mk_iadd "COMPILER_FLAGS" " -diag-disable 3180").

(** -hdf5 argument *)
Definition set_hdf5 (a : Args) : M unit :=
  if hdf5 a then
    def_set "HDF5_OPTION" "HDF5OUTPUT" ;;
    when (negb (hdf5_path a =? ""))
      (mk_iadd "PREPROCESSOR_FLAGS" ("-I" ++ hdf5_path a ++ "/include") ;;
       mk_iadd "LINKER_FLAGS" ("-L" ++ hdf5_path a ++ "/lib")) ;;
    when ((cxx a =? "g++") || (cxx a =? "icc") || (cxx a =? "cray")
          || (cxx a =? "icc-phi"))
      (mk_iadd "LIBRARY_FLAGS" " -lhdf5") ;;
    when (cxx a =? "bgxl")
      (mk_iadd "PREPROCESSOR_FLAGS"
         (" -D_LARGEFILE_SOURCE -D_LARGEFILE64_SOURCE -D_BSD_SOURCE"
          ++ " -I/soft/libraries/hdf5/1.10.0/cnk-xl/current/include"
          ++ " -I/bgsys/drivers/ppcfloor/comm/include") ;;
       mk_iadd "LINKER_FLAGS"
         (" -L/soft/libraries/hdf5/1.10.0/cnk-xl/current/lib"
          ++ " -L/soft/libraries/alcf/current/xl/ZLIB/lib") ;;
       mk_iadd "LIBRARY_FLAGS" " -lhdf5 -lz -lm")
  else
    def_set "HDF5_OPTION" "NO_HDF5OUTPUT".

(** --ccmd=[name] argument *)
Definition set_ccmd (a : Args) : M unit :=
  match ccmd a with
  | Some name => both_set "COMPILER_COMMAND" "COMPILER_COMMAND" name
  | None => skip
  end.

(** --include=[name] arguments *)
Definition set_include (a : Args) : M unit :=
  for_each (include a) (fun include_path =>
    mk_iadd "COMPILER_FLAGS" (" -I" ++ include_path)).

(** --lib=[name] arguments *)
Definition set_lib (a : Args) : M unit :=
  for_each (lib a) (fun library_path =>
    mk_iadd "LINKER_FLAGS" (" -L" ++ library_path)).

(** Assemble all flags of any sort given to compiler *)
Definition assemble_flags : M unit :=
  flags <- list_comp ["PREPROCESSOR"; "COMPILER"; "LINKER"; "LIBRARY"]
             (fun opt => mk_get (opt ++ "_FLAGS")) ;;
  def_set "COMPILER_FLAGS" (String.concat " " flags).

Definition step3 (a : Args) : M unit :=
  init_dicts ;;
  set_prob a ;; set_coord a ;; set_eos a ;; set_flux a ;; set_order a ;;
  set_fint a ;; set_b a ;; set_relativity a ;; set_sh a ;;
  set_cxx a ;; set_debug a ;; set_mpi a ;; set_omp a ;; set_hdf5 a ;;
  set_ccmd a ;; set_include a ;; set_lib a ;;
  assemble_flags.

(** Step 4, first part: terminate all filenames with .cpp extension *)
Definition terminate_filenames : M unit :=
  mk_iadd "PROBLEM_FILE" ".cpp" ;;
  mk_iadd "COORDINATES_FILE" ".cpp" ;;
  mk_iadd "EOS_FILE" ".cpp" ;;
  mk_iadd "RSOLVER_FILE" ".cpp" ;;
  mk_iadd "RECONSTRUCT_FILE" ".cpp" ;;
  mk_iadd "HYDRO_INT_FILE" ".cpp".

Definition empty_config : Config :=
  {| definitions := []; makefile_options := [] |}.

(** The resolved configuration of a parsed option set: Steps 2 and 3 and
    the file-name termination of Step 4. *)
Definition run_config (m : M unit) : result Config :=
  match m empty_config with
  | OK (_, c) => OK c
  | Raise e => Raise e
  end.

Definition configure (a : Args) : result Config :=
  rbind (step2 a) (fun a' => run_config (step3 a' ;; terminate_filenames)).

(* ================================================================== *)
(** * Step 4: template substitution and output files *)

(** ** [re.sub] on the patterns the script builds

    The pattern is [r'@{0}@'.format(key)].  The model covers patterns
    without regular-expression metacharacters (every key of the two
    dictionaries is of that kind, see [configure_keys_plain]); such a
    pattern is not empty here and matches exactly its own text. *)

Definition re_metachars : list ascii :=
  list_ascii_of_string ".^$*+?{}[]\|()".

Definition plain_char (c : ascii) : bool :=
  negb (existsb (Ascii.eqb c) re_metachars).

Fixpoint plain (p : string) : bool :=
  match p with
  | EmptyString => true
  | String c p' => plain_char c && plain p'
  end.

Definition is_octdigit (c : ascii) : bool :=
  let n := nat_of_ascii c in ((48 <=? n) && (n <=? 55))%nat.
Definition is_digit (c : ascii) : bool :=
  let n := nat_of_ascii c in ((48 <=? n) && (n <=? 57))%nat.
Definition is_ascii_letter (c : ascii) : bool :=
  let n := nat_of_ascii c in
  (((65 <=? n) && (n <=? 90)) || ((97 <=? n) && (n <=? 122)))%nat.
Definition digit_value (c : ascii) : nat := nat_of_ascii c - 48.

Definition backslash : ascii := "\"%char.

(** [ESCAPES] of the replacement-template parser. *)
Definition template_escape (c : ascii) : option ascii :=
  if Ascii.eqb c "a" then Some (ascii_of_nat 7)
  else if Ascii.eqb c "b" then Some (ascii_of_nat 8)
  else if Ascii.eqb c "f" then Some (ascii_of_nat 12)
  else if Ascii.eqb c "n" then Some (ascii_of_nat 10)
  else if Ascii.eqb c "r" then Some (ascii_of_nat 13)
  else if Ascii.eqb c "t" then Some (ascii_of_nat 9)
  else if Ascii.eqb c "v" then Some (ascii_of_nat 11)
  else if Ascii.eqb c backslash then Some backslash
  else None.

(** [name.isidentifier()], for characters below 256: a letter or [_],
    then letters, digits, [_] and the middle dot. *)
Definition is_letter (c : ascii) : bool :=
  let n := nat_of_ascii c in
  (is_ascii_letter c || (n =? 170) || (n =? 181) || (n =? 186)
   || ((192 <=? n) && (n <=? 214)) || ((216 <=? n) && (n <=? 246))
   || (248 <=? n))%nat.

Definition identifier_start (c : ascii) : bool :=
  is_letter c || Ascii.eqb c "_".

Definition identifier_part (c : ascii) : bool :=
  identifier_start c || is_digit c || (nat_of_ascii c =? 183)%nat.

Fixpoint all_identifier_parts (name : string) : bool :=
  match name with
  | EmptyString => true
  | String c name' => identifier_part c && all_identifier_parts name'
  end.

Definition is_identifier (name : string) : bool :=
  match name with
  | EmptyString => false
  | String c name' => identifier_start c && all_identifier_parts name'
  end.

(** The characters of a placeholder name. *)
Definition name_char (c : ascii) : bool :=
  is_ascii_letter c || is_digit c || Ascii.eqb c "_".

(** [int(name)], as far as the replacement parser looks at it: white
    space around the number is dropped, a sign may come first, and the
    digits may be separated by single underscores; more than 4300 digits
    are refused.  The result tells whether the number is negative and
    whether it is zero. *)
Definition is_space (c : ascii) : bool :=
  let n := nat_of_ascii c in
  (((9 <=? n) && (n <=? 13)) || (n =? 32) || (n =? 133) || (n =? 160))%nat.

Fixpoint lstrip (text : string) : string :=
  match text with
  | String c rest => if is_space c then lstrip rest else text
  | EmptyString => EmptyString
  end.

Fixpoint all_spaces (text : string) : bool :=
  match text with
  | EmptyString => true
  | String c rest => is_space c && all_spaces rest
  end.

(** The digits of a number, [after_digit] telling whether a digit was
    just read: the number of digits and whether all are zero. *)
Fixpoint read_digits (after_digit : bool) (text : string)
    : option (nat * bool) :=
  match text with
  | EmptyString => if after_digit then Some (0, true) else None
  | String c rest =>
      if is_digit c then
        match read_digits true rest with
        | Some (n, zero) => Some (S n, Ascii.eqb c "0" && zero)
        | None => None
        end
      else if Ascii.eqb c "_" then
        if after_digit then
          match rest with
          | String d _ => if is_digit d then read_digits false rest else None
          | EmptyString => None
          end
        else None
      else if after_digit && all_spaces text then Some (0, true)
      else None
  end.

Definition py_int (name : string) : option (bool * bool) :=
  let text := lstrip name in
  let (negative, digits) :=
    match text with
    | String "+" rest => (false, rest)
    | String "-" rest => (true, rest)
    | _ => (false, text)
    end in
  match read_digits false digits with
  | Some (n, zero) => if (4300 <? n)%nat then None else Some (negative, zero)
  | None => None
  end.

(** The group a name in [\g<name>] refers to; the pattern has no group
    but group 0, the whole match. *)
Definition check_group_name (name : string) : result unit :=
  if is_identifier name then Raise (IndexError "unknown group name")
  else
    match py_int name with
    | Some (negative, zero) =>
        if zero then OK tt
        else if negative then Raise (ReError "bad character in group name")
        else Raise (ReError "invalid group reference")
    | None => Raise (ReError "bad character in group name")
    end.

(** The replacement string as [Tokenizer] cuts it: a character, or a
    backslash together with the character after it; a backslash at the
    very end has none. *)
Inductive token : Type :=
| Chr (c : ascii)
| Esc (c : ascii)
| Dangling.

Fixpoint tokenize (repl : string) : list token :=
  match repl with
  | EmptyString => []
  | String c rest =>
      if Ascii.eqb c backslash then
        match rest with
        | EmptyString => [Dangling]
        | String e rest' => Esc e :: tokenize rest'
        end
      else Chr c :: tokenize rest
  end.

(** The tokenizer reads one token ahead: when a token is taken, the one
    after it is read, and a backslash at the very end is an error
    then. *)
Definition look (ts : list token) : result unit :=
  match ts with
  | Dangling :: _ => Raise (ReError "bad escape (end of pattern)")
  | _ => OK tt
  end.

(** [getuntil(">")]: the tokens up to the first [>] make the name. *)
Fixpoint getuntil (ts : list token) (name : string)
    : result (string * list token) :=
  match ts with
  | [] =>
      Raise (ReError (if name =? "" then "missing group name"
                      else "missing >, unterminated name"))
  | t :: rest =>
      match look rest with
      | Raise e => Raise e
      | OK _ =>
          match t with
          | Chr c =>
              if Ascii.eqb c ">" then
                if name =? "" then Raise (ReError "missing group name")
                else OK (name, rest)
              else getuntil rest (name ++ String c EmptyString)
          | Esc c =>
              getuntil rest (name ++ String backslash (String c EmptyString))
          | Dangling => Raise (ReError "bad escape (end of pattern)")
          end
      end
  end.

(** The replacement string of [re.sub], expanded for a match [m] of a
    pattern that has no groups ([parse_template] and [expand_template]
    of Python 3.11, characters below 256): backslash escapes are
    processed, [\g<0>] is the whole match, and every other group
    reference, an unknown letter escape or a backslash at the end is an
    error.  The fuel is the number of tokens still to be read. *)
Fixpoint expand_tokens (fuel : nat) (m : string) (ts : list token)
    : result string :=
  match fuel with
  | O => OK EmptyString
  | S fuel' =>
    match ts with
    | [] => OK EmptyString
    | t :: rest =>
      rbind (look rest) (fun _ =>
      match t with
      | Chr c =>
          rbind (expand_tokens fuel' m rest) (fun out => OK (String c out))
      | Dangling => Raise (ReError "bad escape (end of pattern)")
      | Esc e =>
          if Ascii.eqb e "g" then
            match rest with
            | Chr "<" :: rest1 =>
                rbind (look rest1) (fun _ =>
                rbind (getuntil rest1 EmptyString) (fun name_rest =>
                rbind (check_group_name (fst name_rest)) (fun _ =>
                rbind (expand_tokens fuel' m (snd name_rest)) (fun out =>
                OK (m ++ out)))))
            | _ => Raise (ReError "missing <")
            end
          else if Ascii.eqb e "0" then
            match rest with
            | Chr d1 :: rest1 =>
                if is_octdigit d1 then
                  rbind (look rest1) (fun _ =>
                  match rest1 with
                  | Chr d2 :: rest2 =>
                      if is_octdigit d2 then
                        rbind (look rest2) (fun _ =>
                        rbind (expand_tokens fuel' m rest2) (fun out =>
                        OK (String (ascii_of_nat
                              ((8 * digit_value d1 + digit_value d2) mod 256))
                              out)))
                      else
                        rbind (expand_tokens fuel' m rest1) (fun out =>
                        OK (String (ascii_of_nat (digit_value d1)) out))
                  | _ =>
                      rbind (expand_tokens fuel' m rest1) (fun out =>
                      OK (String (ascii_of_nat (digit_value d1)) out))
                  end)
                else
                  rbind (expand_tokens fuel' m rest) (fun out =>
                  OK (String (ascii_of_nat 0) out))
            | _ =>
                rbind (expand_tokens fuel' m rest) (fun out =>
                OK (String (ascii_of_nat 0) out))
            end
          else if is_digit e then
            match rest with
            | Chr d1 :: rest1 =>
                if is_digit d1 then
                  rbind (look rest1) (fun _ =>
                  match rest1 with
                  | Chr d2 :: rest2 =>
                      if is_octdigit e && is_octdigit d1 && is_octdigit d2 then
                        rbind (look rest2) (fun _ =>
                        let v := 64 * digit_value e + 8 * digit_value d1
                                 + digit_value d2 in
                        if (255 <? v)%nat then
                          Raise (ReError "octal escape value outside of range 0-0o377")
                        else
                          rbind (expand_tokens fuel' m rest2) (fun out =>
                          OK (String (ascii_of_nat v) out)))
                      else Raise (ReError "invalid group reference")
                  | _ => Raise (ReError "invalid group reference")
                  end)
                else Raise (ReError "invalid group reference")
            | _ => Raise (ReError "invalid group reference")
            end
          else
            match template_escape e with
            | Some x =>
                rbind (expand_tokens fuel' m rest) (fun out => OK (String x out))
            | None =>
                if is_ascii_letter e then Raise (ReError "bad escape")
                else
                  rbind (expand_tokens fuel' m rest) (fun out =>
                  OK (String backslash (String e out)))
            end
      end)
    end
  end.

Definition expand_template (m repl : string) : result string :=
  rbind (look (tokenize repl)) (fun _ =>
  expand_tokens (List.length (tokenize repl)) m (tokenize repl)).

(** Replace the leftmost non-overlapping occurrences of [pat] in the
    text; [skip] counts the characters of a match still to be consumed. *)
Fixpoint replace_from (pat rep : string) (skip : nat) (text : string) : string :=
  match text with
  | EmptyString => EmptyString
  | String c rest =>
      match skip with
      | S k => replace_from pat rep k rest
      | O =>
          if String.prefix pat text
          then rep ++ replace_from pat rep (String.length pat - 1) rest
          else String c (replace_from pat rep 0 rest)
      end
  end.

(** [re.sub(pattern, repl, string)]: the replacement is compiled first,
    also when nothing matches. *)
Definition re_sub (pattern repl text : string) : result string :=
  rbind (expand_template pattern repl) (fun rep =>
  OK (replace_from pattern rep 0 text)).

(** [r'@{0}@'.format(key)] *)
Definition placeholder (key : string) : string := "@" ++ key ++ "@".

(** [for key,val in items: template = re.sub(r'@{0}@'.format(key), val, template)] *)
Fixpoint substitute (items : dict) (template : string) : result string :=
  match items with
  | [] => OK template
  | (key, val) :: items' =>
      rbind (re_sub (placeholder key) val template) (substitute items')
  end.

(** ** Templates as literal text and placeholders

    The reading of a template the specification has in mind: literal
    text interleaved with placeholders [@NAME@]. *)

Inductive piece : Type :=
| Lit (text : string)
| Hole (name : string).

Definition render_piece (p : piece) : string :=
  match p with
  | Lit text => text
  | Hole name => placeholder name
  end.

Fixpoint render (ps : list piece) : string :=
  match ps with
  | [] => EmptyString
  | p :: ps' => render_piece p ++ render ps'
  end.

(** Substitution placeholder by placeholder: a placeholder whose name is
    a key becomes the mapped value, any other stays. *)
Definition fill (items : dict) (p : piece) : piece :=
  match p with
  | Lit text => Lit text
  | Hole name =>
      match dict_get items name with
      | Some val => Lit val
      | None => Hole name
      end
  end.

(** One pass of the loop, for one key. *)
Definition fill_key (key val : string) (p : piece) : piece :=
  match p with
  | Lit text => Lit text
  | Hole name => if key =? name then Lit val else Hole name
  end.

Fixpoint contains_char (c : ascii) (text : string) : bool :=
  match text with
  | EmptyString => false
  | String c' text' => Ascii.eqb c c' || contains_char c text'
  end.

(** The text before the first occurrence of a character. *)
Fixpoint before_char (c : ascii) (text : string) : string :=
  match text with
  | EmptyString => EmptyString
  | String c' rest =>
      if Ascii.eqb c c' then EmptyString else String c' (before_char c rest)
  end.

Definition first_char_of_key (c : ascii) (keys : list string) : bool :=
  existsb (fun key =>
             match key with
             | String c' _ => Ascii.eqb c c'
             | EmptyString => false
             end) keys.

(** What follows a placeholder: the end of the template, or literal
    text whose first character starts no key. *)
Definition separated (keys : list string) (ps : list piece) : bool :=
  match ps with
  | [] => true
  | Lit (String c _) :: _ => negb (first_char_of_key c keys)
  | _ => false
  end.

(** A template whose [@] characters all delimit placeholders, each
    placeholder followed by a separator. *)
Fixpoint well_formed (keys : list string) (ps : list piece) : bool :=
  match ps with
  | [] => true
  | Lit text :: ps' => negb (contains_char "@" text) && well_formed keys ps'
  | Hole name :: ps' =>
      negb (contains_char "@" name) && separated keys ps'
      && well_formed keys ps'
  end.

(** Keys without metacharacters or [@]; values without backslash or [@]. *)
Definition literal_item (item : string * string) : bool :=
  plain (fst item) && negb (contains_char "@" (fst item)) &&
  negb (contains_char backslash (snd item)) &&
  negb (contains_char "@" (snd item)).

Definition literal_items (items : dict) : bool := forallb literal_item items.

Fixpoint hole_names (ps : list piece) : list string :=
  match ps with
  | [] => []
  | Lit _ :: ps' => hole_names ps'
  | Hole name :: ps' => name :: hole_names ps'
  end.

(** ** Templates that the loop reads as they are meant

    A pass for a key matches the text [@KEY@] wherever it stands, so a
    delimiter may be taken for the other end of a placeholder: the text
    between a delimiter and the next one is replaced when it is a key.
    The pieces of a template are read as they are meant when this
    happens for no text but the names of the placeholders, also after
    placeholders in between have been replaced by their values.  Here
    literal text may hold [@]. *)

(** From a delimiter on: [gap] is the text read since, with the
    placeholders passed replaced by their values; at the next delimiter
    it must be no key. *)
Fixpoint gap_ok (items : dict) (gap : string) (ps : list piece) : bool :=
  match ps with
  | [] => true
  | Lit text :: ps' =>
      if contains_char "@" text
      then negb (py_in (gap ++ before_char "@" text) (dict_keys items))
      else gap_ok items (gap ++ text) ps'
  | Hole name :: ps' =>
      negb (py_in gap (dict_keys items)) &&
      match dict_get items name with
      | Some val => gap_ok items (gap ++ val) ps'
      | None => true
      end
  end.

(** Every [@] of a literal text is such a delimiter. *)
Fixpoint lit_ok (items : dict) (text : string) (ps : list piece) : bool :=
  match text with
  | EmptyString => true
  | String c rest =>
      (if Ascii.eqb c "@" then gap_ok items "" (Lit rest :: ps) else true)
      && lit_ok items rest ps
  end.

(** So is the closing [@] of every placeholder. *)
Fixpoint unambiguous (items : dict) (ps : list piece) : bool :=
  match ps with
  | [] => true
  | Lit text :: ps' => lit_ok items text ps' && unambiguous items ps'
  | Hole name :: ps' =>
      negb (contains_char "@" name) && gap_ok items "" ps'
      && unambiguous items ps'
  end.

(** Literal text without [@]. *)
Definition plain_literals (ps : list piece) : bool :=
  forallb (fun p => match p with
                    | Lit text => negb (contains_char "@" text)
                    | Hole _ => true
                    end) ps.

(** The delimiter-wrapped tokens of a text: at every [@], the run of
    name characters up to the next [@], when there is one.  A closing
    delimiter is also tried as an opening one, so the names of any
    left-to-right pairing of the delimiters are among these. *)
Fixpoint span_name (text : string) : string * string :=
  match text with
  | EmptyString => (EmptyString, EmptyString)
  | String c rest =>
      if name_char c
      then let (name, after) := span_name rest in (String c name, after)
      else (EmptyString, text)
  end.

Fixpoint tokens (text : string) : list string :=
  match text with
  | EmptyString => []
  | String c rest =>
      if Ascii.eqb c "@" then
        match span_name rest with
        | (String n0 name, String "@" _) => String n0 name :: tokens rest
        | _ => tokens rest
        end
      else tokens rest
  end.

(** ** The run as a whole *)

Definition makefile_input : string := "Makefile.in".
Definition makefile_output : string := "Makefile".
Definition defsfile_input : string := "src/defs.hpp.in".
Definition defsfile_output : string := "src/defs.hpp".
Definition pgen_directory : string := "src/pgen/".

(** The world outside.  Paths are relative to the working directory,
    with [/] between their components.  [files] holds the regular files
    and their contents; a path that has a file or a listed directory
    below it is a directory, and [directories] lists further ones.
    [write_protected] are the paths the process may not open for
    writing.  [opened_for_writing] records the paths the script has
    opened for writing, and [stdout] the lines its [print] statements
    have written (what argparse itself prints is not recorded). *)
Record World : Type := mkWorld {
  files : dict;
  directories : list string;
  write_protected : list string;
  opened_for_writing : list string;
  stdout : list string
}.

(** Programs with effects on the world; an exception keeps the world as
    it was when it was raised. *)
Definition W (A : Type) : Type := World -> result A * World.

Definition wbind {A B : Type} (m : W A) (k : A -> W B) : W B :=
  fun w =>
    match m w with
    | (OK x, w') => k x w'
    | (Raise e, w') => (Raise e, w')
    end.
Definition lift {A : Type} (r : result A) : W A := fun w => (r, w).

Notation "x <~ m ;; k" := (wbind m (fun x => k))
  (at level 61, m at next level, right associativity).
Notation "m ~;; k" := (wbind m (fun _ => k))
  (at level 61, right associativity).

Definition ends_with (suffix text : string) : bool :=
  (String.length suffix <=? String.length text)%nat &&
  (substring (String.length text - String.length suffix)
             (String.length suffix) text =? suffix).

(** Every path of the file system, files and listed directories. *)
Definition paths (w : World) : list string :=
  (dict_keys (files w) ++ directories w)%list.

Definition is_directory (w : World) (path : string) : bool :=
  py_in path (directories w)
  || existsb (String.prefix (path ++ "/")) (paths w).

(** The entry of [pgen_directory] a path below it goes through. *)
Definition pgen_entry (path : string) : string :=
  before_char "/" (substring (String.length pgen_directory)
                             (String.length path) path).

(** [glob.glob(pgen_directory + '*.cpp')]: the entries of the directory,
    files and directories alike, whose name ends in [.cpp] and does not
    start with a dot, each once, with the directory in front.  The order
    is the one the file system lists them in, here the order of
    [paths]. *)
Definition glob_pgen (w : World) : list string :=
  map (append pgen_directory)
    (filter
       (fun name => ends_with ".cpp" name && negb (String.prefix "." name))
       (nodup string_dec
          (map pgen_entry (filter (String.prefix pgen_directory) (paths w))))).

(** [[choice[len(pgen_directory):-4] for choice in pgen_choices]] *)
Definition pgen_choices (w : World) : list string :=
  map (fun choice =>
         substring (String.length pgen_directory)
                   (String.length choice - String.length pgen_directory - 4)
                   choice)
      (glob_pgen w).

(** The choices of [--prob], read off the file system. *)
Definition list_problem_generators : W (list string) :=
  fun w => (OK (pgen_choices w), w).

(** [with open(path, 'r') as f: f.read()]: a path that is no regular file
    raises; a file that is there is taken to be readable. *)
Definition read_file (path : string) : W string :=
  fun w =>
    match dict_get (files w) path with
    | Some text => (OK text, w)
    | None => (Raise (IOError path), w)
    end.

(** [open(path, 'w')] is refused for a directory and for a path the
    process may not write. *)
Definition can_open_for_writing (w : World) (path : string) : bool :=
  negb (py_in path (write_protected w)) && negb (is_directory w path).

(** The world after [text] has been written to [path]. *)
Definition written (w : World) (path text : string) : World :=
  {| files := dict_set (files w) path text;
     directories := directories w;
     write_protected := write_protected w;
     opened_for_writing := opened_for_writing w ++ [path];
     stdout := stdout w |}.

(** The world after [lines] have been printed. *)
Definition printed (w : World) (lines : list string) : World :=
  {| files := files w;
     directories := directories w;
     write_protected := write_protected w;
     opened_for_writing := opened_for_writing w;
     stdout := stdout w ++ lines |}.

(** [with open(path, 'w') as f: f.write(text)]: a refused [open] raises
    and leaves the file as it is; once the file is open, writing is
    taken to succeed. *)
Definition write_file (path text : string) : W unit :=
  fun w =>
    if can_open_for_writing w path then (OK tt, written w path text)
    else (Raise (IOError path), w).

Definition print (line : string) : W unit :=
  fun w => (OK tt, printed w [line]).

Definition on_off (x : bool) : string := if x then "ON" else "OFF".

Definition lookup (d : dict) (k : string) : result string :=
  match dict_get d k with
  | Some v => OK v
  | None => Raise (KeyError k)
  end.

(** Finish with diagnostic output *)
Definition report (a : Args) (c : Config) : W unit :=
  print "Your Athena++ distribution has now been configured with the following options:" ~;;
  print ("  Problem generator:       " ++ prob a) ~;;
  print ("  Coordinate system:       " ++ coord a) ~;;
  print ("  Equation of state:       " ++ eos a) ~;;
  print ("  Riemann solver:          " ++ flux a) ~;;
  print ("  Reconstruction method:   " ++ order a) ~;;
  print ("  Hydro integrator:        " ++ fint a) ~;;
  print ("  Magnetic fields:         " ++ on_off (b a)) ~;;
  print ("  Special relativity:      " ++ on_off (s a)) ~;;
  print ("  General relativity:      " ++ on_off (g a)) ~;;
  print ("  Frame transformations:   " ++ on_off (t a)) ~;;
  print ("  ShearingBox:             " ++ on_off (sh a)) ~;;
  print ("  Debug flags:             " ++ on_off (debug a)) ~;;
  linker <~ lift (lookup (makefile_options c) "LINKER_FLAGS") ;;
  library <~ lift (lookup (makefile_options c) "LIBRARY_FLAGS") ;;
  print ("  Linker flags:            " ++ linker ++ " " ++ library) ~;;
  print ("  MPI parallelism:         " ++ on_off (mpi a)) ~;;
  print ("  OpenMP parallelism:      " ++ on_off (omp a)) ~;;
  print ("  HDF5 output:             " ++ on_off (hdf5 a)) ~;;
  print ("  Compiler:                " ++ cxx a) ~;;
  command <~ lift (lookup (makefile_options c) "COMPILER_COMMAND") ;;
  preprocessor <~ lift (lookup (makefile_options c) "PREPROCESSOR_FLAGS") ;;
  compiler <~ lift (lookup (makefile_options c) "COMPILER_FLAGS") ;;
  print ("  Compilation command:     " ++ command ++ " "
         ++ preprocessor ++ " " ++ compiler).

(** The script from the first line to the last. *)
Definition main (cl : CommandLine) : W unit :=
  choices <~ list_problem_generators ;;
  (* Step 1 *)
  args0 <~ lift (parse_args choices cl) ;;
  (* Step 2 *)
  args <~ lift (step2 args0) ;;
  (* Step 3 and the filename extensions *)
  c <~ lift (run_config (step3 args ;; terminate_filenames)) ;;
  (* Read templates *)
  defsfile_template <~ read_file defsfile_input ;;
  makefile_template <~ read_file makefile_input ;;
  (* Make substitutions *)
  defsfile_text <~ lift (substitute (definitions c) defsfile_template) ;;
  makefile_text <~ lift (substitute (makefile_options c) makefile_template) ;;
  (* Write output files *)
  write_file defsfile_output defsfile_text ~;;
  write_file makefile_output makefile_text ~;;
  report args c.

(* ================================================================== *)
(** * The resolved configuration in closed form

    What Step 3 computes, written as tables over the options.  The
    statements of Step 3 are proved to build exactly these dictionaries
    ([run_config_resolved]). *)

(** [v += x] under a condition. *)
Definition app_if (c : bool) (v x : string) : string :=
  if c then v ++ x else v.

Definition nhydro_variables (a : Args) : string :=
  if eos a =? "adiabatic" then "5" else "4".
Definition nfield_variables (a : Args) : string :=
  if b a then "3" else "0".
Definition nwave_value (a : Args) : string :=
  if b a then (if eos a =? "adiabatic" then "7" else "6")
  else (if eos a =? "adiabatic" then "5" else "4").

Definition eos_file_stem (a : Args) : string :=
  app_if (g a)
    (app_if (s a) (eos a ++ (if b a then "_mhd" else "_hydro")) "_sr") "_gr".

Definition rsolver_file_stem (a : Args) : string :=
  let mhd := app_if (b a && py_in (flux a) ["hlle"; "llf"; "roe"])
               (flux a) "_mhd" in
  let iso := app_if (b a && negb (eos a =? "adiabatic") && (flux a =? "hlld"))
               mhd "_iso" in
  let sr := app_if (s a) iso "_rel" in
  let gr := app_if (g a) sr "_rel" in
  app_if (g a && negb (t a)) gr "_no_transform".

Definition physics_definitions (a : Args) : dict :=
  [("PROBLEM", prob a);
   ("COORDINATE_SYSTEM", coord a);
   ("NON_BAROTROPIC_EOS", if eos a =? "adiabatic" then "1" else "0");
   ("NHYDRO_VARIABLES", nhydro_variables a);
   ("RSOLVER", flux a);
   ("RECONSTRUCT", order a);
   ("HYDRO_INTEGRATOR", fint a);
   ("MAGNETIC_FIELDS_ENABLED", if b a then "1" else "0");
   ("NFIELD_VARIABLES", nfield_variables a);
   ("NWAVE_VALUE", nwave_value a);
   ("RELATIVISTIC_DYNAMICS", if s a || g a then "1" else "0");
   ("GENERAL_RELATIVITY", if g a then "1" else "0");
   ("FRAME_TRANSFORMATIONS", if t a then "1" else "0");
   ("SHEARING_BOX", if sh a then "1" else "0")].

(** The file entries; [ext] adds the extension once Step 4 has run. *)
Definition file_options (ext : string -> string) (a : Args) : dict :=
  [("LOADER_FLAGS", "");
   ("PROBLEM_FILE", ext (prob a));
   ("COORDINATES_FILE", ext (coord a));
   ("EOS_FILE", ext (eos_file_stem a));
   ("RSOLVER_FILE", ext (rsolver_file_stem a));
   ("RECONSTRUCT_FILE", ext (order a));
   ("HYDRO_INT_FILE", ext (fint a));
   ("RSOLVER_DIR", if b a then "mhd/" else "hydro/")].

Definition no_extension (name : string) : string := name.
Definition cpp_extension (name : string) : string := name ++ ".cpp".

Definition compiler_choice (a : Args) : string :=
  if cxx a =? "bgxl" then "bgxlc++"
  else if cxx a =? "icc-phi" then "icc"
  else cxx a.

Definition base_command (a : Args) : string :=
  if cxx a =? "cray" then "CC" else compiler_choice a.

(** [COMPILER_COMMAND] before [--ccmd] is looked at. *)
Definition default_command (a : Args) : string :=
  app_if (omp a && (cxx a =? "bgxl"))
    (if mpi a then
       (if cxx a =? "cray" then "CC"
        else if cxx a =? "bgxl" then "mpixlcxx"
        else "mpicxx")
     else base_command a)
    "_r".

Definition compiler_command (a : Args) : string :=
  match ccmd a with
  | Some name => name
  | None => default_command a
  end.

Definition optimization_flags (a : Args) : string :=
  if cxx a =? "g++" then "-O3 -march=native -ffast-math"
  else if cxx a =? "icc" then "-O3 -xhost -ipo -inline-forceinline"
  else if cxx a =? "cray" then "-O3 -h aggress -h vector3 -hfp3"
  else if cxx a =? "bgxl" then bgxl_optimization_flags
  else "-O3 -xMIC-AVX512 -ipo -inline-forceinline".

Definition debug_flags (a : Args) : string :=
  if (cxx a =? "g++") || (cxx a =? "icc") then "-O0 -g"
  else if cxx a =? "cray" then "-O0"
  else if cxx a =? "bgxl" then "-O0 -g -qlanglvl=extended"
  else "-O0 -g -xMIC-AVX512".

Definition mpi_flags (a : Args) : string :=
  if mpi a && (cxx a =? "cray") then " -h mpi1" else "".

Definition omp_flags (a : Args) : string :=
  if omp a then
    (if cxx a =? "g++" then " -fopenmp"
     else if (cxx a =? "icc") || (cxx a =? "icc-phi") then " -openmp"
     else if cxx a =? "cray" then " -homp"
     else " -qsmp")
  else
    (if cxx a =? "cray" then " -hnoomp"
     else if (cxx a =? "icc") || (cxx a =? "icc-phi") then " -diag-disable 3180"
     else "").

(** [COMPILER_FLAGS] of the Makefile before the [--include] paths. *)
Definition compiler_flags_base (a : Args) : string :=
  (if debug a then debug_flags a else optimization_flags a)
  ++ mpi_flags a ++ omp_flags a.

Definition compiler_flags (a : Args) : string :=
  fold_left (fun flags include_path => flags ++ (" -I" ++ include_path))
            (include a) (compiler_flags_base a).

Definition hdf5_with_path (a : Args) : bool :=
  hdf5 a && negb (hdf5_path a =? "").

Definition bgxl_hdf5_includes : string :=
  " -D_LARGEFILE_SOURCE -D_LARGEFILE64_SOURCE -D_BSD_SOURCE"
  ++ " -I/soft/libraries/hdf5/1.10.0/cnk-xl/current/include"
  ++ " -I/bgsys/drivers/ppcfloor/comm/include".

Definition bgxl_hdf5_libdirs : string :=
  " -L/soft/libraries/hdf5/1.10.0/cnk-xl/current/lib"
  ++ " -L/soft/libraries/alcf/current/xl/ZLIB/lib".

Definition preprocessor_flags (a : Args) : string :=
  app_if (hdf5 a && (cxx a =? "bgxl"))
    (app_if (hdf5_with_path a) "" ("-I" ++ hdf5_path a ++ "/include"))
    bgxl_hdf5_includes.

Definition base_linker_flags (a : Args) : string :=
  if cxx a =? "cray" then "-hwp -hpl=obj/lib"
  else if cxx a =? "bgxl" then bgxl_optimization_flags
  else "".

(** [LINKER_FLAGS] before the [--lib] paths. *)
Definition linker_flags_base (a : Args) : string :=
  app_if (hdf5 a && (cxx a =? "bgxl"))
    (app_if (hdf5_with_path a) (base_linker_flags a)
       ("-L" ++ hdf5_path a ++ "/lib"))
    bgxl_hdf5_libdirs.

Definition linker_flags (a : Args) : string :=
  fold_left (fun flags library_path => flags ++ (" -L" ++ library_path))
            (lib a) (linker_flags_base a).

Definition base_library_flags (a : Args) : string :=
  if cxx a =? "cray" then "-lm" else "".

Definition library_flags (a : Args) : string :=
  app_if (hdf5 a) (base_library_flags a)
    (if cxx a =? "bgxl" then " -lhdf5 -lz -lm" else " -lhdf5").

Definition parallel_definitions (command : string) (a : Args) : dict :=
  [("COMPILER_CHOICE", compiler_choice a);
   ("COMPILER_COMMAND", command);
   ("DEBUG", if debug a then "DEBUG" else "NOT_DEBUG");
   ("MPI_OPTION", if mpi a then "MPI_PARALLEL" else "NOT_MPI_PARALLEL");
   ("OPENMP_OPTION", if omp a then "OPENMP_PARALLEL" else "NOT_OPENMP_PARALLEL")].

Definition toolchain_definitions (a : Args) : dict :=
  (parallel_definitions (compiler_command a) a
   ++ [("HDF5_OPTION", if hdf5 a then "HDF5OUTPUT" else "NO_HDF5OUTPUT")])%list.

Definition toolchain_options
    (command preprocessor compiler linker library : string) : dict :=
  [("COMPILER_COMMAND", command);
   ("PREPROCESSOR_FLAGS", preprocessor);
   ("COMPILER_FLAGS", compiler);
   ("LINKER_FLAGS", linker);
   ("LIBRARY_FLAGS", library)].

(** [definitions['COMPILER_FLAGS']] *)
Definition all_flags (a : Args) : string :=
  String.concat " "
    [preprocessor_flags a; compiler_flags a; linker_flags a; library_flags a].

(** The dictionaries after the physics options (up to [-sh]), after the
    compiler and parallelism options (up to [-omp]), after [-hdf5] and
    [--ccmd], at the end of Step 3, and with the file names terminated. *)
Definition after_physics (a : Args) : Config :=
  {| definitions := physics_definitions a;
     makefile_options := file_options no_extension a |}.

Definition after_parallel (a : Args) : Config :=
  {| definitions :=
       (physics_definitions a ++ parallel_definitions (default_command a) a)%list;
     makefile_options :=
       (file_options no_extension a
        ++ toolchain_options (default_command a) "" (compiler_flags_base a)
             (base_linker_flags a) (base_library_flags a))%list |}.

Definition after_toolchain (a : Args) : Config :=
  {| definitions := (physics_definitions a ++ toolchain_definitions a)%list;
     makefile_options :=
       (file_options no_extension a
        ++ toolchain_options (compiler_command a) (preprocessor_flags a)
             (compiler_flags_base a) (linker_flags_base a)
             (library_flags a))%list |}.

Definition after_step3 (a : Args) : Config :=
  {| definitions :=
       (physics_definitions a ++ toolchain_definitions a
        ++ [("COMPILER_FLAGS", all_flags a)])%list;
     makefile_options :=
       (file_options no_extension a
        ++ toolchain_options (compiler_command a) (preprocessor_flags a)
             (compiler_flags a) (linker_flags a) (library_flags a))%list |}.

Definition resolved (a : Args) : Config :=
  {| definitions :=
       (physics_definitions a ++ toolchain_definitions a
        ++ [("COMPILER_FLAGS", all_flags a)])%list;
     makefile_options :=
       (file_options cpp_extension a
        ++ toolchain_options (compiler_command a) (preprocessor_flags a)
             (compiler_flags a) (linker_flags a) (library_flags a))%list |}.

(** The options whose values the statements of Step 3 branch on, after
    the default flux has been chosen. *)
Definition enumerated (a : Args) : Prop :=
  In (eos a) eos_choices /\
  In (flux a) ["hlle"; "hllc"; "hlld"; "roe"; "llf"] /\
  In (cxx a) cxx_choices.

(** The position of a rule in the list of section 4.2. *)
Definition rule_number (r : rule) : nat :=
  match r with
  | R1 => 1 | R2 => 2 | R3 => 3 | R4 => 4 | R5 => 5
  | R6 => 6 | R7 => 7 | R8 => 8 | R9 => 9
  end.

(** A validated option set: parsed, and accepted by Step 2. *)
Definition validated (a : Args) : Prop :=
  valid_args a /\ check_compatibility (set_default_flux a) = OK tt.

(** [pat in text] *)
Fixpoint occurs (pat text : string) : bool :=
  match text with
  | EmptyString => String.prefix pat text
  | String _ rest => String.prefix pat text || occurs pat rest
  end.

(** The command line of the regression test [gr/compile_schwarzschild]:
    [configure('gtb', prob='gr_bondi', coord='schwarzschild', flux='hlle')]. *)
Definition schwarzschild_args : Args :=
  {| prob := "gr_bondi"; coord := "schwarzschild"; eos := "adiabatic";
     flux := "hlle"; order := "plm"; fint := "vl2";
     b := true; s := false; g := true; t := true; sh := false;
     debug := false; mpi := false; omp := false; hdf5 := false;
     hdf5_path := ""; cxx := "g++"; ccmd := None;
     include := []; lib := [] |}.

(** Magnetic fields on, everything else as by default: the first
    end-to-end scenario of the specification. *)
Definition mhd_args : Args :=
  {| prob := "shock_tube"; coord := "cartesian"; eos := "adiabatic";
     flux := "default"; order := "plm"; fint := "vl2";
     b := true; s := false; g := false; t := false; sh := false;
     debug := false; mpi := false; omp := false; hdf5 := false;
     hdf5_path := ""; cxx := "g++"; ccmd := None;
     include := []; lib := [] |}.

(** A Cray build with HDF5 under [/opt/hdf5] and one [--lib] path. *)
Definition cray_hdf5_lib_args : Args :=
  {| prob := "shock_tube"; coord := "cartesian"; eos := "adiabatic";
     flux := "default"; order := "plm"; fint := "vl2";
     b := false; s := false; g := false; t := false; sh := false;
     debug := false; mpi := false; omp := false; hdf5 := true;
     hdf5_path := "/opt/hdf5"; cxx := "cray"; ccmd := None;
     include := []; lib := ["/usr/lib64"] |}.

(** A debug build for the Xeon Phi with MPI and OpenMP. *)
Definition phi_debug_args : Args :=
  {| prob := "shock_tube"; coord := "cartesian"; eos := "adiabatic";
     flux := "default"; order := "plm"; fint := "vl2";
     b := false; s := false; g := false; t := false; sh := false;
     debug := true; mpi := true; omp := true; hdf5 := false;
     hdf5_path := ""; cxx := "icc-phi"; ccmd := None;
     include := []; lib := [] |}.

(** A Makefile template: two placeholders side by side, one that is no
    key, and an [@] in a comment. *)
Definition sample_makefile_template : list piece :=
  [Lit "CXX := "; Hole "COMPILER_COMMAND";
   Lit " "; Hole "COMPILER_FLAGS";
   Lit " RSOLVER := "; Hole "RSOLVER_DIR"; Hole "RSOLVER_FILE";
   Lit " # "; Hole "NOT_A_KEY"; Lit " user@host"].

(** A file system with two problem generators and the two templates. *)
Definition sample_world : World :=
  {| files :=
       [("src/pgen/shock_tube.cpp", "// shock tube");
        ("src/pgen/linear_wave.cpp", "// linear wave");
        ("src/defs.hpp.in",
         "#define PROBLEM_GENERATOR @PROBLEM@ NWAVE @NWAVE_VALUE@ @DEBUG@");
        ("Makefile.in",
         "CXX := @COMPILER_COMMAND@ RSOLVER := @RSOLVER_DIR@@RSOLVER_FILE@")];
     directories := [];
     write_protected := [];
     opened_for_writing := [];
     stdout := [] |}.

(** [configure.py -b --prob=linear_wave --coord=cartesian --flux=hlld],
    after the regression test [omp/omp_linwave]. *)
Definition linear_wave_command_line : CommandLine :=
  [Bare "-b"; Valued "--prob" "linear_wave"; Valued "--coord" "cartesian";
   Valued "--flux" "hlld"].

(* ================================================================== *)
(** * Further definitions for the properties of the code *)

(** The names every resolved configuration defines, in insertion order. *)
Definition definition_names : list string :=
  ["PROBLEM"; "COORDINATE_SYSTEM"; "NON_BAROTROPIC_EOS"; "NHYDRO_VARIABLES";
   "RSOLVER"; "RECONSTRUCT"; "HYDRO_INTEGRATOR"; "MAGNETIC_FIELDS_ENABLED";
   "NFIELD_VARIABLES"; "NWAVE_VALUE"; "RELATIVISTIC_DYNAMICS";
   "GENERAL_RELATIVITY"; "FRAME_TRANSFORMATIONS"; "SHEARING_BOX";
   "COMPILER_CHOICE"; "COMPILER_COMMAND"; "DEBUG"; "MPI_OPTION";
   "OPENMP_OPTION"; "HDF5_OPTION"; "COMPILER_FLAGS"].

Definition makefile_option_names : list string :=
  ["LOADER_FLAGS"; "PROBLEM_FILE"; "COORDINATES_FILE"; "EOS_FILE";
   "RSOLVER_FILE"; "RECONSTRUCT_FILE"; "HYDRO_INT_FILE"; "RSOLVER_DIR";
   "COMPILER_COMMAND"; "PREPROCESSOR_FLAGS"; "COMPILER_FLAGS";
   "LINKER_FLAGS"; "LIBRARY_FLAGS"].

(** [args['hdf5_path'] = p] *)
Definition with_hdf5_path (a : Args) (p : string) : Args :=
  {| prob := prob a; coord := coord a; eos := eos a; flux := flux a;
     order := order a; fint := fint a;
     b := b a; s := s a; g := g a; t := t a; sh := sh a;
     debug := debug a; mpi := mpi a; omp := omp a; hdf5 := hdf5 a;
     hdf5_path := p; cxx := cxx a; ccmd := ccmd a;
     include := include a; lib := lib a |}.

(** An MPI and OpenMP build for Blue Gene, with two include paths. *)
Definition bgxl_parallel_args : Args :=
  {| prob := "shock_tube"; coord := "cartesian"; eos := "adiabatic";
     flux := "default"; order := "plm"; fint := "vl2";
     b := false; s := false; g := false; t := false; sh := false;
     debug := true; mpi := true; omp := true; hdf5 := false;
     hdf5_path := "/ignored"; cxx := "bgxl"; ccmd := None;
     include := ["/opt/a"; "/opt/b"]; lib := [] |}.

(** A debug build for Blue Gene with HDF5. *)
Definition bgxl_debug_args : Args :=
  {| prob := "shock_tube"; coord := "cartesian"; eos := "adiabatic";
     flux := "default"; order := "plm"; fint := "vl2";
     b := false; s := false; g := false; t := false; sh := false;
     debug := true; mpi := false; omp := false; hdf5 := true;
     hdf5_path := "/opt/hdf5"; cxx := "bgxl"; ccmd := None;
     include := []; lib := [] |}.

(** The lines of the diagnostic output, for resolved options. *)
Definition report_lines (a : Args) : list string :=
  ["Your Athena++ distribution has now been configured with the following options:";
   "  Problem generator:       " ++ prob a;
   "  Coordinate system:       " ++ coord a;
   "  Equation of state:       " ++ eos a;
   "  Riemann solver:          " ++ flux a;
   "  Reconstruction method:   " ++ order a;
   "  Hydro integrator:        " ++ fint a;
   "  Magnetic fields:         " ++ on_off (b a);
   "  Special relativity:      " ++ on_off (s a);
   "  General relativity:      " ++ on_off (g a);
   "  Frame transformations:   " ++ on_off (t a);
   "  ShearingBox:             " ++ on_off (sh a);
   "  Debug flags:             " ++ on_off (debug a);
   "  Linker flags:            " ++ linker_flags a ++ " " ++ library_flags a;
   "  MPI parallelism:         " ++ on_off (mpi a);
   "  OpenMP parallelism:      " ++ on_off (omp a);
   "  HDF5 output:             " ++ on_off (hdf5 a);
   "  Compiler:                " ++ cxx a;
   "  Compilation command:     " ++ compiler_command a ++ " "
     ++ preprocessor_flags a ++ " " ++ compiler_flags a].

(** [sample_world] without the build-recipe template. *)
Definition world_without_makefile_template : World :=
  {| files :=
       [("src/pgen/shock_tube.cpp", "// shock tube");
        ("src/defs.hpp.in", "#define NWAVE @NWAVE_VALUE@")];
     directories := [];
     write_protected := [];
     opened_for_writing := [];
     stdout := [] |}.

(** [sample_world] with a directory where the Makefile is to go. *)
Definition world_with_makefile_directory : World :=
  {| files := files sample_world;
     directories := ["Makefile"];
     write_protected := [];
     opened_for_writing := [];
     stdout := [] |}.

(** A command line with no argument at all. *)
Definition empty_command_line : CommandLine := [].

(** The command line [--ccmd=C:\mingw\bin\g++]. *)
Definition windows_ccmd_command_line : CommandLine :=
  [Valued "--ccmd" "C:\mingw\bin\g++"].

(** The namespace after one argument, when the argument is accepted. *)
Definition apply_argument (a : Args) (arg : argument) : Args :=
  match arg with
  | Valued name value => store a name value
  | Bare name => store_true a name
  | _ => a
  end.

(** The value an option is given last on the command line. *)
Fixpoint last_value (name : string) (argv : CommandLine) : option string :=
  match argv with
  | [] => None
  | arg :: argv' =>
      match last_value name argv' with
      | Some value => Some value
      | None =>
          match arg with
          | Valued name' value => if name' =? name then Some value else None
          | _ => None
          end
      end
  end.

(** All the values an option is given, in order. *)
Fixpoint all_values (name : string) (argv : CommandLine) : list string :=
  match argv with
  | [] => []
  | Valued name' value :: argv' =>
      if name' =? name then value :: all_values name argv'
      else all_values name argv'
  | _ :: argv' => all_values name argv'
  end.

(** Whether a switch is on the command line. *)
Definition switched_on (name : string) (argv : CommandLine) : bool :=
  existsb (fun arg => match arg with
                      | Bare name' => name' =? name
                      | _ => false
                      end) argv.

Definition value_or (default : string) (given : option string) : string :=
  match given with
  | Some value => value
  | None => default
  end.
(* ================================================================== *)
(** * Properties *)

(** Split the membership hypotheses of the enumerated options into their
    cases. *)
Ltac enumerate_choices :=
  repeat match goal with
         | H : In _ _ |- _ => cbn in H
         | H : _ \/ _ |- _ => destruct H as [H|H]
         | H : False |- _ => contradiction
         end;
  subst.

(** ** Step 2 *)

Lemma check_first_violated (a : Args) :
  check_compatibility a =
  match first_violated a with
  | Some r => Raise (SystemExit (rule_message r a))
  | None => OK tt
  end.
Proof.
  unfold check_compatibility, first_violated, rules_in_order.
  cbn [find violates].
  repeat (match goal with
          | |- context [if ?c then Raise _ else _] => destruct c
          end; cbn [rule_message]; try reflexivity).
Qed.

Lemma first_violated_earliest (a : Args) (r : rule) :
  first_violated a = Some r ->
  violates r a = true /\
  forall r', (rule_number r' < rule_number r)%nat -> violates r' a = false.
Proof.
  unfold first_violated, rules_in_order. cbn [find].
  repeat match goal with
         | |- (if violates ?x a then _ else _) = _ -> _ =>
             let E := fresh "E" in
             destruct (violates x a) eqn:E;
             [ intros H; inversion H; subst r; split; [exact E|];
               intros r' Hlt; destruct r'; cbn [rule_number] in Hlt;
               solve [lia | assumption]
             | ]
         end.
  discriminate.
Qed.

Lemma first_violated_none (a : Args) :
  first_violated a = None -> forall r, violates r a = false.
Proof.
  intros H r. apply (find_none _ _ H).
  unfold rules_in_order. destruct r; cbn; tauto.
Qed.

Lemma check_ok_no_violation (a : Args) :
  check_compatibility a = OK tt -> forall r, violates r a = false.
Proof.
  rewrite check_first_violated.
  destruct (first_violated a) eqn:E; [discriminate|].
  intros _. now apply first_violated_none.
Qed.

Lemma no_violation_check_ok (a : Args) :
  (forall r, violates r a = false) -> check_compatibility a = OK tt.
Proof.
  intros H. rewrite check_first_violated.
  destruct (first_violated a) as [r|] eqn:E; [|reflexivity].
  apply first_violated_earliest in E. destruct E as [E _].
  rewrite H in E. discriminate.
Qed.

Lemma step2_first_violated (a : Args) :
  step2 a =
  match first_violated (set_default_flux a) with
  | Some r => Raise (SystemExit (rule_message r (set_default_flux a)))
  | None => OK (set_default_flux a)
  end.
Proof.
  unfold step2. rewrite check_first_violated.
  now destruct (first_violated (set_default_flux a)).
Qed.

Lemma set_default_flux_valid (a : Args) :
  valid_args a -> valid_args (set_default_flux a).
Proof.
  intros Hv. unfold set_default_flux.
  destruct (flux a =? "default"); [|exact Hv].
  destruct Hv as (H1 & H2 & H3 & H4 & H5 & H6).
  destruct (g a), (b a), (eos a =? "isothermal");
    (repeat split; try assumption; cbn; tauto).
Qed.

Lemma rule_message_injective (a a' : Args) (r r' : rule) :
  valid_args a -> valid_args a' ->
  rule_message r a = rule_message r' a' -> r = r'.
Proof.
  intros (Hc & _ & Hf & _) (Hc' & _ & Hf' & _).
  destruct a as [? vcoord ? vflux ? ? ? ? ? ? ? ? ? ? ? ? ? ? ? ?].
  destruct a' as [? vcoord' ? vflux' ? ? ? ? ? ? ? ? ? ? ? ? ? ? ? ?].
  cbn [flux coord] in Hc, Hf, Hc', Hf'.
  destruct r, r'; try reflexivity; cbn [rule_message flux coord];
    intros H; exfalso; apply String.eqb_eq in H;
    (* only the options a message mentions are split into their cases *)
    try (lazymatch type of H with context [vflux] => fail | _ => clear Hf end);
    try (lazymatch type of H with context [vcoord] => fail | _ => clear Hc end);
    try (lazymatch type of H with context [vflux'] => fail | _ => clear Hf' end);
    try (lazymatch type of H with context [vcoord'] => fail | _ => clear Hc' end);
    enumerate_choices; vm_compute in H; discriminate.
Qed.

(** ** Dictionaries *)

Lemma dict_get_set_eq (d : dict) (k v : string) :
  dict_get (dict_set d k v) k = Some v.
Proof.
  induction d as [|[k' v'] d IH]; cbn.
  - now rewrite String.eqb_refl.
  - destruct (k' =? k) eqn:E; cbn; rewrite E; auto.
Qed.

Lemma dict_get_set_ne (d : dict) (k k' v : string) :
  k <> k' -> dict_get (dict_set d k v) k' = dict_get d k'.
Proof.
  intros Hne. induction d as [|[k0 v0] d IH]; cbn.
  - apply String.eqb_neq in Hne. now rewrite Hne.
  - destruct (k0 =? k) eqn:E; cbn.
    + apply String.eqb_eq in E. subst k0.
      apply String.eqb_neq in Hne. now rewrite Hne.
    + now rewrite IH.
Qed.

Lemma dict_set_same (d : dict) (k v : string) :
  dict_get d k = Some v -> dict_set d k v = d.
Proof.
  induction d as [|[k' v'] d IH]; cbn; [discriminate|].
  destruct (k' =? k); intros H.
  - now inversion H.
  - now rewrite IH.
Qed.

Lemma dict_set_set (d : dict) (k v v' : string) :
  dict_set (dict_set d k v) k v' = dict_set d k v'.
Proof.
  induction d as [|[k0 v0] d IH]; cbn.
  - now rewrite String.eqb_refl.
  - destruct (k0 =? k) eqn:E; cbn; rewrite E; [reflexivity|now rewrite IH].
Qed.

(** ** The statements of Step 3 build the closed form *)

Lemma for_each_mk_iadd (k : string) (f : string -> string) (l : list string) :
  forall (c : Config) (v : string),
    dict_get (makefile_options c) k = Some v ->
    for_each l (fun x => mk_iadd k (f x)) c =
    OK (tt, {| definitions := definitions c;
               makefile_options :=
                 dict_set (makefile_options c) k
                   (fold_left (fun acc x => acc ++ f x) l v) |}).
Proof.
  induction l as [|x l IH]; intros c v Hget; cbn [for_each fold_left].
  - unfold skip, ret. rewrite (dict_set_same _ _ _ Hget). now destruct c.
  - unfold bind at 1. unfold mk_iadd at 1, bind, mk_get, mk_set.
    rewrite Hget.
    rewrite (IH _ (v ++ f x)) by (cbn; apply dict_get_set_eq).
    cbn. now rewrite dict_set_set.
Qed.

Lemma physics_steps (a : Args) (k : M unit) :
  In (eos a) eos_choices ->
  In (flux a) ["hlle"; "hllc"; "hlld"; "roe"; "llf"] ->
  (init_dicts ;;
   set_prob a ;; set_coord a ;; set_eos a ;; set_flux a ;; set_order a ;;
   set_fint a ;; set_b a ;; set_relativity a ;; set_sh a ;; k) empty_config
  = k (after_physics a).
Proof.
  destruct a as [vprob vcoord veos vflux vorder vfint vb vs vg vt vsh
                 vdebug vmpi vomp vhdf5 vpath vcxx vccmd vinclude vlib].
  cbn [eos flux]. intros He Hf. enumerate_choices;
    destruct vb, vs, vg, vt, vsh; vm_compute; reflexivity.
Qed.

Lemma parallel_steps (a : Args) (k : M unit) :
  In (cxx a) cxx_choices ->
  (set_cxx a ;; set_debug a ;; set_mpi a ;; set_omp a ;; k) (after_physics a)
  = k (after_parallel a).
Proof.
  destruct a as [vprob vcoord veos vflux vorder vfint vb vs vg vt vsh
                 vdebug vmpi vomp vhdf5 vpath vcxx vccmd vinclude vlib].
  cbn [cxx]. intros Hc. enumerate_choices;
    destruct vdebug, vmpi, vomp; vm_compute; reflexivity.
Qed.

Lemma toolchain_steps (a : Args) (k : M unit) :
  In (cxx a) cxx_choices ->
  (set_hdf5 a ;; set_ccmd a ;; k) (after_parallel a) = k (after_toolchain a).
Proof.
  destruct a as [vprob vcoord veos vflux vorder vfint vb vs vg vt vsh
                 vdebug vmpi vomp vhdf5 vpath vcxx vccmd vinclude vlib].
  cbn [cxx]. intros Hc. enumerate_choices;
    destruct vhdf5, vpath, vccmd; vm_compute; reflexivity.
Qed.

Lemma flags_steps (a : Args) :
  (set_include a ;; set_lib a ;; assemble_flags) (after_toolchain a)
  = OK (tt, after_step3 a).
Proof.
  unfold set_include, set_lib.
  unfold bind at 1.
  rewrite (for_each_mk_iadd "COMPILER_FLAGS" (fun x => " -I" ++ x) _ _
             (compiler_flags_base a)) by reflexivity.
  unfold bind at 1.
  rewrite (for_each_mk_iadd "LINKER_FLAGS" (fun x => " -L" ++ x) _ _
             (linker_flags_base a)) by reflexivity.
  reflexivity.
Qed.

Lemma terminate_filenames_resolved (a : Args) :
  terminate_filenames (after_step3 a) = OK (tt, resolved a).
Proof. reflexivity. Qed.

Lemma step3_after_step3 (a : Args) :
  enumerated a -> step3 a empty_config = OK (tt, after_step3 a).
Proof.
  intros (He & Hf & Hc). unfold step3.
  rewrite physics_steps by assumption.
  rewrite parallel_steps by assumption.
  rewrite toolchain_steps by assumption.
  apply flags_steps.
Qed.

(** On the enumerated options Step 3 and the file-name termination never
    raise, and they build the closed form. *)
Lemma run_config_resolved (a : Args) :
  enumerated a ->
  run_config (step3 a ;; terminate_filenames) = OK (resolved a).
Proof.
  intros H. unfold run_config, bind.
  rewrite (step3_after_step3 a H), terminate_filenames_resolved.
  reflexivity.
Qed.

Lemma set_default_flux_enumerated (a : Args) :
  valid_args a -> enumerated (set_default_flux a).
Proof.
  intros (_ & He & Hf & _ & _ & Hc). unfold enumerated, set_default_flux.
  destruct (flux a =? "default") eqn:E.
  - destruct (g a), (b a), (eos a =? "isothermal"); cbn; intuition.
  - repeat split; try assumption.
    cbn in Hf. destruct Hf as [Hf|Hf].
    + rewrite <- Hf in E. discriminate.
    + exact Hf.
Qed.

(** Every valid option set that passes the compatibility tests is
    resolved, and to the closed form. *)
Lemma configure_resolved (a : Args) :
  valid_args a ->
  check_compatibility (set_default_flux a) = OK tt ->
  configure a = OK (resolved (set_default_flux a)).
Proof.
  intros Hv Hc. unfold configure, step2. rewrite Hc. cbn [rbind].
  apply run_config_resolved, set_default_flux_enumerated, Hv.
Qed.

Lemma configure_inv (a : Args) (c : Config) :
  valid_args a -> configure a = OK c ->
  check_compatibility (set_default_flux a) = OK tt /\
  c = resolved (set_default_flux a).
Proof.
  intros Hv H. unfold configure, step2 in H.
  destruct (check_compatibility (set_default_flux a)) as [[]|e] eqn:Hc;
    cbn [rbind] in H; [|discriminate].
  split; [reflexivity|].
  rewrite run_config_resolved in H
    by (apply set_default_flux_enumerated, Hv).
  now inversion H.
Qed.

Lemma set_default_flux_shape (a : Args) :
  exists f, set_default_flux a = with_flux a f.
Proof.
  unfold set_default_flux.
  destruct (flux a =? "default"), (g a), (b a), (eos a =? "isothermal");
    try (eexists; reflexivity);
    exists (flux a); now destruct a.
Qed.

Lemma validated_resolved (a : Args) :
  validated a -> configure a = OK (resolved (set_default_flux a)).
Proof. intros [Hv Hc]. now apply configure_resolved. Qed.

(** ** Strings *)

Lemma append_nil_r (x : string) : x ++ "" = x.
Proof. induction x as [|c x IH]; cbn; [reflexivity|now rewrite IH]. Qed.

Lemma append_assoc (x y z : string) : (x ++ y) ++ z = x ++ (y ++ z).
Proof. induction x as [|c x IH]; cbn; [reflexivity|now rewrite IH]. Qed.

Lemma fold_left_append (f : string -> string) (l : list string) (v : string) :
  fold_left (fun acc x => acc ++ f x) l v = v ++ String.concat "" (map f l).
Proof.
  revert v. induction l as [|x l IH]; intros v; cbn [fold_left map].
  - cbn. now rewrite append_nil_r.
  - rewrite IH, append_assoc. f_equal.
    destruct l as [|y l]; cbn; [now rewrite append_nil_r|reflexivity].
Qed.

(** ** Parsing *)

Lemma py_in_In (x : string) (xs : list string) :
  py_in x xs = true -> In x xs.
Proof.
  unfold py_in. intros H. apply existsb_exists in H.
  destruct H as (y & Hy & E). apply String.eqb_eq in E. now subst.
Qed.

Lemma default_args_valid : valid_args default_args.
Proof. unfold valid_args. cbn. tauto. Qed.

Lemma consume_valid (pgen : list string) (a a' : Args)
    (extras extras' : list string) (arg : argument) :
  valid_args a ->
  consume pgen (a, extras) arg = OK (a', extras') ->
  valid_args a'.
Proof.
  intros Hv. unfold consume.
  destruct arg as [name value|name|text|text].
  - destruct (py_in name value_options).
    + unfold choices_of, store.
      repeat match goal with
      | |- context [name =? ?x] => destruct (name =? x); cbv iota
      end;
      try match goal with
      | |- context [py_in value ?choices] =>
          let E := fresh "E" in
          destruct (py_in value choices) eqn:E; [apply py_in_In in E|discriminate]
      end;
      intros H; injection H as <- _;
      unfold valid_args in *; cbn [coord eos flux order fint cxx];
      tauto.
    + destruct (py_in name switches || py_in name help_options);
        [discriminate|].
      intros H. injection H as <- _. exact Hv.
  - destruct (py_in name switches).
    + unfold store_true.
      repeat match goal with
      | |- context [name =? ?x] => destruct (name =? x); cbv iota
      end;
      intros H; injection H as <- _;
      unfold valid_args in *; cbn [coord eos flux order fint cxx];
      tauto.
    + destruct (py_in name help_options); [discriminate|].
      destruct (py_in name value_options); [discriminate|].
      intros H. injection H as <- _. exact Hv.
  - discriminate.
  - intros H. injection H as <- _. exact Hv.
Qed.

Lemma consume_all_valid (pgen : list string) (argv : CommandLine) :
  forall (a a' : Args) (extras extras' : list string),
    valid_args a ->
    consume_all pgen (a, extras) argv = OK (a', extras') ->
    valid_args a'.
Proof.
  induction argv as [|arg argv IH]; intros a a' extras extras' Hv H.
  - injection H as <- _. exact Hv.
  - cbn [consume_all] in H.
    destruct (consume pgen (a, extras) arg) as [[a1 extras1]|e] eqn:E;
      [|discriminate H].
    cbn [rbind] in H.
    exact (IH _ _ _ _ (consume_valid _ _ _ _ _ _ Hv E) H).
Qed.

Lemma parse_args_valid (choices : list string) (cl : CommandLine) (a : Args) :
  parse_args choices cl = OK a -> valid_args a.
Proof.
  unfold parse_args. destruct (first_ambiguous cl); [discriminate|].
  destruct (consume_all choices (default_args, []) cl)
    as [[a1 extras]|e] eqn:E; [|discriminate].
  cbn [rbind fst snd]. destruct extras; [|discriminate].
  intros H. injection H as <-.
  exact (consume_all_valid _ _ _ _ _ _ default_args_valid E).
Qed.

(** ** The closed form, entry by entry *)

Lemma resolved_preprocessor_flags (a : Args) :
  dict_get (makefile_options (resolved a)) "PREPROCESSOR_FLAGS"
  = Some (preprocessor_flags a).
Proof. reflexivity. Qed.

Lemma resolved_linker_flags (a : Args) :
  dict_get (makefile_options (resolved a)) "LINKER_FLAGS"
  = Some (linker_flags a).
Proof. reflexivity. Qed.

(** ** The run *)

Lemma dict_keys_set (d : dict) (k v : string) :
  dict_keys (dict_set d k v) =
  match dict_get d k with
  | Some _ => dict_keys d
  | None => (dict_keys d ++ [k])%list
  end.
Proof.
  induction d as [|[k' v'] d IH]; cbn; [reflexivity|].
  destruct (k' =? k) eqn:E; cbn; [reflexivity|].
  unfold dict_keys in IH. rewrite IH.
  now destruct (dict_get d k).
Qed.

(** The report prints the nineteen lines. *)
Lemma report_resolved_lines (a : Args) (w : World) :
  report a (resolved a) w = (OK tt, printed w (report_lines a)).
Proof.
  destruct w as [fs ds wp ow out]. unfold report, lookup.
  rewrite resolved_linker_flags, resolved_preprocessor_flags.
  change (dict_get (makefile_options (resolved a)) "LIBRARY_FLAGS")
    with (Some (library_flags a)).
  change (dict_get (makefile_options (resolved a)) "COMPILER_COMMAND")
    with (Some (compiler_command a)).
  change (dict_get (makefile_options (resolved a)) "COMPILER_FLAGS")
    with (Some (compiler_flags a)).
  unfold print, printed.
  cbn [wbind lift files directories write_protected opened_for_writing stdout].
  unfold report_lines. repeat rewrite <- app_assoc. reflexivity.
Qed.

Lemma main_parse_error (cl : CommandLine) (w : World) (e : exn) :
  parse_args (pgen_choices w) cl = Raise e -> main cl w = (Raise e, w).
Proof.
  intros Ep. unfold main, wbind, lift, list_problem_generators.
  now rewrite Ep.
Qed.

Lemma main_step2_error (cl : CommandLine) (w : World) (a : Args) (e : exn) :
  parse_args (pgen_choices w) cl = OK a ->
  check_compatibility (set_default_flux a) = Raise e ->
  main cl w = (Raise e, w).
Proof.
  intros Ep Ek. unfold main, wbind, lift, list_problem_generators.
  rewrite Ep. unfold step2. now rewrite Ek.
Qed.

(** The run of a parsed and accepted command line, from the templates
    on. *)
Lemma main_after_step3 (cl : CommandLine) (w : World) (a : Args) :
  parse_args (pgen_choices w) cl = OK a ->
  check_compatibility (set_default_flux a) = OK tt ->
  main cl w =
  wbind (read_file defsfile_input) (fun defsfile_template =>
  wbind (read_file makefile_input) (fun makefile_template =>
  wbind (lift (substitute (definitions (resolved (set_default_flux a)))
                 defsfile_template)) (fun defsfile_text =>
  wbind (lift (substitute (makefile_options (resolved (set_default_flux a)))
                 makefile_template)) (fun makefile_text =>
  wbind (write_file defsfile_output defsfile_text) (fun _ =>
  wbind (write_file makefile_output makefile_text) (fun _ =>
  report (set_default_flux a) (resolved (set_default_flux a)))))))) w.
Proof.
  intros Hp Hc. unfold main.
  unfold wbind at 1. unfold list_problem_generators.
  unfold wbind at 1. unfold lift at 1. rewrite Hp.
  unfold wbind at 1. unfold lift at 1. unfold step2. rewrite Hc.
  cbn [rbind].
  unfold wbind at 1. unfold lift at 1.
  rewrite run_config_resolved
    by (apply set_default_flux_enumerated, (parse_args_valid _ _ _ Hp)).
  reflexivity.
Qed.

(** Writing a file makes no other path a directory. *)
Lemma is_directory_written (w : World) (path text other : string) :
  String.prefix (other ++ "/") path = false ->
  is_directory (written w path text) other = is_directory w other.
Proof.
  intros Hp. unfold is_directory, written, paths.
  cbn [files directories]. f_equal. rewrite dict_keys_set.
  destruct (dict_get (files w) path); [reflexivity|].
  rewrite !existsb_app. cbn [existsb]. rewrite Hp. cbn [orb].
  now rewrite orb_false_r.
Qed.

Lemma can_open_written (w : World) (path text other : string) :
  String.prefix (other ++ "/") path = false ->
  can_open_for_writing (written w path text) other
  = can_open_for_writing w other.
Proof.
  intros Hp. unfold can_open_for_writing.
  now rewrite (is_directory_written _ _ _ _ Hp).
Qed.

(** The whole run of a parsed and accepted command line. *)
Lemma main_outcome (cl : CommandLine) (w : World) (a : Args) :
  parse_args (pgen_choices w) cl = OK a ->
  check_compatibility (set_default_flux a) = OK tt ->
  main cl w =
  match dict_get (files w) defsfile_input with
  | None => (Raise (IOError defsfile_input), w)
  | Some dt =>
    match dict_get (files w) makefile_input with
    | None => (Raise (IOError makefile_input), w)
    | Some mt =>
      match substitute (definitions (resolved (set_default_flux a))) dt with
      | Raise e => (Raise e, w)
      | OK dout =>
        match substitute (makefile_options (resolved (set_default_flux a))) mt with
        | Raise e => (Raise e, w)
        | OK mout =>
          if can_open_for_writing w defsfile_output then
            if can_open_for_writing w makefile_output then
              (OK tt,
               printed (written (written w defsfile_output dout)
                                makefile_output mout)
                       (report_lines (set_default_flux a)))
            else (Raise (IOError makefile_output),
                  written w defsfile_output dout)
          else (Raise (IOError defsfile_output), w)
        end
      end
    end
  end.
Proof.
  intros Ep Ek. rewrite (main_after_step3 cl w a Ep Ek).
  unfold wbind at 1. unfold read_file at 1.
  destruct (dict_get (files w) defsfile_input) as [dt|]; [|reflexivity].
  unfold wbind at 1. unfold read_file at 1.
  destruct (dict_get (files w) makefile_input) as [mt|]; [|reflexivity].
  unfold wbind at 1. unfold lift at 1.
  destruct (substitute (definitions (resolved (set_default_flux a))) dt)
    as [dout|e]; [|reflexivity].
  unfold wbind at 1. unfold lift at 1.
  destruct (substitute (makefile_options (resolved (set_default_flux a))) mt)
    as [mout|e]; [|reflexivity].
  unfold wbind at 1. unfold write_file at 1.
  destruct (can_open_for_writing w defsfile_output); [|reflexivity].
  unfold wbind at 1. unfold write_file at 1.
  rewrite can_open_written by reflexivity.
  destruct (can_open_for_writing w makefile_output); [|reflexivity].
  apply report_resolved_lines.
Qed.

(** What a completed run has gone through. *)
Lemma main_completed (cl : CommandLine) (w w' : World) (a : Args) :
  parse_args (pgen_choices w) cl = OK a ->
  main cl w = (OK tt, w') ->
  check_compatibility (set_default_flux a) = OK tt /\
  exists dt mt dout mout,
    dict_get (files w) defsfile_input = Some dt /\
    dict_get (files w) makefile_input = Some mt /\
    substitute (definitions (resolved (set_default_flux a))) dt = OK dout /\
    substitute (makefile_options (resolved (set_default_flux a))) mt
      = OK mout /\
    can_open_for_writing w defsfile_output = true /\
    can_open_for_writing w makefile_output = true /\
    w' = printed (written (written w defsfile_output dout)
                          makefile_output mout)
                 (report_lines (set_default_flux a)).
Proof.
  intros Ep H.
  destruct (check_compatibility (set_default_flux a)) as [[]|e] eqn:Ek;
    [|rewrite (main_step2_error cl w a e Ep Ek) in H; discriminate H].
  split; [reflexivity|].
  rewrite (main_outcome cl w a Ep Ek) in H.
  destruct (dict_get (files w) defsfile_input) as [dt|] eqn:Ed;
    [|discriminate H].
  destruct (dict_get (files w) makefile_input) as [mt|] eqn:Em;
    [|discriminate H].
  destruct (substitute (definitions (resolved (set_default_flux a))) dt)
    as [dout|e] eqn:Esd; [|discriminate H].
  destruct (substitute (makefile_options (resolved (set_default_flux a))) mt)
    as [mout|e] eqn:Esm; [|discriminate H].
  destruct (can_open_for_writing w defsfile_output) eqn:Eod;
    [|discriminate H].
  destruct (can_open_for_writing w makefile_output) eqn:Eom;
    [|discriminate H].
  injection H as <-. exists dt, mt, dout, mout.
  repeat split; assumption.
Qed.

(** The worlds a run can end in: nothing written, the definitions file
    written, or both files written and the report printed. *)
Lemma main_worlds (cl : CommandLine) (w w' : World) (r : result unit) :
  main cl w = (r, w') ->
  (w' = w /\ r <> OK tt) \/
  (exists dout,
      w' = written w defsfile_output dout
      /\ r = Raise (IOError makefile_output)) \/
  (exists dout mout lines,
      w' = printed (written (written w defsfile_output dout)
                            makefile_output mout) lines
      /\ r = OK tt).
Proof.
  intros H.
  destruct (parse_args (pgen_choices w) cl) as [a|e] eqn:Ep.
  - destruct (check_compatibility (set_default_flux a)) as [[]|e] eqn:Ek.
    + rewrite (main_outcome cl w a Ep Ek) in H.
      destruct (dict_get (files w) defsfile_input) as [dt|];
        [|injection H as <- <-; left; split; [reflexivity|discriminate]].
      destruct (dict_get (files w) makefile_input) as [mt|];
        [|injection H as <- <-; left; split; [reflexivity|discriminate]].
      destruct (substitute (definitions (resolved (set_default_flux a))) dt)
        as [dout|e];
        [|injection H as <- <-; left; split; [reflexivity|discriminate]].
      destruct (substitute (makefile_options (resolved (set_default_flux a))) mt)
        as [mout|e];
        [|injection H as <- <-; left; split; [reflexivity|discriminate]].
      destruct (can_open_for_writing w defsfile_output);
        [|injection H as <- <-; left; split; [reflexivity|discriminate]].
      destruct (can_open_for_writing w makefile_output);
        injection H as <- <-.
      * right. right. now exists dout, mout, (report_lines (set_default_flux a)).
      * right. left. now exists dout.
    + rewrite (main_step2_error cl w a e Ep Ek) in H.
      injection H as <- <-. left. split; [reflexivity|discriminate].
  - rewrite (main_parse_error cl w e Ep) in H.
    injection H as <- <-. left. split; [reflexivity|discriminate].
Qed.

(** ** Substitution *)

Lemma prefix_cons (a c : ascii) (x y : string) :
  String.prefix (String a x) (String c y)
  = Ascii.eqb a c && String.prefix x y.
Proof.
  cbn. destruct (ascii_dec a c) as [->|Hne].
  - now rewrite Ascii.eqb_refl.
  - apply Ascii.eqb_neq in Hne. now rewrite Hne.
Qed.

Lemma prefix_append (p rest : string) : String.prefix p (p ++ rest) = true.
Proof.
  induction p as [|c p IH]; [now destruct rest|].
  cbn [append]. now rewrite prefix_cons, Ascii.eqb_refl, IH.
Qed.

Lemma contains_char_append (c : ascii) (x y : string) :
  contains_char c (x ++ y) = contains_char c x || contains_char c y.
Proof.
  induction x as [|c' x IH]; cbn [append contains_char]; [reflexivity|].
  now rewrite IH, orb_assoc.
Qed.

(** The fuel of [expand_tokens] is never used up: every call takes at
    least one token, so any fuel that is at least the number of tokens
    gives the same result. *)
Lemma getuntil_shorter (ts : list token) :
  forall name name' rest,
    getuntil ts name = OK (name', rest) ->
    (List.length rest < List.length ts)%nat.
Proof.
  induction ts as [|t ts IH]; intros name name' rest H; cbn in H.
  - discriminate.
  - destruct (look ts); [|discriminate].
    destruct t as [c|c|].
    + destruct (Ascii.eqb c ">").
      * destruct (name =? ""); [discriminate|].
        inversion H; subst. cbn. lia.
      * apply IH in H. cbn. lia.
    + apply IH in H. cbn. lia.
    + discriminate.
Qed.

Lemma expand_tokens_fuel (m : string) (fuel : nat) :
  forall fuel' ts,
    (List.length ts <= fuel)%nat -> (List.length ts <= fuel')%nat ->
    expand_tokens fuel m ts = expand_tokens fuel' m ts.
Proof.
  induction fuel as [|fuel IH]; intros fuel' ts H H'.
  - destruct ts; [|cbn in H; lia]. now destruct fuel'.
  - destruct fuel' as [|fuel'].
    + destruct ts; [reflexivity|cbn in H'; lia].
    + destruct ts as [|t rest]; [reflexivity|].
      cbn in H, H'.
      assert (Hrec : forall ts', (List.length ts' <= List.length rest)%nat ->
                expand_tokens fuel m ts' = expand_tokens fuel' m ts')
        by (intros ts' Hts; apply IH; lia).
      cbn [expand_tokens]. unfold rbind.
      destruct (look rest); [|reflexivity].
      destruct t as [c|e|]; [now rewrite Hrec by lia| |reflexivity].
      destruct (Ascii.eqb e "g").
      { destruct rest as [|[c| |] rest1]; try reflexivity.
        destruct (Ascii.eqb c "<") eqn:Ec.
        - apply Ascii.eqb_eq in Ec. subst c.
          destruct (look rest1); [|reflexivity].
          destruct (getuntil rest1 "") as [[name rest2]|] eqn:G; [|reflexivity].
          apply getuntil_shorter in G. cbn [fst snd].
          destruct (check_group_name name); [|reflexivity].
          rewrite Hrec by (cbn; lia). reflexivity.
        - destruct c as [[] [] [] [] [] [] [] []]; try reflexivity;
            discriminate Ec. }
      destruct (Ascii.eqb e "0").
      { destruct rest as [|[d1| |] rest1];
          try (rewrite Hrec by (cbn; lia); reflexivity).
        destruct (is_octdigit d1);
          [|rewrite Hrec by (cbn; lia); reflexivity].
        destruct (look rest1); [|reflexivity].
        destruct rest1 as [|[d2| |] rest2];
          try (rewrite Hrec by (cbn; lia); reflexivity).
        destruct (is_octdigit d2);
          [|rewrite Hrec by (cbn; lia); reflexivity].
        destruct (look rest2); [|reflexivity].
        rewrite Hrec by (cbn; lia). reflexivity. }
      destruct (is_digit e).
      { destruct rest as [|[d1| |] rest1]; try reflexivity.
        destruct (is_digit d1); [|reflexivity].
        destruct (look rest1); [|reflexivity].
        destruct rest1 as [|[d2| |] rest2]; try reflexivity.
        destruct (is_octdigit e && is_octdigit d1 && is_octdigit d2);
          [|reflexivity].
        destruct (look rest2); [|reflexivity].
        destruct (255 <? _)%nat; [reflexivity|].
        rewrite Hrec by (cbn; lia). reflexivity. }
      destruct (template_escape e);
        [rewrite Hrec by lia; reflexivity|].
      destruct (is_ascii_letter e); [reflexivity|].
      rewrite Hrec by lia. reflexivity.
Qed.

Lemma tokenize_literal (val : string) :
  contains_char backslash val = false ->
  tokenize val = map Chr (list_ascii_of_string val).
Proof.
  induction val as [|c val IH]; intros Hb; [reflexivity|].
  cbn [contains_char] in Hb. apply orb_false_iff in Hb.
  destruct Hb as [Hc Hb]. cbn [tokenize list_ascii_of_string map].
  rewrite Ascii.eqb_sym, Hc. now rewrite IH.
Qed.

Lemma look_chars (cs : list ascii) : look (map Chr cs) = OK tt.
Proof. now destruct cs. Qed.

Lemma expand_tokens_chars (m : string) (cs : list ascii) :
  forall fuel, List.length cs <= fuel ->
  expand_tokens fuel m (map Chr cs) = OK (string_of_list_ascii cs).
Proof.
  induction cs as [|c cs IH]; intros fuel Hf.
  - now destruct fuel.
  - cbn [List.length] in Hf. destruct fuel as [|fuel]; [lia|].
    cbn [map expand_tokens]. rewrite look_chars. cbn [rbind].
    rewrite IH by lia. reflexivity.
Qed.

(** A replacement without backslash is inserted as it is. *)
Lemma expand_template_literal (m val : string) :
  contains_char backslash val = false ->
  expand_template m val = OK val.
Proof.
  intros Hb. unfold expand_template. rewrite (tokenize_literal _ Hb).
  rewrite look_chars. cbn [rbind].
  rewrite expand_tokens_chars by (rewrite length_map; lia).
  now rewrite string_of_list_ascii_of_string.
Qed.

Lemma re_sub_literal (pattern val text : string) :
  contains_char backslash val = false ->
  re_sub pattern val text = OK (replace_from pattern val 0 text).
Proof.
  intros Hb. unfold re_sub.
  now rewrite (expand_template_literal _ _ Hb).
Qed.

Example re_sub_escapes :
  re_sub "@A@" "x\g<0>y\n" "..@A@.." = OK ("..x@A@y" ++ String (ascii_of_nat 10) "..") /\
  re_sub "@A@" "\g<name>" "x" = Raise (IndexError "unknown group name") /\
  re_sub "@A@" "\1" "x" = Raise (ReError "invalid group reference") /\
  re_sub "@A@" "\101" "@A@@A@" = OK "AA" /\
  re_sub "@A@" "a\" "x" = Raise (ReError "bad escape (end of pattern)").
Proof. repeat split. Qed.

(** Scanning text that has no [@] copies it. *)
Lemma replace_from_no_at (key val text rest : string) :
  contains_char "@" text = false ->
  replace_from (placeholder key) val 0 (text ++ rest)
  = text ++ replace_from (placeholder key) val 0 rest.
Proof.
  induction text as [|c text IH]; intros H; [reflexivity|].
  cbn [contains_char] in H. apply orb_false_iff in H. destruct H as [Hc H].
  cbn [append replace_from]. unfold placeholder at 1. cbn [append].
  rewrite prefix_cons, Hc. cbn [andb]. now rewrite IH.
Qed.

Lemma replace_from_skip (pat val skipped rest : string) :
  replace_from pat val (String.length skipped) (skipped ++ rest)
  = replace_from pat val 0 rest.
Proof.
  induction skipped as [|c x IH]; [reflexivity|].
  cbn [append String.length replace_from]. exact IH.
Qed.

(** A placeholder of the key is replaced by the value. *)
Lemma replace_from_match (key val rest : string) :
  replace_from (placeholder key) val 0 (placeholder key ++ rest)
  = val ++ replace_from (placeholder key) val 0 rest.
Proof.
  unfold placeholder. cbn [append replace_from].
  change (String "@" (key ++ "@")) with ("@" ++ key ++ "@").
  change (String "@" ((key ++ "@") ++ rest)) with (("@" ++ key ++ "@") ++ rest).
  rewrite prefix_append. f_equal.
  replace (String.length ("@" ++ key ++ "@") - 1)
    with (String.length (key ++ "@")) by (cbn [append String.length]; lia).
  rewrite <- append_assoc. apply replace_from_skip.
Qed.

Lemma prefix_nil_r (p : string) :
  String.prefix p "" = match p with EmptyString => true | _ => false end.
Proof. now destruct p. Qed.

(** Two placeholders match only when their names agree. *)
Lemma prefix_other_name (key name rest : string) :
  contains_char "@" key = false ->
  contains_char "@" name = false ->
  key <> name ->
  String.prefix (key ++ "@") (name ++ String "@" rest) = false.
Proof.
  revert name. induction key as [|a key IH]; intros name Hk Hn Hne.
  - destruct name as [|c name]; [congruence|].
    cbn [contains_char] in Hn. apply orb_false_iff in Hn.
    cbn [append]. rewrite prefix_cons. now rewrite (proj1 Hn).
  - cbn [contains_char] in Hk. apply orb_false_iff in Hk.
    destruct Hk as [Ha Hk].
    destruct name as [|c name]; cbn [append]; rewrite prefix_cons.
    + rewrite Ascii.eqb_sym, Ha. reflexivity.
    + cbn [contains_char] in Hn. apply orb_false_iff in Hn.
      destruct (Ascii.eqb a c) eqn:E; [|reflexivity].
      apply Ascii.eqb_eq in E. subst c. cbn [andb].
      apply IH; [assumption|apply Hn|congruence].
Qed.

(** After a placeholder no key's placeholder begins at its closing [@]. *)
Lemma prefix_at_separator (keys : list string) (key : string) (ps : list piece) :
  In key keys ->
  separated keys ps = true ->
  well_formed keys ps = true ->
  String.prefix (key ++ "@") (render ps) = false.
Proof.
  intros Hin Hsep Hwf.
  destruct ps as [|[text|name] ps]; [|destruct text as [|c text]|];
    try discriminate Hsep.
  - cbn [render]. rewrite prefix_nil_r. now destruct key.
  - cbn [separated] in Hsep. apply negb_true_iff in Hsep.
    cbn [well_formed contains_char] in Hwf.
    apply andb_true_iff in Hwf. destruct Hwf as [Hat _].
    apply negb_true_iff, orb_false_iff in Hat. destruct Hat as [Hc _].
    cbn [render render_piece append].
    destruct key as [|a key]; cbn [append]; rewrite prefix_cons.
    + now rewrite Hc.
    + destruct (Ascii.eqb a c) eqn:E; [|reflexivity].
      exfalso. apply Ascii.eqb_eq in E. subst c.
      unfold first_char_of_key in Hsep.
      assert (Ht : existsb
                (fun k => match k with
                          | String c' _ => Ascii.eqb a c'
                          | EmptyString => false
                          end) keys = true).
      { apply existsb_exists. exists (String a key).
        split; [exact Hin|apply Ascii.eqb_refl]. }
      congruence.
Qed.

Lemma prefix_placeholder (key : string) (c : ascii) (text : string) :
  String.prefix (placeholder key) (String c text)
  = Ascii.eqb "@" c && String.prefix (key ++ "@") text.
Proof. unfold placeholder. cbn [append]. apply prefix_cons. Qed.

(** A placeholder of another name is copied. *)
Lemma replace_from_other_name (key val name rest : string) :
  contains_char "@" key = false ->
  contains_char "@" name = false ->
  key <> name ->
  String.prefix (key ++ "@") rest = false ->
  replace_from (placeholder key) val 0 (placeholder name ++ rest)
  = placeholder name ++ replace_from (placeholder key) val 0 rest.
Proof.
  intros Hk Hn Hne Hrest.
  assert (Hshape : forall x,
             placeholder name ++ x = String "@" (name ++ String "@" x)).
  { intros x. unfold placeholder. cbn [append]. now rewrite append_assoc. }
  rewrite !Hshape. cbn [replace_from]. rewrite prefix_placeholder.
  rewrite (prefix_other_name _ _ _ Hk Hn Hne), andb_false_r.
  f_equal. rewrite (replace_from_no_at _ _ _ _ Hn). f_equal.
  cbn [replace_from].
  now rewrite prefix_placeholder, Hrest, andb_false_r.
Qed.

(** One pass of the loop on a well-formed template. *)
Lemma replace_from_render (keys : list string) (key val : string)
    (ps : list piece) :
  In key keys ->
  contains_char "@" key = false ->
  well_formed keys ps = true ->
  replace_from (placeholder key) val 0 (render ps)
  = render (map (fill_key key val) ps).
Proof.
  intros Hin Hk. induction ps as [|[text|name] ps IH]; intros Hwf.
  - reflexivity.
  - cbn [well_formed] in Hwf. apply andb_true_iff in Hwf.
    destruct Hwf as [Hat Hwf]. apply negb_true_iff in Hat.
    cbn [render render_piece map fill_key].
    now rewrite replace_from_no_at, IH.
  - cbn [well_formed] in Hwf. apply andb_true_iff in Hwf.
    destruct Hwf as [Hwf1 Hwf]. apply andb_true_iff in Hwf1.
    destruct Hwf1 as [Hat Hsep]. apply negb_true_iff in Hat.
    cbn [render render_piece map fill_key].
    destruct (key =? name) eqn:E.
    + apply String.eqb_eq in E. subst name.
      cbn [render render_piece]. now rewrite replace_from_match, IH.
    + apply String.eqb_neq in E.
      cbn [render render_piece]. rewrite <- (IH Hwf).
      apply replace_from_other_name; try assumption.
      now apply (prefix_at_separator keys).
Qed.

Lemma separated_fill_key (keys : list string) (key val : string)
    (ps : list piece) :
  separated keys ps = true ->
  separated keys (map (fill_key key val) ps) = true.
Proof. destruct ps as [|[text|name] ps]; [reflexivity|auto|discriminate]. Qed.

Lemma well_formed_fill_key (keys : list string) (key val : string)
    (ps : list piece) :
  contains_char "@" val = false ->
  well_formed keys ps = true ->
  well_formed keys (map (fill_key key val) ps) = true.
Proof.
  intros Hv. induction ps as [|[text|name] ps IH]; intros Hwf.
  - reflexivity.
  - cbn [well_formed map fill_key] in *. apply andb_true_iff in Hwf.
    destruct Hwf as [Hat Hwf]. now rewrite Hat, IH.
  - cbn [well_formed map fill_key] in *. apply andb_true_iff in Hwf.
    destruct Hwf as [Hwf1 Hwf]. apply andb_true_iff in Hwf1.
    destruct Hwf1 as [Hat Hsep].
    destruct (key =? name); cbn [well_formed].
    + now rewrite Hv, IH.
    + now rewrite Hat, separated_fill_key, IH.
Qed.

Lemma fill_fill_key (key val : string) (items : dict) (p : piece) :
  fill items (fill_key key val p) = fill ((key, val) :: items) p.
Proof.
  destruct p as [text|name]; [reflexivity|].
  cbn [fill fill_key dict_get]. now destruct (key =? name).
Qed.

(** The loop on a well-formed template is the substitution placeholder
    by placeholder. *)
Lemma substitute_render (keys : list string) (items : dict) :
  forall ps : list piece,
    (forall item, In item items -> In (fst item) keys) ->
    literal_items items = true ->
    well_formed keys ps = true ->
    substitute items (render ps) = OK (render (map (fill items) ps)).
Proof.
  induction items as [|[key val] items IH]; intros ps Hkeys Hlit Hwf.
  - cbn [substitute]. f_equal. f_equal.
    rewrite <- (map_id ps) at 1. apply map_ext. now intros [text|name].
  - cbn [literal_items forallb] in Hlit. apply andb_true_iff in Hlit.
    destruct Hlit as [Hitem Hlit]. unfold literal_item in Hitem.
    cbn [fst snd] in Hitem.
    repeat (apply andb_true_iff in Hitem;
            let H := fresh "H" in destruct Hitem as [Hitem H];
            apply negb_true_iff in H).
    cbn [substitute]. rewrite re_sub_literal by assumption. cbn [rbind].
    rewrite (replace_from_render keys) by
      (try assumption; apply (Hkeys (key, val)); now left).
    rewrite IH.
    + rewrite map_map. f_equal. f_equal. apply map_ext.
      intros p. apply fill_fill_key.
    + intros item Hi. apply Hkeys. now right.
    + exact Hlit.
    + now apply well_formed_fill_key.
Qed.

Lemma dict_get_In (items : dict) (key val : string) :
  dict_get items key = Some val -> In (key, val) items.
Proof.
  induction items as [|[k v] items IH]; cbn [dict_get]; [discriminate|].
  destruct (k =? key) eqn:E; intros H.
  - apply String.eqb_eq in E. inversion H. subst. now left.
  - right. now apply IH.
Qed.

Lemma dict_get_key (items : dict) (key : string) :
  In key (dict_keys items) -> dict_get items key <> None.
Proof.
  induction items as [|[k v] items IH]; cbn; [tauto|].
  intros [->|H].
  - now rewrite String.eqb_refl.
  - destruct (k =? key); [discriminate|now apply IH].
Qed.

(** When every placeholder name is a key, no [@] is left. *)
Lemma render_fill_no_at (keys : list string) (items : dict) (ps : list piece) :
  literal_items items = true ->
  well_formed keys ps = true ->
  (forall name, In name (hole_names ps) -> In name (dict_keys items)) ->
  contains_char "@" (render (map (fill items) ps)) = false.
Proof.
  intros Hlit. induction ps as [|[text|name] ps IH]; intros Hwf Hnames.
  - reflexivity.
  - cbn [well_formed] in Hwf. apply andb_true_iff in Hwf.
    destruct Hwf as [Hat Hwf]. apply negb_true_iff in Hat.
    cbn [map fill render render_piece].
    rewrite contains_char_append, Hat. now apply IH.
  - cbn [well_formed] in Hwf. apply andb_true_iff in Hwf.
    destruct Hwf as [_ Hwf].
    cbn [map fill render render_piece].
    destruct (dict_get items name) as [val|] eqn:E.
    + cbn [render_piece]. rewrite contains_char_append.
      apply dict_get_In in E.
      unfold literal_items in Hlit. rewrite forallb_forall in Hlit.
      specialize (Hlit _ E). unfold literal_item in Hlit. cbn [fst snd] in Hlit.
      apply andb_true_iff in Hlit. destruct Hlit as [_ Hv].
      apply negb_true_iff in Hv. rewrite Hv.
      apply IH; [exact Hwf|]. intros n Hn. apply Hnames. now right.
    + exfalso. apply (dict_get_key items name); [|exact E].
      apply Hnames. now left.
Qed.

(** ** Templates read as they are meant *)

Lemma py_in_cons (x y : string) (ys : list string) :
  py_in x (y :: ys) = (x =? y) || py_in x ys.
Proof. reflexivity. Qed.

(** Text without [@] in front of a pattern that ends in [@]. *)
Lemma prefix_through_text (text : string) :
  contains_char "@" text = false ->
  forall key rest,
    String.prefix (key ++ "@") (text ++ rest) = true ->
    exists key', key = text ++ key'
                 /\ String.prefix (key' ++ "@") rest = true.
Proof.
  induction text as [|c text IH]; intros Hat key rest H.
  - now exists key.
  - cbn [contains_char] in Hat. apply orb_false_iff in Hat.
    destruct Hat as [Hc Hat]. cbn [append] in H.
    destruct key as [|a key]; cbn [append] in H; rewrite prefix_cons in H;
      apply andb_true_iff in H; destruct H as [Ha H].
    + congruence.
    + apply Ascii.eqb_eq in Ha. subst a.
      destruct (IH Hat _ _ H) as (key' & -> & H').
      now exists key'.
Qed.

Lemma prefix_at_first (key rest : string) :
  contains_char "@" key = false ->
  String.prefix (key ++ "@") (String "@" rest) = true -> key = "".
Proof.
  intros Hk H. destruct key as [|a key]; [reflexivity|].
  cbn [append] in H. rewrite prefix_cons in H.
  apply andb_true_iff in H. destruct H as [Ha _].
  apply Ascii.eqb_eq in Ha. subst a.
  cbn [contains_char] in Hk. rewrite Ascii.eqb_refl in Hk. discriminate.
Qed.

(** Text with an [@]: a pattern that ends in [@] stops at the first. *)
Lemma prefix_to_first_at (text : string) :
  contains_char "@" text = true ->
  forall key rest,
    contains_char "@" key = false ->
    String.prefix (key ++ "@") (text ++ rest) = true ->
    key = before_char "@" text.
Proof.
  induction text as [|c text IH]; intros Hat key rest Hk H; [discriminate|].
  cbn [contains_char] in Hat. cbn [before_char append] in *.
  destruct (Ascii.eqb "@" c) eqn:Ec.
  - apply Ascii.eqb_eq in Ec. subst c.
    exact (prefix_at_first _ _ Hk H).
  - cbn [orb] in Hat.
    destruct key as [|a key]; cbn [append] in H; rewrite prefix_cons in H;
      apply andb_true_iff in H; destruct H as [Ha H].
    + congruence.
    + apply Ascii.eqb_eq in Ha. subst a.
      cbn [contains_char] in Hk. apply orb_false_iff in Hk.
      f_equal. exact (IH Hat _ _ (proj2 Hk) H).
Qed.

(** Where the text after a delimiter runs up to the next delimiter, the
    check has looked at it. *)
Lemma gap_ok_prefix (items : dict) (ps : list piece) :
  forall gap key,
    gap_ok items gap ps = true ->
    contains_char "@" key = false ->
    String.prefix (key ++ "@") (render ps) = true ->
    py_in (gap ++ key) (dict_keys items) = false.
Proof.
  induction ps as [|[text|name] ps IH]; intros gap key Hok Hk H.
  - cbn [render] in H. rewrite prefix_nil_r in H. now destruct key.
  - cbn [gap_ok] in Hok. cbn [render render_piece] in H.
    destruct (contains_char "@" text) eqn:Hat.
    + rewrite (prefix_to_first_at _ Hat _ _ Hk H).
      now apply negb_true_iff.
    + destruct (prefix_through_text _ Hat _ _ H) as (key' & -> & H').
      rewrite contains_char_append in Hk. apply orb_false_iff in Hk.
      rewrite <- append_assoc. exact (IH _ _ Hok (proj2 Hk) H').
  - cbn [gap_ok] in Hok. apply andb_true_iff in Hok.
    destruct Hok as [Hgap _]. apply negb_true_iff in Hgap.
    cbn [render render_piece] in H. unfold placeholder in H.
    cbn [append] in H.
    rewrite (prefix_at_first _ _ Hk H). now rewrite append_nil_r.
Qed.

Lemma gap_ok_no_match (key val : string) (items : dict) (ps : list piece) :
  contains_char "@" key = false ->
  gap_ok ((key, val) :: items) "" ps = true ->
  String.prefix (key ++ "@") (render ps) = false.
Proof.
  intros Hk Hok.
  destruct (String.prefix (key ++ "@") (render ps)) eqn:H; [|reflexivity].
  pose proof (gap_ok_prefix _ _ _ _ Hok Hk H) as Hin.
  cbn [append dict_keys map fst] in Hin.
  rewrite py_in_cons, String.eqb_refl in Hin. discriminate.
Qed.

(** One pass over literal text copies it. *)
Lemma replace_from_literal (key val : string) (items : dict)
    (ps : list piece) (text : string) :
  contains_char "@" key = false ->
  lit_ok ((key, val) :: items) text ps = true ->
  replace_from (placeholder key) val 0 (text ++ render ps)
  = text ++ replace_from (placeholder key) val 0 (render ps).
Proof.
  intros Hk. induction text as [|c text IH]; intros Hok; [reflexivity|].
  cbn [lit_ok] in Hok. apply andb_true_iff in Hok. destruct Hok as [Hc Hok].
  cbn [append replace_from]. rewrite prefix_placeholder.
  destruct (Ascii.eqb "@" c) eqn:Ec.
  - rewrite Ascii.eqb_sym, Ec in Hc.
    pose proof (gap_ok_no_match key val items (Lit text :: ps) Hk Hc) as Hno.
    cbn [render render_piece] in Hno. rewrite Hno.
    cbn [andb]. now rewrite IH.
  - cbn [andb]. now rewrite IH.
Qed.

(** One pass of the loop. *)
Lemma replace_from_unambiguous (key val : string) (items : dict)
    (ps : list piece) :
  contains_char "@" key = false ->
  unambiguous ((key, val) :: items) ps = true ->
  replace_from (placeholder key) val 0 (render ps)
  = render (map (fill_key key val) ps).
Proof.
  intros Hk. induction ps as [|[text|name] ps IH]; intros Hok.
  - reflexivity.
  - cbn [unambiguous] in Hok. apply andb_true_iff in Hok.
    destruct Hok as [Hlit Hok].
    cbn [render render_piece map fill_key].
    now rewrite (replace_from_literal key val items), IH.
  - cbn [unambiguous] in Hok. apply andb_true_iff in Hok.
    destruct Hok as [Hok1 Hok]. apply andb_true_iff in Hok1.
    destruct Hok1 as [Hat Hgap]. apply negb_true_iff in Hat.
    cbn [render render_piece map fill_key].
    destruct (key =? name) eqn:E.
    + apply String.eqb_eq in E. subst name.
      cbn [render render_piece]. now rewrite replace_from_match, IH.
    + apply String.eqb_neq in E.
      cbn [render render_piece]. rewrite <- (IH Hok).
      apply replace_from_other_name; try assumption.
      exact (gap_ok_no_match key val items ps Hk Hgap).
Qed.

(** The check still holds after a pass, for the keys that are left. *)
Lemma py_in_tail (x y : string) (ys : list string) :
  py_in x (y :: ys) = false -> py_in x ys = false.
Proof. rewrite py_in_cons. intros H. now apply orb_false_iff in H. Qed.

Lemma gap_ok_fill_key (key val : string) (items : dict) (ps : list piece) :
  contains_char "@" val = false ->
  forall gap,
    gap_ok ((key, val) :: items) gap ps = true ->
    gap_ok items gap (map (fill_key key val) ps) = true.
Proof.
  intros Hv. induction ps as [|[text|name] ps IH]; intros gap Hok.
  - reflexivity.
  - cbn [gap_ok map fill_key] in *.
    destruct (contains_char "@" text).
    + apply negb_true_iff in Hok. apply negb_true_iff.
      exact (py_in_tail _ key (dict_keys items) Hok).
    + now apply IH.
  - cbn [gap_ok] in Hok. apply andb_true_iff in Hok.
    destruct Hok as [Hgap Hok]. apply negb_true_iff in Hgap.
    cbn [dict_get] in Hok. cbn [map fill_key].
    destruct (key =? name).
    + cbn [gap_ok]. rewrite Hv. now apply IH.
    + cbn [gap_ok]. rewrite (py_in_tail gap key (dict_keys items) Hgap).
      cbn [negb andb].
      destruct (dict_get items name); [now apply IH|reflexivity].
Qed.

Lemma lit_ok_fill_key (key val : string) (items : dict) (ps : list piece)
    (text : string) :
  contains_char "@" val = false ->
  lit_ok ((key, val) :: items) text ps = true ->
  lit_ok items text (map (fill_key key val) ps) = true.
Proof.
  intros Hv. induction text as [|c text IH]; intros Hok; [reflexivity|].
  cbn [lit_ok] in *. apply andb_true_iff in Hok. destruct Hok as [Hc Hok].
  rewrite (IH Hok), andb_true_r.
  destruct (Ascii.eqb c "@"); [|reflexivity].
  exact (gap_ok_fill_key key val items (Lit text :: ps) Hv "" Hc).
Qed.

Lemma lit_ok_no_at (items : dict) (ps : list piece) (text : string) :
  contains_char "@" text = false -> lit_ok items text ps = true.
Proof.
  induction text as [|c text IH]; intros Hat; [reflexivity|].
  cbn [contains_char] in Hat. apply orb_false_iff in Hat.
  destruct Hat as [Hc Hat]. cbn [lit_ok].
  rewrite Ascii.eqb_sym, Hc. now rewrite IH.
Qed.

Lemma unambiguous_fill_key (key val : string) (items : dict)
    (ps : list piece) :
  contains_char "@" val = false ->
  unambiguous ((key, val) :: items) ps = true ->
  unambiguous items (map (fill_key key val) ps) = true.
Proof.
  intros Hv. induction ps as [|[text|name] ps IH]; intros Hok.
  - reflexivity.
  - cbn [unambiguous map fill_key] in *. apply andb_true_iff in Hok.
    destruct Hok as [Hlit Hok].
    now rewrite (lit_ok_fill_key key val items ps text Hv Hlit), IH.
  - cbn [unambiguous] in Hok. apply andb_true_iff in Hok.
    destruct Hok as [Hok1 Hok]. apply andb_true_iff in Hok1.
    destruct Hok1 as [Hat Hgap]. cbn [map fill_key].
    destruct (key =? name); cbn [unambiguous].
    + now rewrite lit_ok_no_at, IH.
    + now rewrite Hat, (gap_ok_fill_key key val items ps Hv "" Hgap), IH.
Qed.

(** The loop on a template read as it is meant is the substitution
    placeholder by placeholder. *)
Lemma substitute_unambiguous (items : dict) :
  forall ps : list piece,
    literal_items items = true ->
    unambiguous items ps = true ->
    substitute items (render ps) = OK (render (map (fill items) ps)).
Proof.
  induction items as [|[key val] items IH]; intros ps Hlit Hok.
  - cbn [substitute]. f_equal. f_equal.
    rewrite <- (map_id ps) at 1. apply map_ext. now intros [text|name].
  - cbn [literal_items forallb] in Hlit. apply andb_true_iff in Hlit.
    destruct Hlit as [Hitem Hlit]. unfold literal_item in Hitem.
    cbn [fst snd] in Hitem.
    repeat (apply andb_true_iff in Hitem;
            let H := fresh "H" in destruct Hitem as [Hitem H];
            apply negb_true_iff in H).
    cbn [substitute]. rewrite re_sub_literal by assumption. cbn [rbind].
    rewrite (replace_from_unambiguous key val items) by assumption.
    rewrite IH.
    + rewrite map_map. f_equal. f_equal. apply map_ext.
      intros p. apply fill_fill_key.
    + exact Hlit.
    + now apply unambiguous_fill_key.
Qed.

(** With literal text free of [@] and every placeholder name a key, no
    [@] is left. *)
Lemma render_fill_plain (items : dict) (ps : list piece) :
  literal_items items = true ->
  plain_literals ps = true ->
  (forall name, In name (hole_names ps) -> In name (dict_keys items)) ->
  contains_char "@" (render (map (fill items) ps)) = false.
Proof.
  intros Hlit. induction ps as [|[text|name] ps IH]; intros Hpl Hnames.
  - reflexivity.
  - cbn [plain_literals forallb] in Hpl. apply andb_true_iff in Hpl.
    destruct Hpl as [Hat Hpl]. apply negb_true_iff in Hat.
    cbn [map fill render render_piece].
    rewrite contains_char_append, Hat. now apply IH.
  - cbn [plain_literals forallb] in Hpl.
    cbn [map fill render render_piece].
    destruct (dict_get items name) as [val|] eqn:E.
    + cbn [render_piece]. rewrite contains_char_append.
      apply dict_get_In in E.
      unfold literal_items in Hlit. rewrite forallb_forall in Hlit.
      specialize (Hlit _ E). unfold literal_item in Hlit. cbn [fst snd] in Hlit.
      apply andb_true_iff in Hlit. destruct Hlit as [_ Hv].
      apply negb_true_iff in Hv. rewrite Hv.
      apply IH; [exact Hpl|]. intros n Hn. apply Hnames. now right.
    + exfalso. apply (dict_get_key items name); [|exact E].
      apply Hnames. now left.
Qed.

(** A template whose placeholders are each followed by a character that
    begins no key is read as it is meant. *)
Lemma gap_ok_separator (items : dict) (c : ascii) (ps : list piece) :
  first_char_of_key c (dict_keys items) = false ->
  forall gap, gap_ok items (String c gap) ps = true.
Proof.
  intros Hc.
  assert (Hno : forall gap, py_in (String c gap) (dict_keys items) = false).
  { intros gap. unfold py_in.
    destruct (existsb (String.eqb (String c gap)) (dict_keys items)) eqn:E;
      [|reflexivity].
    apply existsb_exists in E. destruct E as (k & Hin & Ek).
    apply String.eqb_eq in Ek. subst k.
    assert (Ht : first_char_of_key c (dict_keys items) = true).
    { apply existsb_exists. exists (String c gap).
      split; [exact Hin|apply Ascii.eqb_refl]. }
    congruence. }
  induction ps as [|[text|name] ps IH]; intros gap.
  - reflexivity.
  - cbn [gap_ok append].
    destruct (contains_char "@" text); [now rewrite Hno|apply IH].
  - cbn [gap_ok append]. rewrite Hno. cbn [negb andb].
    destruct (dict_get items name); [apply IH|reflexivity].
Qed.

Lemma well_formed_unambiguous (items : dict) (ps : list piece) :
  well_formed (dict_keys items) ps = true ->
  unambiguous items ps = true.
Proof.
  induction ps as [|[text|name] ps IH]; intros Hwf.
  - reflexivity.
  - cbn [well_formed unambiguous] in *. apply andb_true_iff in Hwf.
    destruct Hwf as [Hat Hwf]. apply negb_true_iff in Hat.
    now rewrite lit_ok_no_at, IH.
  - cbn [well_formed unambiguous] in *. apply andb_true_iff in Hwf.
    destruct Hwf as [Hwf1 Hwf]. apply andb_true_iff in Hwf1.
    destruct Hwf1 as [Hat Hsep]. rewrite Hat, (IH Hwf), andb_true_r.
    cbn [andb].
    destruct ps as [|[text|name'] ps]; [reflexivity| |discriminate Hsep].
    destruct text as [|c text]; [discriminate Hsep|].
    cbn [separated] in Hsep. apply negb_true_iff in Hsep.
    cbn [well_formed] in Hwf. apply andb_true_iff in Hwf.
    destruct Hwf as [Hat' _]. apply negb_true_iff in Hat'.
    cbn [gap_ok]. rewrite Hat'. cbn [append].
    now apply gap_ok_separator.
Qed.

Lemma tokens_no_at (text : string) :
  contains_char "@" text = false -> tokens text = [].
Proof.
  induction text as [|c text IH]; [reflexivity|].
  cbn [contains_char tokens]. intros H. apply orb_false_iff in H.
  destruct H as [Hc H]. rewrite Ascii.eqb_sym, Hc. now apply IH.
Qed.

(** The keys of the two dictionaries are fixed names without
    metacharacters or [@]. *)
Lemma configure_keys_plain (a : Args) (c : Config) :
  valid_args a -> configure a = OK c ->
  forallb (fun key => plain key && negb (contains_char "@" key))
          (dict_keys (definitions c) ++ dict_keys (makefile_options c)) = true.
Proof.
  intros Hv Hc. destruct (configure_inv _ _ Hv Hc) as [_ ->]. reflexivity.
Qed.

Example main_linear_wave :
  pgen_choices sample_world = ["shock_tube"; "linear_wave"] /\
  exists lines,
    main linear_wave_command_line sample_world =
    (OK tt,
     printed
       (written
          (written sample_world "src/defs.hpp"
             "#define PROBLEM_GENERATOR linear_wave NWAVE 7 NOT_DEBUG")
          "Makefile" "CXX := g++ RSOLVER := mhd/hlld.cpp")
       lines).
Proof. split; [reflexivity|]. eexists. vm_compute. reflexivity. Qed.

(** A run writes no file but the two output files, however it ends. *)
Lemma main_keeps_other_files (cl : CommandLine) (w w' : World)
    (r : result unit) (path : string) :
  main cl w = (r, w') ->
  path <> defsfile_output -> path <> makefile_output ->
  dict_get (files w') path = dict_get (files w) path.
Proof.
  intros H Hd Hm.
  destruct (main_worlds cl w w' r H)
    as [[-> _]|[(dout & -> & _)|(dout & mout & lines & -> & _)]];
    unfold printed, written; cbn [files];
    rewrite ?dict_get_set_ne by congruence; reflexivity.
Qed.
(* ================================================================== *)
(** * The properties of the specification *)

(** C1.  The Compatibility Validator applies the nine rules in the listed
    order to the option set with its default flux chosen: an option set
    that violates some rule is rejected with the [SystemExit] message of
    the earliest violated rule; one that violates none is accepted; with
    flux hllc, isothermal EOS and magnetism both rule 1 and rule 2 are
    violated and rule 1 is the one reported; and on parsed option sets
    the messages of different rules differ, so the message names the
    rule. *)
Theorem validator_reports_first_violated_rule :
  (forall a : Args,
      (exists r, violates r (set_default_flux a) = true) ->
      exists r,
        violates r (set_default_flux a) = true /\
        (forall r', (rule_number r' < rule_number r)%nat ->
                    violates r' (set_default_flux a) = false) /\
        step2 a = Raise (SystemExit (rule_message r (set_default_flux a)))) /\
  (forall a : Args,
      (forall r, violates r (set_default_flux a) = false) ->
      step2 a = OK (set_default_flux a)) /\
  (forall a : Args,
      flux a = "hllc" -> eos a = "isothermal" -> b a = true ->
      violates R1 (set_default_flux a) = true /\
      violates R2 (set_default_flux a) = true /\
      step2 a = Raise (SystemExit
        "### CONFIGURE ERROR: HLLC flux cannot be used with isothermal EOS")) /\
  (forall (a a' : Args) (r r' : rule),
      valid_args a -> valid_args a' ->
      rule_message r (set_default_flux a) = rule_message r' (set_default_flux a') ->
      r = r').
Proof.
  split; [|split; [|split]].
  - intros a [r0 Hr0]. rewrite step2_first_violated.
    destruct (first_violated (set_default_flux a)) as [r|] eqn:E.
    + exists r. destruct (first_violated_earliest _ _ E) as [H1 H2].
      repeat split; assumption.
    + rewrite (first_violated_none _ E r0) in Hr0. discriminate.
  - intros a H. unfold step2. now rewrite (no_violation_check_ok _ H).
  - intros a Hf He Hb.
    assert (Ha : set_default_flux a = a).
    { unfold set_default_flux. now rewrite Hf. }
    rewrite step2_first_violated, Ha.
    unfold first_violated, rules_in_order. cbn [find violates].
    rewrite Hf, He, Hb. auto.
  - intros a a' r r' Hv Hv'.
    apply rule_message_injective; now apply set_default_flux_valid.
Qed.

Lemma validator_reports_first_violated_rule_witness :
  (exists r,
      violates r (set_default_flux (with_flux default_args "hlld")) = true /\
      step2 (with_flux default_args "hlld")
      = Raise (SystemExit
          (rule_message r (set_default_flux (with_flux default_args "hlld"))))) /\
  step2 schwarzschild_args = OK (set_default_flux schwarzschild_args) /\
  step2 (mkArgs "shock_tube" "cartesian" "isothermal" "hllc" "plm" "vl2"
           true false false false false false false false false
           "" "g++" None [] [])
  = Raise (SystemExit
      "### CONFIGURE ERROR: HLLC flux cannot be used with isothermal EOS").
Proof.
  split; [|split].
  - destruct (proj1 validator_reports_first_violated_rule
                (with_flux default_args "hlld")
                (ex_intro _ R3 eq_refl)) as (r & Hr & _ & Hs).
    exists r. split; [exact Hr|exact Hs].
  - apply (proj1 (proj2 validator_reports_first_violated_rule)).
    intros r. destruct r; reflexivity.
  - apply (proj1 (proj2 (proj2 validator_reports_first_violated_rule)));
      reflexivity.
Defined.

(** C3.  With the flux left at "default" the resolved flux is "hlle"
    under general relativity, else "hlld" with magnetism, else "hlle" for
    the isothermal EOS, else "hllc"; no other option is touched and an
    explicit flux is left as it is.  The option set
    {flux: default, b: true, eos: adiabatic}, general relativity being
    off, resolves to RSOLVER "hlld", NWAVE_VALUE "7" and
    NFIELD_VARIABLES "3". *)
Theorem default_flux_priority_chain :
  (forall a : Args,
      flux a = "default" ->
      set_default_flux a =
      with_flux a (if g a then "hlle"
                   else if b a then "hlld"
                   else if eos a =? "isothermal" then "hlle"
                   else "hllc")) /\
  (forall a : Args, flux a <> "default" -> set_default_flux a = a) /\
  (forall a : Args,
      valid_args a ->
      flux a = "default" -> b a = true -> eos a = "adiabatic" -> g a = false ->
      flux (set_default_flux a) = "hlld" /\
      forall c, configure a = OK c ->
        dict_get (definitions c) "RSOLVER" = Some "hlld" /\
        dict_get (definitions c) "NWAVE_VALUE" = Some "7" /\
        dict_get (definitions c) "NFIELD_VARIABLES" = Some "3") /\
  (exists c,
      configure mhd_args = OK c /\
      dict_get (definitions c) "RSOLVER" = Some "hlld" /\
      dict_get (definitions c) "NWAVE_VALUE" = Some "7" /\
      dict_get (definitions c) "NFIELD_VARIABLES" = Some "3").
Proof.
  split; [|split; [|split]].
  - intros a H. unfold set_default_flux. rewrite H. cbn.
    now destruct (g a), (b a), (eos a =? "isothermal").
  - intros a H. unfold set_default_flux.
    apply String.eqb_neq in H. now rewrite H.
  - intros a Hv Hf Hb He Hg.
    assert (Ha : set_default_flux a = with_flux a "hlld").
    { unfold set_default_flux. now rewrite Hf, Hg, Hb. }
    split; [now rewrite Ha|].
    intros c Hc. destruct (configure_inv _ _ Hv Hc) as [_ ->].
    rewrite Ha. cbn. unfold nwave_value, nfield_variables. cbn.
    now rewrite Hb, He.
  - eexists. split; [vm_compute; reflexivity|].
    repeat split.
Qed.

Lemma default_flux_priority_chain_witness :
  flux default_args = "default" /\
  flux schwarzschild_args <> "default" /\
  valid_args mhd_args /\
  set_default_flux default_args = with_flux default_args "hllc" /\
  set_default_flux schwarzschild_args = schwarzschild_args /\
  flux (set_default_flux mhd_args) = "hlld".
Proof.
  assert (Hv : valid_args mhd_args) by (unfold valid_args; cbn; tauto).
  split; [reflexivity|].
  split; [discriminate|].
  split; [exact Hv|].
  split; [|split].
  - apply (proj1 default_flux_priority_chain default_args). reflexivity.
  - apply (proj1 (proj2 default_flux_priority_chain) schwarzschild_args).
    discriminate.
  - exact (proj1 (proj1 (proj2 (proj2 default_flux_priority_chain))
                    mhd_args Hv eq_refl eq_refl eq_refl eq_refl)).
Defined.

(** C4.  Step 2 chooses the default flux and then runs the tests on the
    result.  When the flux was left at "default" the chosen flux violates
    none of the rules that mention the flux (1, 2, 3 and 6), so a
    rejection of such an option set reports rule 4, 5, 7, 8 or 9. *)
Theorem default_flux_never_rejected :
  (forall a : Args,
      step2 a =
      rbind (check_compatibility (set_default_flux a))
            (fun _ => OK (set_default_flux a))) /\
  (forall a : Args,
      flux a = "default" ->
      violates R1 (set_default_flux a) = false /\
      violates R2 (set_default_flux a) = false /\
      violates R3 (set_default_flux a) = false /\
      violates R6 (set_default_flux a) = false) /\
  (forall (a : Args) (e : exn),
      flux a = "default" ->
      step2 a = Raise e ->
      exists r,
        In r [R4; R5; R7; R8; R9] /\
        violates r (set_default_flux a) = true /\
        e = SystemExit (rule_message r (set_default_flux a))).
Proof.
  assert (Hflux : forall a, flux a = "default" ->
            violates R1 (set_default_flux a) = false /\
            violates R2 (set_default_flux a) = false /\
            violates R3 (set_default_flux a) = false /\
            violates R6 (set_default_flux a) = false).
  { intros a H. unfold set_default_flux. rewrite H. cbn [String.eqb Ascii.eqb Bool.eqb].
    destruct (g a) eqn:Hg, (b a) eqn:Hb, (eos a =? "isothermal") eqn:He;
      cbn; rewrite ?Hg, ?Hb, ?He; cbn; destruct (t a); auto. }
  split; [reflexivity|]. split; [exact Hflux|].
  intros a e H Hs. rewrite step2_first_violated in Hs.
  destruct (first_violated (set_default_flux a)) as [r|] eqn:E; [|discriminate].
  inversion Hs; subst e. exists r.
  destruct (first_violated_earliest _ _ E) as [Hr _].
  destruct (Hflux a H) as (N1 & N2 & N3 & N6).
  split; [|split; [exact Hr|reflexivity]].
  destruct r; cbn; try tauto; congruence.
Qed.

Lemma default_flux_never_rejected_witness :
  flux default_args = "default" /\
  violates R1 (set_default_flux default_args) = false /\
  violates R2 (set_default_flux default_args) = false /\
  violates R3 (set_default_flux default_args) = false /\
  violates R6 (set_default_flux default_args) = false.
Proof.
  split; [reflexivity|].
  apply (proj1 (proj2 default_flux_never_rejected) default_args).
  reflexivity.
Defined.

(** C2.  For every validated option set the derived counts follow the
    table over the EOS and magnetism: NHYDRO_VARIABLES is "5" for
    adiabatic and "4" for isothermal, NFIELD_VARIABLES is "3" with
    magnetism and "0" without, and NWAVE_VALUE is "7", "6", "5", "4" for
    adiabatic MHD, isothermal MHD, adiabatic hydro, isothermal hydro. *)
Theorem variable_counts_table (a : Args) :
  validated a ->
  exists c,
    configure a = OK c /\
    (eos a = "adiabatic" \/ eos a = "isothermal") /\
    (eos a = "adiabatic" ->
       dict_get (definitions c) "NHYDRO_VARIABLES" = Some "5") /\
    (eos a = "isothermal" ->
       dict_get (definitions c) "NHYDRO_VARIABLES" = Some "4") /\
    dict_get (definitions c) "NFIELD_VARIABLES"
      = Some (if b a then "3" else "0") /\
    (eos a = "adiabatic" -> b a = true ->
       dict_get (definitions c) "NWAVE_VALUE" = Some "7") /\
    (eos a = "isothermal" -> b a = true ->
       dict_get (definitions c) "NWAVE_VALUE" = Some "6") /\
    (eos a = "adiabatic" -> b a = false ->
       dict_get (definitions c) "NWAVE_VALUE" = Some "5") /\
    (eos a = "isothermal" -> b a = false ->
       dict_get (definitions c) "NWAVE_VALUE" = Some "4").
Proof.
  intros Hval. exists (resolved (set_default_flux a)).
  split; [now apply validated_resolved|].
  destruct Hval as [(_ & He & _) _].
  destruct (set_default_flux_shape a) as [f ->].
  cbn. unfold nhydro_variables, nfield_variables, nwave_value. cbn.
  split; [cbn in He; intuition congruence|].
  repeat split; intros; repeat match goal with H : _ = _ |- _ => rewrite H end;
    reflexivity.
Qed.

Lemma variable_counts_table_witness :
  validated schwarzschild_args /\
  exists c,
    configure schwarzschild_args = OK c /\
    dict_get (definitions c) "NHYDRO_VARIABLES" = Some "5" /\
    dict_get (definitions c) "NFIELD_VARIABLES" = Some "3" /\
    dict_get (definitions c) "NWAVE_VALUE" = Some "7".
Proof.
  assert (Hv : validated schwarzschild_args).
  { split; [unfold valid_args; cbn; tauto|reflexivity]. }
  split; [exact Hv|].
  destruct (variable_counts_table schwarzschild_args Hv)
    as (c & Hc & _ & H5 & _ & Hf & H7 & _).
  exists c. split; [exact Hc|].
  split; [apply H5; reflexivity|].
  split; [exact Hf|apply H7; reflexivity].
Defined.

(** C5.  For every validated option set the source-file names are
    composed in order, magnetism before relativity, with ".cpp" last:
    EOS_FILE is the EOS name, "_mhd" or "_hydro", "_sr" or "_gr" under
    special or general relativity, ".cpp"; RSOLVER_FILE is the resolved
    flux name, "_mhd" only with magnetism and one of hlle, llf, roe,
    "_iso" only for hlld with the isothermal EOS and magnetism, "_rel"
    under either relativity flag followed by "_no_transform" under
    general relativity without frame transformations, ".cpp". *)
Theorem source_file_names (a : Args) :
  validated a ->
  exists c,
    configure a = OK c /\
    dict_get (makefile_options c) "EOS_FILE" =
      Some (eos a
            ++ (if b a then "_mhd" else "_hydro")
            ++ (if s a then "_sr" else if g a then "_gr" else "")
            ++ ".cpp") /\
    dict_get (makefile_options c) "RSOLVER_FILE" =
      Some (flux (set_default_flux a)
            ++ (if b a && py_in (flux (set_default_flux a)) ["hlle"; "llf"; "roe"]
                then "_mhd" else "")
            ++ (if (flux (set_default_flux a) =? "hlld")
                   && (eos a =? "isothermal") && b a
                then "_iso" else "")
            ++ (if s a || g a
                then "_rel" ++ (if g a && negb (t a) then "_no_transform" else "")
                else "")
            ++ ".cpp").
Proof.
  intros Hval. exists (resolved (set_default_flux a)).
  split; [now apply validated_resolved|].
  destruct Hval as [(_ & He & Hf & _) Hc].
  pose proof (check_ok_no_violation _ Hc R4) as H4.
  clear Hc. revert H4.
  destruct a as [vprob vcoord veos vflux vorder vfint vb vs vg vt vsh
                 vdebug vmpi vomp vhdf5 vpath vcxx vccmd vinclude vlib].
  cbn [eos flux] in He, Hf. enumerate_choices;
    destruct vb, vs, vg, vt; intros H4; vm_compute in H4;
    try discriminate H4; vm_compute; split; reflexivity.
Qed.

Lemma source_file_names_witness :
  validated schwarzschild_args /\
  exists c,
    configure schwarzschild_args = OK c /\
    dict_get (makefile_options c) "EOS_FILE" = Some "adiabatic_mhd_gr.cpp" /\
    dict_get (makefile_options c) "RSOLVER_FILE" = Some "hlle_mhd_rel.cpp".
Proof.
  assert (Hv : validated schwarzschild_args).
  { split; [unfold valid_args; cbn; tauto|reflexivity]. }
  split; [exact Hv|].
  destruct (source_file_names schwarzschild_args Hv) as (c & Hc & He & Hr).
  exists c. split; [exact Hc|split; [exact He|exact Hr]].
Defined.

(** C6, as the code has it.  Take a mapping whose keys hold no [@] and
    no metacharacter and whose values hold no [@] and no backslash, and a
    template read as literal text and placeholders [@NAME@] such that no
    text between two delimiters [@] other than the name of a placeholder
    is a key, also when the placeholders inside that text are replaced
    by their values.  Then the loop gives the template with every
    placeholder whose name is a key replaced by exactly the mapped value
    and every other placeholder, and all literal text, left as it is;
    placeholders may stand side by side and literal text may hold [@].
    When the literal text holds no [@] and every placeholder name is a
    key, the output contains no [@], so no delimiter-wrapped token.  A
    run, however it ends, leaves the two template files as they were. *)
Theorem substitute_well_formed_template (items : dict) (ps : list piece) :
  literal_items items = true ->
  unambiguous items ps = true ->
  substitute items (render ps) = OK (render (map (fill items) ps)) /\
  (plain_literals ps = true ->
   (forall name, In name (hole_names ps) -> In name (dict_keys items)) ->
   contains_char "@" (render (map (fill items) ps)) = false /\
   tokens (render (map (fill items) ps)) = []) /\
  (forall (cl : CommandLine) (w w' : World) (r : result unit),
      main cl w = (r, w') ->
      dict_get (files w') defsfile_input = dict_get (files w) defsfile_input /\
      dict_get (files w') makefile_input = dict_get (files w) makefile_input).
Proof.
  intros Hlit Hok. split; [|split].
  - now apply substitute_unambiguous.
  - intros Hpl Hnames.
    assert (H : contains_char "@" (render (map (fill items) ps)) = false)
      by (now apply render_fill_plain).
    split; [exact H|now apply tokens_no_at].
  - intros cl w w' r H.
    split; apply (main_keeps_other_files cl w w' r _ H); discriminate.
Qed.

Lemma substitute_well_formed_template_witness :
  literal_items (makefile_options (resolved (set_default_flux default_args))) = true /\
  unambiguous
    (makefile_options (resolved (set_default_flux default_args)))
    sample_makefile_template = true /\
  substitute (makefile_options (resolved (set_default_flux default_args)))
    "CXX := @COMPILER_COMMAND@ @COMPILER_FLAGS@ RSOLVER := @RSOLVER_DIR@@RSOLVER_FILE@ # @NOT_A_KEY@ user@host"
  = OK "CXX := g++ -O3 -march=native -ffast-math RSOLVER := hydro/hllc.cpp # @NOT_A_KEY@ user@host".
Proof.
  split; [reflexivity|]. split; [reflexivity|].
  exact (proj1 (substitute_well_formed_template
                  (makefile_options (resolved (set_default_flux default_args)))
                  sample_makefile_template eq_refl eq_refl)).
Defined.

(** C6 as stated fails on the Makefile options of a default run, whose
    first key LOADER_FLAGS has the empty value.  In
    [@PROBLEM_FILE@LOADER_FLAGS@EOS_FILE@] every token name is a key and
    no value contains [@], yet the pass for LOADER_FLAGS consumes the
    delimiters of its neighbours and the output keeps the token
    [@PROBLEM_FILEEOS_FILE@]; in [@FOO@LOADER_FLAGS@BAR@] the tokens
    [@FOO@] and [@BAR@], whose names are no keys, are not left as they
    were. *)
Lemma substitute_tokens_counterexample :
  exists c,
    configure default_args = OK c /\
    (forall name,
        In name (tokens "@PROBLEM_FILE@LOADER_FLAGS@EOS_FILE@") ->
        In name (dict_keys (makefile_options c))) /\
    forallb (fun item => negb (contains_char "@" (snd item))
                         && negb (contains_char backslash (snd item)))
            (makefile_options c) = true /\
    substitute (makefile_options c) "@PROBLEM_FILE@LOADER_FLAGS@EOS_FILE@"
      = OK "@PROBLEM_FILEEOS_FILE@" /\
    tokens "@PROBLEM_FILEEOS_FILE@" = ["PROBLEM_FILEEOS_FILE"] /\
    ~ In "FOO" (dict_keys (makefile_options c)) /\
    ~ In "BAR" (dict_keys (makefile_options c)) /\
    substitute (makefile_options c) "@FOO@LOADER_FLAGS@BAR@" = OK "@FOOBAR@" /\
    occurs "@FOO@" "@FOOBAR@" = false /\
    occurs "@BAR@" "@FOOBAR@" = false.
Proof.
  eexists. split; [vm_compute; reflexivity|].
  split.
  { intros name H. vm_compute in H. vm_compute.
    repeat match goal with H : _ \/ _ |- _ => destruct H as [H|H] end;
      try contradiction; subst; tauto. }
  split; [reflexivity|]. split; [reflexivity|]. split; [reflexivity|].
  split.
  { intros H. vm_compute in H.
    repeat match goal with H : _ \/ _ |- _ => destruct H as [H|H] end;
      try contradiction; discriminate. }
  split.
  { intros H. vm_compute in H.
    repeat match goal with H : _ \/ _ |- _ => destruct H as [H|H] end;
      try contradiction; discriminate. }
  repeat split.
Qed.

(** A value with a backslash is not inserted as it is: [re.sub] reads
    the replacement as a template. *)
Example re_sub_backslash_value :
  re_sub "@COMPILER_COMMAND@" "x\\y" "CXX := @COMPILER_COMMAND@"
    = OK "CXX := x\y" /\
  re_sub "@COMPILER_COMMAND@" "C:\mingw\bin\g++" "CXX := @COMPILER_COMMAND@"
    = Raise (ReError "bad escape").
Proof. split; reflexivity. Qed.

(** C7.  With the debug toggle set and no --include argument, the
    COMPILER_FLAGS of the Makefile options start with the debug string of
    the selected compiler ("-O0 -g" for g++ and icc, "-O0" for cray,
    "-O0 -g -qlanglvl=extended" for bgxl, "-O0 -g -xMIC-AVX512" for
    icc-phi) and contain neither "-O3" nor the optimization flag string
    the compiler selection had bound: the string is overwritten, not
    appended to, and what follows the debug string are the MPI and OpenMP
    additions only. *)
Theorem debug_overrides_compiler_flags (a : Args) :
  validated a -> debug a = true -> include a = [] ->
  exists c flags,
    configure a = OK c /\
    dict_get (makefile_options c) "COMPILER_FLAGS" = Some flags /\
    flags =
      (if (cxx a =? "g++") || (cxx a =? "icc") then "-O0 -g"
       else if cxx a =? "cray" then "-O0"
       else if cxx a =? "bgxl" then "-O0 -g -qlanglvl=extended"
       else "-O0 -g -xMIC-AVX512")
      ++ mpi_flags a ++ omp_flags a /\
    String.prefix
      (if (cxx a =? "g++") || (cxx a =? "icc") then "-O0 -g"
       else if cxx a =? "cray" then "-O0"
       else if cxx a =? "bgxl" then "-O0 -g -qlanglvl=extended"
       else "-O0 -g -xMIC-AVX512")
      flags = true /\
    occurs "-O3" flags = false /\
    occurs (optimization_flags a) flags = false.
Proof.
  intros Hval Hd Hi. exists (resolved (set_default_flux a)).
  exists (compiler_flags (set_default_flux a)).
  split; [now apply validated_resolved|].
  split; [reflexivity|].
  destruct Hval as [(_ & _ & _ & _ & _ & Hx) _].
  destruct (set_default_flux_shape a) as [f ->].
  destruct a as [vprob vcoord veos vflux vorder vfint vb vs vg vt vsh
                 vdebug vmpi vomp vhdf5 vpath vcxx vccmd vinclude vlib].
  cbn [cxx debug include] in Hx, Hd, Hi. subst vdebug vinclude.
  enumerate_choices; destruct vmpi, vomp; vm_compute; auto.
Qed.

Lemma debug_overrides_compiler_flags_witness :
  validated phi_debug_args /\ debug phi_debug_args = true /\
  include phi_debug_args = [] /\
  exists c flags,
    configure phi_debug_args = OK c /\
    dict_get (makefile_options c) "COMPILER_FLAGS" = Some flags /\
    String.prefix "-O0 -g -xMIC-AVX512" flags = true /\
    occurs "-O3" flags = false.
Proof.
  assert (Hv : validated phi_debug_args).
  { split; [unfold valid_args; cbn; tauto|reflexivity]. }
  split; [exact Hv|]. split; [reflexivity|]. split; [reflexivity|].
  destruct (debug_overrides_compiler_flags phi_debug_args Hv eq_refl eq_refl)
    as (c & flags & Hc & Hf & _ & Hp & Ho & _).
  exists c, flags. repeat split; assumption.
Defined.

(** C8.  For every validated option set the string stored under
    COMPILER_FLAGS in the definitions is the preprocessor, compiler,
    linker and library flag strings of the Makefile options, in that
    order, joined by single spaces. *)
Theorem aggregate_flags_order (a : Args) :
  validated a ->
  exists c preprocessor compiler linker library,
    configure a = OK c /\
    dict_get (makefile_options c) "PREPROCESSOR_FLAGS" = Some preprocessor /\
    dict_get (makefile_options c) "COMPILER_FLAGS" = Some compiler /\
    dict_get (makefile_options c) "LINKER_FLAGS" = Some linker /\
    dict_get (makefile_options c) "LIBRARY_FLAGS" = Some library /\
    dict_get (definitions c) "COMPILER_FLAGS"
      = Some (preprocessor ++ " " ++ compiler ++ " " ++ linker ++ " " ++ library).
Proof.
  intros Hval. exists (resolved (set_default_flux a)).
  do 4 eexists.
  split; [now apply validated_resolved|].
  repeat split; reflexivity.
Qed.

Lemma aggregate_flags_order_witness :
  validated cray_hdf5_lib_args /\
  exists c,
    configure cray_hdf5_lib_args = OK c /\
    dict_get (definitions c) "COMPILER_FLAGS"
      = Some ("-I/opt/hdf5/include"
              ++ " " ++ "-O3 -h aggress -h vector3 -hfp3 -hnoomp"
              ++ " " ++ "-hwp -hpl=obj/lib-L/opt/hdf5/lib -L/usr/lib64"
              ++ " " ++ "-lm -lhdf5").
Proof.
  assert (Hv : validated cray_hdf5_lib_args).
  { split; [unfold valid_args; cbn; tauto|reflexivity]. }
  split; [exact Hv|].
  destruct (aggregate_flags_order cray_hdf5_lib_args Hv)
    as (c & p & k & l & y & Hc & Hp & Hk & Hl & Hy & Hall).
  exists c. split; [exact Hc|].
  rewrite Hall. vm_compute in Hc.
  inversion Hc; subst c.
  vm_compute in Hp, Hk, Hl, Hy.
  inversion Hp; inversion Hk; inversion Hl; inversion Hy.
  reflexivity.
Defined.

(** C9.  A run whose command line argparse rejects (a value outside the
    choices, an option without its value, a switch with a value, an
    ambiguous abbreviation, an unrecognized argument), or whose options
    violate a compatibility rule, ends with that error and leaves the
    world as it was: no file is opened for writing and no file content
    changes.  A run that completes has opened exactly the two output
    files, the definitions file first. *)
Theorem rejected_run_writes_nothing (cl : CommandLine) (w : World) :
  (forall e, parse_args (pgen_choices w) cl = Raise e ->
             main cl w = (Raise e, w)) /\
  (forall a r,
      parse_args (pgen_choices w) cl = OK a ->
      violates r (set_default_flux a) = true ->
      exists r0,
        violates r0 (set_default_flux a) = true /\
        main cl w =
        (Raise (SystemExit (rule_message r0 (set_default_flux a))), w)) /\
  (forall w', main cl w = (OK tt, w') ->
     opened_for_writing w' =
     (opened_for_writing w ++ [defsfile_output; makefile_output])%list).
Proof.
  split; [|split].
  - intros e He. now apply main_parse_error.
  - intros a r Hp Hr.
    destruct (first_violated (set_default_flux a)) as [r0|] eqn:E.
    + exists r0. split; [now apply first_violated_earliest in E|].
      apply (main_step2_error cl w a _ Hp).
      rewrite check_first_violated. now rewrite E.
    + rewrite (first_violated_none _ E r) in Hr. discriminate.
  - intros w' H.
    destruct (main_worlds cl w w' (OK tt) H)
      as [[_ Hne]|[(dout & _ & Hr)|(dout & mout & lines & -> & _)]];
      [congruence|discriminate Hr|].
    unfold printed, written. cbn [opened_for_writing].
    now rewrite <- app_assoc.
Qed.

Lemma rejected_run_writes_nothing_witness :
  (exists r0,
     violates r0 (set_default_flux
        (mkArgs "shock_tube" "cartesian" "isothermal" "hllc" "plm" "vl2"
           true false false false false false false false false
           "" "g++" None [] [])) = true /\
     main [Valued "--eos" "isothermal"; Valued "--flux" "hllc"; Bare "-b"]
          sample_world
     = (Raise (SystemExit (rule_message r0 (set_default_flux
          (mkArgs "shock_tube" "cartesian" "isothermal" "hllc" "plm" "vl2"
             true false false false false false false false false
             "" "g++" None [] [])))),
        sample_world)) /\
  main [Valued "--eos" "polytropic"] sample_world
  = (Raise (ArgumentError "--eos" "polytropic"), sample_world) /\
  main [Bare "-b"; Bare "--nonsense"; Bare "--prob"] sample_world
  = (Raise (ExpectedArgument "--prob"), sample_world) /\
  main [Bare "-b"; Bare "--nonsense"; Stray "extra"] sample_world
  = (Raise (UnrecognizedArguments ["--nonsense"; "extra"]), sample_world).
Proof.
  split; [|split; [|split]].
  - apply (proj1 (proj2 (rejected_run_writes_nothing _ _)) _ R2);
      reflexivity.
  - apply (proj1 (rejected_run_writes_nothing _ _)). reflexivity.
  - apply (proj1 (rejected_run_writes_nothing _ _)). reflexivity.
  - apply (proj1 (rejected_run_writes_nothing _ _)). reflexivity.
Defined.

(** C10, as the code has it.  With HDF5 output enabled and a non-empty
    hdf5_path, "-I<path>/include" and "-L<path>/lib" are appended to the
    PREPROCESSOR_FLAGS and LINKER_FLAGS the compiler selection had bound,
    with no separating space (then the bgxl additions, if any); the
    resolved LINKER_FLAGS continue with " -L<dir>" for every --lib
    argument.  For cray they are "-hwp -hpl=obj/lib" immediately followed
    by "-L<path>/lib" and then the --lib directories, and exactly the two
    fragments when no --lib argument is given. *)
Theorem hdf5_path_flags_concatenated (a : Args) :
  validated a -> hdf5 a = true -> hdf5_path a <> "" ->
  exists c,
    configure a = OK c /\
    dict_get (makefile_options c) "PREPROCESSOR_FLAGS" =
      Some ("" ++ ("-I" ++ hdf5_path a ++ "/include")
            ++ (if cxx a =? "bgxl" then bgxl_hdf5_includes else "")) /\
    dict_get (makefile_options c) "LINKER_FLAGS" =
      Some (base_linker_flags a ++ ("-L" ++ hdf5_path a ++ "/lib")
            ++ (if cxx a =? "bgxl" then bgxl_hdf5_libdirs else "")
            ++ String.concat "" (map (fun dir => " -L" ++ dir) (lib a))) /\
    (cxx a = "cray" ->
     dict_get (makefile_options c) "LINKER_FLAGS" =
       Some ("-hwp -hpl=obj/lib" ++ ("-L" ++ hdf5_path a ++ "/lib")
             ++ String.concat "" (map (fun dir => " -L" ++ dir) (lib a)))) /\
    (cxx a = "cray" -> lib a = [] ->
     dict_get (makefile_options c) "LINKER_FLAGS" =
       Some ("-hwp -hpl=obj/lib" ++ ("-L" ++ hdf5_path a ++ "/lib"))).
Proof.
  intros Hval Hh Hp. exists (resolved (set_default_flux a)).
  split; [now apply validated_resolved|].
  rewrite resolved_preprocessor_flags, resolved_linker_flags.
  destruct (set_default_flux_shape a) as [f ->].
  unfold preprocessor_flags, linker_flags, linker_flags_base, hdf5_with_path,
    base_linker_flags.
  cbn [with_flux hdf5 hdf5_path cxx lib].
  apply String.eqb_neq in Hp. rewrite Hh, Hp. cbn [andb negb app_if].
  rewrite fold_left_append.
  assert (Hlink : forall tail,
    app_if (cxx a =? "bgxl")
      ((if cxx a =? "cray" then "-hwp -hpl=obj/lib"
        else if cxx a =? "bgxl" then bgxl_optimization_flags else "")
       ++ "-L" ++ hdf5_path a ++ "/lib") bgxl_hdf5_libdirs
    ++ tail
    = (if cxx a =? "cray" then "-hwp -hpl=obj/lib"
       else if cxx a =? "bgxl" then bgxl_optimization_flags else "")
      ++ ("-L" ++ hdf5_path a ++ "/lib")
      ++ (if cxx a =? "bgxl" then bgxl_hdf5_libdirs else "")
      ++ tail).
  { intros tail. unfold app_if.
    destruct (cxx a =? "bgxl"); now rewrite !append_assoc. }
  split; [|split; [|split]].
  - unfold app_if. destruct (cxx a =? "bgxl");
      now rewrite ?append_assoc, ?append_nil_r.
  - f_equal. apply Hlink.
  - intros Hx. rewrite Hlink, Hx. reflexivity.
  - intros Hx Hl. rewrite Hlink, Hx, Hl.
    cbn [map String.concat String.eqb Ascii.eqb Bool.eqb].
    now rewrite !append_nil_r.
Qed.

Lemma hdf5_path_flags_concatenated_witness :
  validated cray_hdf5_lib_args /\
  hdf5 cray_hdf5_lib_args = true /\
  hdf5_path cray_hdf5_lib_args <> "" /\
  exists c,
    configure cray_hdf5_lib_args = OK c /\
    dict_get (makefile_options c) "PREPROCESSOR_FLAGS" =
      Some "-I/opt/hdf5/include" /\
    dict_get (makefile_options c) "LINKER_FLAGS" =
      Some "-hwp -hpl=obj/lib-L/opt/hdf5/lib -L/usr/lib64".
Proof.
  assert (Hv : validated cray_hdf5_lib_args).
  { split; [unfold valid_args; cbn; tauto|reflexivity]. }
  assert (Hp : hdf5_path cray_hdf5_lib_args <> "") by discriminate.
  split; [exact Hv|]. split; [reflexivity|]. split; [exact Hp|].
  destruct (hdf5_path_flags_concatenated cray_hdf5_lib_args Hv eq_refl Hp)
    as (c & Hc & Hpre & Hlink & _).
  exists c. split; [exact Hc|]. split; [exact Hpre|exact Hlink].
Defined.

(** C10 as stated fails when a --lib argument is given: the resolved
    LINKER_FLAGS of a cray build are then longer than the two
    fragments. *)
Lemma hdf5_linker_flags_counterexample :
  validated cray_hdf5_lib_args /\
  hdf5 cray_hdf5_lib_args = true /\
  hdf5_path cray_hdf5_lib_args = "/opt/hdf5" /\
  cxx cray_hdf5_lib_args = "cray" /\
  exists c,
    configure cray_hdf5_lib_args = OK c /\
    dict_get (makefile_options c) "LINKER_FLAGS" =
      Some "-hwp -hpl=obj/lib-L/opt/hdf5/lib -L/usr/lib64" /\
    dict_get (makefile_options c) "LINKER_FLAGS" <>
      Some ("-hwp -hpl=obj/lib" ++ "-L" ++ "/opt/hdf5" ++ "/lib").
Proof.
  split; [split; [unfold valid_args; cbn; tauto|reflexivity]|].
  repeat (split; [reflexivity|]).
  eexists. split; [vm_compute; reflexivity|].
  split; [reflexivity|discriminate].
Qed.
(* ================================================================== *)
(** * Further properties of the code *)

Lemma validated_schwarzschild : validated schwarzschild_args.
Proof. split; [unfold valid_args; cbn; tauto|reflexivity]. Qed.

Lemma validated_bgxl_parallel : validated bgxl_parallel_args.
Proof. split; [unfold valid_args; cbn; tauto|reflexivity]. Qed.

Lemma validated_bgxl_debug : validated bgxl_debug_args.
Proof. split; [unfold valid_args; cbn; tauto|reflexivity]. Qed.

Lemma validated_cray_hdf5_lib : validated cray_hdf5_lib_args.
Proof. split; [unfold valid_args; cbn; tauto|reflexivity]. Qed.

(** X1.  Whatever the options, a validated option set resolves to the
    same keys in the same order: twenty-one definitions and thirteen
    Makefile options. *)
Theorem resolved_keys_fixed (a : Args) :
  validated a ->
  exists c,
    configure a = OK c /\
    dict_keys (definitions c) = definition_names /\
    dict_keys (makefile_options c) = makefile_option_names.
Proof.
  intros Hv. exists (resolved (set_default_flux a)).
  split; [now apply validated_resolved|]. split; reflexivity.
Qed.

Lemma resolved_keys_fixed_witness :
  validated bgxl_parallel_args /\
  exists c,
    configure bgxl_parallel_args = OK c /\
    dict_keys (definitions c) = definition_names /\
    dict_keys (makefile_options c) = makefile_option_names.
Proof.
  split; [exact validated_bgxl_parallel|].
  exact (resolved_keys_fixed bgxl_parallel_args validated_bgxl_parallel).
Defined.

(** X2.  The two dictionaries always agree on COMPILER_COMMAND, and a
    [--ccmd] argument is that command, whatever MPI and OpenMP would have
    chosen. *)
Theorem compiler_command_agrees (a : Args) :
  validated a ->
  exists c command,
    configure a = OK c /\
    dict_get (definitions c) "COMPILER_COMMAND" = Some command /\
    dict_get (makefile_options c) "COMPILER_COMMAND" = Some command /\
    (forall name, ccmd a = Some name -> command = name).
Proof.
  intros Hv. exists (resolved (set_default_flux a)).
  exists (compiler_command (set_default_flux a)).
  split; [now apply validated_resolved|].
  split; [reflexivity|]. split; [reflexivity|].
  intros name Hn. destruct (set_default_flux_shape a) as [f ->].
  unfold compiler_command. cbn [ccmd with_flux]. now rewrite Hn.
Qed.

Lemma compiler_command_agrees_witness :
  validated bgxl_parallel_args /\
  exists c,
    configure bgxl_parallel_args = OK c /\
    dict_get (definitions c) "COMPILER_COMMAND" = Some "mpixlcxx_r" /\
    dict_get (makefile_options c) "COMPILER_COMMAND" = Some "mpixlcxx_r".
Proof.
  split; [exact validated_bgxl_parallel|].
  destruct (compiler_command_agrees bgxl_parallel_args validated_bgxl_parallel)
    as (c & command & Hc & Hd & Hm & _).
  exists c. split; [exact Hc|].
  assert (E : command = "mpixlcxx_r").
  { vm_compute in Hc. inversion Hc. subst c. vm_compute in Hd.
    now inversion Hd. }
  rewrite <- E. split; assumption.
Defined.

(** X3.  Without [--ccmd] the compiler command is the compiler's own
    (g++, icc, CC, bgxlc++, icc) unless MPI is on, which makes it mpicxx
    for g++, icc and icc-phi and mpixlcxx for bgxl and leaves CC for
    cray; OpenMP adds "_r" for bgxl only. *)
Theorem compiler_command_table (a : Args) :
  validated a -> ccmd a = None ->
  exists c,
    configure a = OK c /\
    dict_get (makefile_options c) "COMPILER_COMMAND" =
      Some ((if cxx a =? "cray" then "CC"
             else if mpi a then (if cxx a =? "bgxl" then "mpixlcxx" else "mpicxx")
             else if cxx a =? "bgxl" then "bgxlc++"
             else if cxx a =? "g++" then "g++"
             else "icc")
            ++ (if omp a && (cxx a =? "bgxl") then "_r" else "")).
Proof.
  intros Hv Hn. exists (resolved (set_default_flux a)).
  split; [now apply validated_resolved|].
  destruct Hv as [(_ & _ & _ & _ & _ & Hx) _].
  destruct (set_default_flux_shape a) as [f ->].
  destruct a as [vprob vcoord veos vflux vorder vfint vb vs vg vt vsh
                 vdebug vmpi vomp vhdf5 vpath vcxx vccmd vinclude vlib].
  cbn [cxx ccmd] in Hx, Hn. subst vccmd.
  enumerate_choices; destruct vmpi, vomp; reflexivity.
Qed.

Lemma compiler_command_table_witness :
  validated schwarzschild_args /\ ccmd schwarzschild_args = None /\
  exists c,
    configure schwarzschild_args = OK c /\
    dict_get (makefile_options c) "COMPILER_COMMAND" = Some "g++".
Proof.
  split; [exact validated_schwarzschild|]. split; [reflexivity|].
  exact (compiler_command_table schwarzschild_args validated_schwarzschild
           eq_refl).
Defined.

(** X4.  The [--include] paths are appended to COMPILER_FLAGS last and
    in command-line order, each as " -I<path>", after the optimization or
    debug flags and the MPI and OpenMP additions. *)
Theorem include_paths_appended (a : Args) :
  validated a ->
  exists c,
    configure a = OK c /\
    dict_get (makefile_options c) "COMPILER_FLAGS" =
      Some (((if debug a then debug_flags a else optimization_flags a)
             ++ mpi_flags a ++ omp_flags a)
            ++ String.concat "" (map (fun path => " -I" ++ path) (include a))).
Proof.
  intros Hv. exists (resolved (set_default_flux a)).
  split; [now apply validated_resolved|].
  destruct (set_default_flux_shape a) as [f ->].
  change (dict_get (makefile_options (resolved (with_flux a f))) "COMPILER_FLAGS")
    with (Some (compiler_flags (with_flux a f))).
  unfold compiler_flags. rewrite fold_left_append. reflexivity.
Qed.

Lemma include_paths_appended_witness :
  validated bgxl_parallel_args /\
  exists c,
    configure bgxl_parallel_args = OK c /\
    dict_get (makefile_options c) "COMPILER_FLAGS" =
      Some "-O0 -g -qlanglvl=extended -qsmp -I/opt/a -I/opt/b".
Proof.
  split; [exact validated_bgxl_parallel|].
  exact (include_paths_appended bgxl_parallel_args validated_bgxl_parallel).
Defined.

(** X5.  Without [-hdf5] the [--hdf5_path] argument has no effect: the
    resolved configuration is the same whatever the path. *)
Theorem hdf5_path_ignored_without_hdf5 (a : Args) (p : string) :
  valid_args a -> hdf5 a = false ->
  configure (with_hdf5_path a p) = configure a.
Proof.
  intros Hv Hh.
  assert (Hflux : set_default_flux (with_hdf5_path a p)
                  = with_hdf5_path (set_default_flux a) p).
  { unfold set_default_flux. cbn [with_hdf5_path flux g b eos].
    now destruct (flux a =? "default"), (g a), (b a), (eos a =? "isothermal"). }
  assert (Hv' : valid_args (with_hdf5_path a p)) by exact Hv.
  unfold configure, step2. rewrite Hflux.
  change (check_compatibility (with_hdf5_path (set_default_flux a) p))
    with (check_compatibility (set_default_flux a)).
  destruct (check_compatibility (set_default_flux a)) as [[]|e];
    [|reflexivity].
  cbn [rbind].
  pose proof (set_default_flux_enumerated a Hv) as He.
  rewrite (run_config_resolved (set_default_flux a) He).
  rewrite (run_config_resolved (with_hdf5_path (set_default_flux a) p) He).
  f_equal.
  assert (Hh' : hdf5 (set_default_flux a) = false).
  { destruct (set_default_flux_shape a) as [f ->]. exact Hh. }
  revert Hh'. generalize (set_default_flux a) as a'. intros a' Hh'.
  unfold resolved, toolchain_definitions, parallel_definitions,
    toolchain_options, all_flags, preprocessor_flags, linker_flags,
    linker_flags_base, library_flags, hdf5_with_path.
  cbn [with_hdf5_path hdf5 hdf5_path cxx lib]. rewrite Hh'. reflexivity.
Qed.

Lemma hdf5_path_ignored_without_hdf5_witness :
  valid_args bgxl_parallel_args /\ hdf5 bgxl_parallel_args = false /\
  configure (with_hdf5_path bgxl_parallel_args "/somewhere/else")
  = configure bgxl_parallel_args.
Proof.
  split; [exact (proj1 validated_bgxl_parallel)|]. split; [reflexivity|].
  exact (hdf5_path_ignored_without_hdf5 bgxl_parallel_args "/somewhere/else"
           (proj1 validated_bgxl_parallel) eq_refl).
Defined.

(** X6.  The relativity macros of a resolved configuration are
    consistent with each other: GENERAL_RELATIVITY "1" implies
    RELATIVISTIC_DYNAMICS "1"; FRAME_TRANSFORMATIONS "1" implies
    GENERAL_RELATIVITY "1"; RELATIVISTIC_DYNAMICS "1" implies an
    adiabatic EOS (NON_BAROTROPIC_EOS "1"); and GENERAL_RELATIVITY is "1"
    exactly when COORDINATE_SYSTEM is none of cartesian, cylindrical,
    spherical_polar. *)
Theorem relativity_macros_consistent (a : Args) (c : Config) :
  validated a -> configure a = OK c ->
  (dict_get (definitions c) "GENERAL_RELATIVITY" = Some "1" ->
   dict_get (definitions c) "RELATIVISTIC_DYNAMICS" = Some "1") /\
  (dict_get (definitions c) "FRAME_TRANSFORMATIONS" = Some "1" ->
   dict_get (definitions c) "GENERAL_RELATIVITY" = Some "1") /\
  (dict_get (definitions c) "RELATIVISTIC_DYNAMICS" = Some "1" ->
   dict_get (definitions c) "NON_BAROTROPIC_EOS" = Some "1") /\
  (exists system,
      dict_get (definitions c) "COORDINATE_SYSTEM" = Some system /\
      (dict_get (definitions c) "GENERAL_RELATIVITY" = Some "1" <->
       py_in system flat_coords = false)).
Proof.
  intros Hv Hc. rewrite (validated_resolved a Hv) in Hc.
  inversion Hc; subst c; clear Hc.
  destruct Hv as [(_ & He & _) Hk].
  pose proof (check_ok_no_violation _ Hk) as Hr.
  pose proof (Hr R5) as H5. pose proof (Hr R7) as H7.
  pose proof (Hr R8) as H8. pose proof (Hr R9) as H9.
  clear Hr Hk. revert H5 H7 H8 H9.
  destruct (set_default_flux_shape a) as [f ->].
  cbn [violates with_flux s g t eos coord].
  change (dict_get (definitions (resolved (with_flux a f))) "GENERAL_RELATIVITY")
    with (Some (if g a then "1" else "0")).
  change (dict_get (definitions (resolved (with_flux a f))) "RELATIVISTIC_DYNAMICS")
    with (Some (if s a || g a then "1" else "0")).
  change (dict_get (definitions (resolved (with_flux a f))) "FRAME_TRANSFORMATIONS")
    with (Some (if t a then "1" else "0")).
  change (dict_get (definitions (resolved (with_flux a f))) "NON_BAROTROPIC_EOS")
    with (Some (if eos a =? "adiabatic" then "1" else "0")).
  change (dict_get (definitions (resolved (with_flux a f))) "COORDINATE_SYSTEM")
    with (Some (coord a)).
  intros H5 H7 H8 H9.
  assert (Hiso : (eos a =? "adiabatic") = negb (eos a =? "isothermal")).
  { cbn in He. destruct He as [<-|[<-|[]]]; reflexivity. }
  rewrite Hiso.
  split; [|split; [|split; [|exists (coord a); split; [reflexivity|]]]];
    destruct (s a), (g a), (t a), (eos a =? "isothermal"),
      (py_in (coord a) flat_coords);
    cbn [andb orb negb] in *;
    try discriminate H5; try discriminate H7; try discriminate H8;
    try discriminate H9;
    try (intros H; first [reflexivity | discriminate H]);
    (split; intros H; first [reflexivity | discriminate H]).
Qed.

Lemma relativity_macros_consistent_witness :
  validated schwarzschild_args /\
  exists c,
    configure schwarzschild_args = OK c /\
    dict_get (definitions c) "GENERAL_RELATIVITY" = Some "1" /\
    dict_get (definitions c) "RELATIVISTIC_DYNAMICS" = Some "1".
Proof.
  split; [exact validated_schwarzschild|].
  pose proof (validated_resolved _ validated_schwarzschild) as Hc.
  exists (resolved (set_default_flux schwarzschild_args)).
  split; [exact Hc|]. split; [reflexivity|].
  exact (proj1 (relativity_macros_consistent schwarzschild_args _
                  validated_schwarzschild Hc) eq_refl).
Defined.

(** X7.  The Makefile names the source files after the definitions: the
    problem, the coordinate system, the reconstruction and the
    integrator files are the defined names with ".cpp"; RSOLVER_FILE
    starts with the defined RSOLVER and ends in ".cpp"; and the solver
    directory is "mhd/" exactly when MAGNETIC_FIELDS_ENABLED is "1". *)
Theorem file_names_follow_definitions (a : Args) (c : Config) :
  validated a -> configure a = OK c ->
  exists problem system solver reconstruct integrator file,
    dict_get (definitions c) "PROBLEM" = Some problem /\
    dict_get (makefile_options c) "PROBLEM_FILE" = Some (problem ++ ".cpp") /\
    dict_get (definitions c) "COORDINATE_SYSTEM" = Some system /\
    dict_get (makefile_options c) "COORDINATES_FILE" = Some (system ++ ".cpp") /\
    dict_get (definitions c) "RECONSTRUCT" = Some reconstruct /\
    dict_get (makefile_options c) "RECONSTRUCT_FILE" = Some (reconstruct ++ ".cpp") /\
    dict_get (definitions c) "HYDRO_INTEGRATOR" = Some integrator /\
    dict_get (makefile_options c) "HYDRO_INT_FILE" = Some (integrator ++ ".cpp") /\
    dict_get (definitions c) "RSOLVER" = Some solver /\
    dict_get (makefile_options c) "RSOLVER_FILE" = Some file /\
    String.prefix solver file = true /\ ends_with ".cpp" file = true /\
    (dict_get (makefile_options c) "RSOLVER_DIR" = Some "mhd/" <->
     dict_get (definitions c) "MAGNETIC_FIELDS_ENABLED" = Some "1").
Proof.
  intros Hv Hc. rewrite (validated_resolved a Hv) in Hc.
  inversion Hc; subst c; clear Hc.
  pose proof (set_default_flux_enumerated a (proj1 Hv)) as (He & Hf & _).
  revert He Hf. generalize (set_default_flux a) as a'. intros a' He Hf.
  exists (prob a'), (coord a'), (flux a'), (order a'), (fint a'),
    (rsolver_file_stem a' ++ ".cpp").
  repeat (split; [reflexivity|]).
  destruct a' as [vprob vcoord veos vflux vorder vfint vb vs vg vt vsh
                  vdebug vmpi vomp vhdf5 vpath vcxx vccmd vinclude vlib].
  cbn [eos flux] in He, Hf. enumerate_choices;
    destruct vb, vs, vg, vt;
    (split; [reflexivity|split; [reflexivity|split; intros H;
       first [reflexivity | discriminate H]]]).
Qed.

Lemma file_names_follow_definitions_witness :
  validated schwarzschild_args /\
  exists c,
    configure schwarzschild_args = OK c /\
    dict_get (makefile_options c) "PROBLEM_FILE" = Some "gr_bondi.cpp" /\
    dict_get (makefile_options c) "RSOLVER_DIR" = Some "mhd/".
Proof.
  split; [exact validated_schwarzschild|].
  pose proof (validated_resolved _ validated_schwarzschild) as Hc.
  exists (resolved (set_default_flux schwarzschild_args)).
  split; [exact Hc|].
  destruct (file_names_follow_definitions schwarzschild_args _
              validated_schwarzschild Hc)
    as (p & y & r & k & i & f & Hp & Hpf & _ & _ & _ & _ & _ & _ & _ & _ & _ & _ & Hd).
  split; [reflexivity|]. apply Hd. reflexivity.
Defined.

(** X8.  The feature macros follow the toggles and no later step
    changes them: DEBUG, MPI_OPTION, OPENMP_OPTION, HDF5_OPTION,
    SHEARING_BOX and MAGNETIC_FIELDS_ENABLED; COMPILER_CHOICE is the
    compiler family, "bgxlc++" for bgxl and "icc" for icc-phi. *)
Theorem feature_macros (a : Args) :
  validated a ->
  exists c,
    configure a = OK c /\
    dict_get (definitions c) "DEBUG"
      = Some (if debug a then "DEBUG" else "NOT_DEBUG") /\
    dict_get (definitions c) "MPI_OPTION"
      = Some (if mpi a then "MPI_PARALLEL" else "NOT_MPI_PARALLEL") /\
    dict_get (definitions c) "OPENMP_OPTION"
      = Some (if omp a then "OPENMP_PARALLEL" else "NOT_OPENMP_PARALLEL") /\
    dict_get (definitions c) "HDF5_OPTION"
      = Some (if hdf5 a then "HDF5OUTPUT" else "NO_HDF5OUTPUT") /\
    dict_get (definitions c) "SHEARING_BOX"
      = Some (if sh a then "1" else "0") /\
    dict_get (definitions c) "MAGNETIC_FIELDS_ENABLED"
      = Some (if b a then "1" else "0") /\
    dict_get (definitions c) "COMPILER_CHOICE"
      = Some (if cxx a =? "bgxl" then "bgxlc++"
              else if cxx a =? "icc-phi" then "icc" else cxx a).
Proof.
  intros Hv. exists (resolved (set_default_flux a)).
  split; [now apply validated_resolved|].
  destruct (set_default_flux_shape a) as [f ->].
  repeat split.
Qed.

Lemma feature_macros_witness :
  validated bgxl_parallel_args /\
  exists c,
    configure bgxl_parallel_args = OK c /\
    dict_get (definitions c) "DEBUG" = Some "DEBUG" /\
    dict_get (definitions c) "COMPILER_CHOICE" = Some "bgxlc++".
Proof.
  split; [exact validated_bgxl_parallel|].
  destruct (feature_macros bgxl_parallel_args validated_bgxl_parallel)
    as (c & Hc & Hd & _ & _ & _ & _ & _ & Hx).
  exists c. split; [exact Hc|]. split; [exact Hd|exact Hx].
Defined.

(** X9.  For bgxl the linker flags are a copy of the optimization flags
    taken before [-debug] is looked at: in a debug build LINKER_FLAGS
    still start with the "-O3 ..." string, so the aggregate
    COMPILER_FLAGS of the definitions contains "-O3" although the
    Makefile's COMPILER_FLAGS does not. *)
Theorem bgxl_linker_keeps_optimization_flags (a : Args) :
  validated a -> cxx a = "bgxl" -> debug a = true -> include a = [] ->
  exists c linker compiler all,
    configure a = OK c /\
    dict_get (makefile_options c) "LINKER_FLAGS" = Some linker /\
    String.prefix bgxl_optimization_flags linker = true /\
    dict_get (makefile_options c) "COMPILER_FLAGS" = Some compiler /\
    occurs "-O3" compiler = false /\
    dict_get (definitions c) "COMPILER_FLAGS" = Some all /\
    occurs "-O3" all = true.
Proof.
  intros Hv Hx Hd Hi. exists (resolved (set_default_flux a)).
  exists (linker_flags (set_default_flux a)),
    (compiler_flags (set_default_flux a)), (all_flags (set_default_flux a)).
  split; [now apply validated_resolved|].
  split; [reflexivity|].
  destruct (set_default_flux_shape a) as [f ->].
  assert (Hlink : exists tail,
             linker_flags (with_flux a f) = bgxl_optimization_flags ++ tail).
  { unfold linker_flags. rewrite fold_left_append.
    unfold linker_flags_base, hdf5_with_path, base_linker_flags, app_if.
    cbn [with_flux cxx hdf5 hdf5_path lib]. rewrite Hx.
    cbn [String.eqb Ascii.eqb Bool.eqb].
    destruct (hdf5 a), (negb (hdf5_path a =? ""));
      cbn [andb]; rewrite ?append_assoc; eexists; reflexivity. }
  destruct Hlink as [tail Hlink].
  assert (Hcomp : exists suffix,
             compiler_flags (with_flux a f)
             = "-O0 -g -qlanglvl=extended" ++ suffix /\
             (suffix = " -qsmp" \/ suffix = "")).
  { unfold compiler_flags, compiler_flags_base, debug_flags, mpi_flags,
      omp_flags.
    cbn [with_flux cxx debug include mpi omp]. rewrite Hx, Hd, Hi.
    cbn [String.eqb Ascii.eqb Bool.eqb andb orb fold_left].
    destruct (mpi a), (omp a); cbn [andb];
      eexists; (split; [reflexivity|tauto]). }
  destruct Hcomp as (suffix & Hcomp & Hs).
  split; [rewrite Hlink; apply prefix_append|].
  split; [reflexivity|].
  split; [rewrite Hcomp; destruct Hs as [->| ->]; reflexivity|].
  split; [reflexivity|].
  unfold all_flags. cbn [String.concat]. rewrite Hlink, Hcomp.
  assert (Hocc : forall x y, occurs "-O3" y = true -> occurs "-O3" (x ++ y) = true).
  { intros x y Hy. induction x as [|ch x IH]; [exact Hy|].
    cbn [append occurs]. now rewrite IH, orb_true_r. }
  apply Hocc, Hocc, Hocc, Hocc.
  unfold bgxl_optimization_flags. cbn [append]. reflexivity.
Qed.

Lemma bgxl_linker_keeps_optimization_flags_witness :
  validated bgxl_debug_args /\ cxx bgxl_debug_args = "bgxl" /\
  debug bgxl_debug_args = true /\ include bgxl_debug_args = [] /\
  exists c all,
    configure bgxl_debug_args = OK c /\
    dict_get (definitions c) "COMPILER_FLAGS" = Some all /\
    occurs "-O3" all = true.
Proof.
  split; [exact validated_bgxl_debug|]. split; [reflexivity|].
  split; [reflexivity|]. split; [reflexivity|].
  destruct (bgxl_linker_keeps_optimization_flags _ validated_bgxl_debug
              eq_refl eq_refl eq_refl)
    as (c & l & k & all & Hc & _ & _ & _ & _ & Hall & Ho).
  exists c, all. repeat split; assumption.
Defined.

(** X10.  Step 2 completes the flux and is idempotent: the flux of an
    accepted option set is one of the five solvers, never "default", and
    running Step 2 again on its result changes nothing. *)
Theorem step2_idempotent (a a' : Args) :
  valid_args a -> step2 a = OK a' ->
  In (flux a') ["hlle"; "hllc"; "hlld"; "roe"; "llf"] /\
  valid_args a' /\
  step2 a' = OK a'.
Proof.
  intros Hv H. unfold step2 in H.
  destruct (check_compatibility (set_default_flux a)) as [[]|e] eqn:Hc;
    cbn [rbind] in H; [|discriminate].
  inversion H; subst a'; clear H.
  pose proof (set_default_flux_enumerated a Hv) as (_ & Hf & _).
  split; [exact Hf|]. split; [now apply set_default_flux_valid|].
  assert (Hid : set_default_flux (set_default_flux a) = set_default_flux a).
  { unfold set_default_flux at 1.
    destruct (flux (set_default_flux a) =? "default") eqn:E; [|reflexivity].
    apply String.eqb_eq in E. rewrite E in Hf. cbn in Hf.
    exfalso. intuition discriminate. }
  unfold step2. rewrite Hid, Hc. reflexivity.
Qed.

Lemma step2_idempotent_witness :
  valid_args mhd_args /\
  step2 mhd_args = OK (with_flux mhd_args "hlld") /\
  step2 (with_flux mhd_args "hlld") = OK (with_flux mhd_args "hlld").
Proof.
  assert (Hv : valid_args mhd_args) by (unfold valid_args; cbn; tauto).
  split; [exact Hv|]. split; [reflexivity|].
  exact (proj2 (proj2 (step2_idempotent mhd_args _ Hv eq_refl))).
Defined.

(** X11.  No compatibility test is redundant and the nine tests do not
    shadow one another completely: for each of them there is a parsed
    option set that fails that test and passes the eight others, so each
    of the nine messages can be the one reported. *)
Theorem every_rule_alone (r : rule) :
  exists a : Args,
    valid_args a /\
    violates r (set_default_flux a) = true /\
    (forall r', r' <> r -> violates r' (set_default_flux a) = false) /\
    step2 a = Raise (SystemExit (rule_message r (set_default_flux a))).
Proof.
  set (base := fun vcoord veos vflux vb vs vg vt =>
                 mkArgs "shock_tube" vcoord veos vflux "plm" "vl2"
                   vb vs vg vt false false false false false "" "g++"
                   None [] []).
  assert (Hall : forall a,
             valid_args a ->
             violates r (set_default_flux a) = true ->
             (forall r', r' <> r -> violates r' (set_default_flux a) = false) ->
             exists a0 : Args,
               valid_args a0 /\
               violates r (set_default_flux a0) = true /\
               (forall r', r' <> r -> violates r' (set_default_flux a0) = false) /\
               step2 a0 = Raise (SystemExit (rule_message r (set_default_flux a0)))).
  { intros a Hv Hr Hothers. exists a.
    split; [exact Hv|]. split; [exact Hr|]. split; [exact Hothers|].
    rewrite step2_first_violated.
    destruct (first_violated (set_default_flux a)) as [r0|] eqn:E.
    - destruct (first_violated_earliest _ _ E) as [H0 _].
      assert (r0 = r); [|now subst].
      destruct r0, r; try reflexivity;
        (rewrite Hothers in H0; [discriminate H0|discriminate]).
    - rewrite (first_violated_none _ E r) in Hr. discriminate. }
  destruct r.
  - apply (Hall (base "cartesian" "isothermal" "hllc" false false false false));
      [unfold valid_args; cbn; tauto|reflexivity|].
    intros r' Hne; destruct r'; try reflexivity; congruence.
  - apply (Hall (base "cartesian" "adiabatic" "hllc" true false false false));
      [unfold valid_args; cbn; tauto|reflexivity|].
    intros r' Hne; destruct r'; try reflexivity; congruence.
  - apply (Hall (base "cartesian" "adiabatic" "hlld" false false false false));
      [unfold valid_args; cbn; tauto|reflexivity|].
    intros r' Hne; destruct r'; try reflexivity; congruence.
  - apply (Hall (base "schwarzschild" "adiabatic" "default" false true true true));
      [unfold valid_args; cbn; tauto|reflexivity|].
    intros r' Hne; destruct r'; try reflexivity; congruence.
  - apply (Hall (base "cartesian" "adiabatic" "default" false false false true));
      [unfold valid_args; cbn; tauto|reflexivity|].
    intros r' Hne; destruct r'; try reflexivity; congruence.
  - apply (Hall (base "schwarzschild" "adiabatic" "roe" false false true false));
      [unfold valid_args; cbn; tauto|reflexivity|].
    intros r' Hne; destruct r'; try reflexivity; congruence.
  - apply (Hall (base "cartesian" "adiabatic" "default" false false true true));
      [unfold valid_args; cbn; tauto|reflexivity|].
    intros r' Hne; destruct r'; try reflexivity; congruence.
  - apply (Hall (base "kerr-schild" "adiabatic" "default" false false false false));
      [unfold valid_args; cbn; tauto|reflexivity|].
    intros r' Hne; destruct r'; try reflexivity; congruence.
  - apply (Hall (base "cartesian" "isothermal" "default" false true false false));
      [unfold valid_args; cbn; tauto|reflexivity|].
    intros r' Hne; destruct r'; try reflexivity; congruence.
Qed.

(** ** The run, step by step *)

(** X12.  A missing template is an [IOError] naming it, raised after the
    options are resolved and before anything is substituted or written;
    the definitions template is looked for first. *)
Theorem missing_template_raises (cl : CommandLine) (w : World) (a : Args)
    (c : Config) :
  parse_args (pgen_choices w) cl = OK a ->
  configure a = OK c ->
  (dict_get (files w) defsfile_input = None ->
   main cl w = (Raise (IOError "src/defs.hpp.in"), w)) /\
  (dict_get (files w) defsfile_input <> None ->
   dict_get (files w) makefile_input = None ->
   main cl w = (Raise (IOError "Makefile.in"), w)).
Proof.
  intros Hp Hc.
  destruct (configure_inv _ _ (parse_args_valid _ _ _ Hp) Hc) as [Hk _].
  rewrite (main_outcome cl w a Hp Hk). split.
  - intros Hd. now rewrite Hd.
  - intros Hd Hm.
    destruct (dict_get (files w) defsfile_input); [|congruence].
    now rewrite Hm.
Qed.

Lemma missing_template_raises_witness :
  main empty_command_line world_without_makefile_template
  = (Raise (IOError "Makefile.in"), world_without_makefile_template).
Proof.
  refine (proj2 (missing_template_raises empty_command_line
                   world_without_makefile_template default_args
                   (resolved (set_default_flux default_args)) eq_refl _) _ eq_refl).
  - vm_compute. reflexivity.
  - discriminate.
Defined.

(** X13.  A run that completes has read both templates, and leaves in
    the two output files exactly the substituted templates, whatever
    these files held before; it has opened for writing these two files
    only, the definitions file first. *)
Theorem completed_run_writes_substitutions (cl : CommandLine) (w w' : World)
    (a : Args) (c : Config) :
  parse_args (pgen_choices w) cl = OK a ->
  configure a = OK c ->
  main cl w = (OK tt, w') ->
  exists dt mt dout mout,
    dict_get (files w) "src/defs.hpp.in" = Some dt /\
    dict_get (files w) "Makefile.in" = Some mt /\
    substitute (definitions c) dt = OK dout /\
    substitute (makefile_options c) mt = OK mout /\
    dict_get (files w') "src/defs.hpp" = Some dout /\
    dict_get (files w') "Makefile" = Some mout /\
    opened_for_writing w' =
      (opened_for_writing w ++ ["src/defs.hpp"; "Makefile"])%list.
Proof.
  intros Hp Hc Hm.
  destruct (configure_inv _ _ (parse_args_valid _ _ _ Hp) Hc) as [_ ->].
  destruct (main_completed cl w w' a Hp Hm)
    as (_ & dt & mt & dout & mout & Hd & Hmk & Hsd & Hsm & _ & _ & ->).
  exists dt, mt, dout, mout.
  split; [exact Hd|]. split; [exact Hmk|]. split; [exact Hsd|].
  split; [exact Hsm|].
  unfold printed, written. cbn [files opened_for_writing].
  split; [|split].
  - rewrite dict_get_set_ne by discriminate. apply dict_get_set_eq.
  - apply dict_get_set_eq.
  - now rewrite <- app_assoc.
Qed.

Lemma completed_run_writes_substitutions_witness :
  exists w',
    main linear_wave_command_line sample_world = (OK tt, w') /\
    dict_get (files w') "src/defs.hpp"
      = Some "#define PROBLEM_GENERATOR linear_wave NWAVE 7 NOT_DEBUG" /\
    dict_get (files w') "Makefile" = Some "CXX := g++ RSOLVER := mhd/hlld.cpp".
Proof.
  assert (H1 : exists w',
             main linear_wave_command_line sample_world = (OK tt, w')).
  { eexists. vm_compute. reflexivity. }
  destruct H1 as [w' H1]. exists w'. split; [exact H1|].
  destruct (completed_run_writes_substitutions
              linear_wave_command_line sample_world w'
              (mkArgs "linear_wave" "cartesian" "adiabatic" "hlld" "plm" "vl2"
                 true false false false false false false false false
                 "" "g++" None [] [])
              (resolved (mkArgs "linear_wave" "cartesian" "adiabatic" "hlld"
                 "plm" "vl2" true false false false false false false false
                 false "" "g++" None [] []))
              eq_refl eq_refl H1)
    as (dt & mt & dout & mout & Hd & Hmk & Hsd & Hsm & Hfd & Hfm & _).
  injection Hd as <-. injection Hmk as <-.
  vm_compute in Hsd, Hsm. injection Hsd as <-. injection Hsm as <-.
  split; assumption.
Defined.

(** X14.  A completed run prints nineteen lines after whatever was
    printed before; they show the resolved options, in particular the
    flux chosen by Step 2 and never "default", and the linker and
    compiler flags as they go into the Makefile. *)
Theorem completed_run_report (cl : CommandLine) (w w' : World) (a : Args) :
  parse_args (pgen_choices w) cl = OK a ->
  main cl w = (OK tt, w') ->
  stdout w' = (stdout w ++ report_lines (set_default_flux a))%list /\
  List.length (report_lines (set_default_flux a)) = 19 /\
  nth 4 (report_lines (set_default_flux a)) ""
    = "  Riemann solver:          " ++ flux (set_default_flux a) /\
  flux (set_default_flux a) <> "default".
Proof.
  intros Hp Hm.
  assert (Hflux : flux (set_default_flux a) <> "default").
  { pose proof (set_default_flux_enumerated a (parse_args_valid _ _ _ Hp))
      as (_ & Hf & _).
    intros E. rewrite E in Hf. cbn in Hf. intuition discriminate. }
  split; [|split; [|split; [|exact Hflux]]];
    [|unfold report_lines; reflexivity|unfold report_lines; reflexivity].
  destruct (main_completed cl w w' a Hp Hm)
    as (_ & dt & mt & dout & mout & _ & _ & _ & _ & _ & _ & ->).
  reflexivity.
Qed.

Lemma completed_run_report_witness :
  exists w',
    main empty_command_line sample_world = (OK tt, w') /\
    nth 4 (stdout w') "" = "  Riemann solver:          hllc".
Proof.
  assert (H1 : exists w', main empty_command_line sample_world = (OK tt, w')).
  { eexists. vm_compute. reflexivity. }
  destruct H1 as [w' H1]. exists w'. split; [exact H1|].
  destruct (completed_run_report empty_command_line sample_world w'
              default_args eq_refl H1) as (-> & _ & _ & _).
  reflexivity.
Defined.

Lemma filter_pgen_written (w : World) (path text : string) :
  String.prefix pgen_directory path = false ->
  filter (String.prefix pgen_directory) (paths (written w path text))
  = filter (String.prefix pgen_directory) (paths w).
Proof.
  intros Hp. unfold paths, written. cbn [files directories].
  rewrite dict_keys_set.
  destruct (dict_get (files w) path); [reflexivity|].
  rewrite !filter_app. cbn [filter]. rewrite Hp. now rewrite app_nil_r.
Qed.

Lemma pgen_choices_written (w : World) (path text : string) :
  String.prefix pgen_directory path = false ->
  pgen_choices (written w path text) = pgen_choices w.
Proof.
  intros Hp. unfold pgen_choices, glob_pgen.
  now rewrite (filter_pgen_written _ _ _ Hp).
Qed.

Lemma dict_set_written_twice (d : dict) (k1 k2 v1 v2 : string) :
  k1 <> k2 ->
  dict_set (dict_set (dict_set (dict_set d k1 v1) k2 v2) k1 v1) k2 v2
  = dict_set (dict_set d k1 v1) k2 v2.
Proof.
  intros Hne.
  assert (E1 : dict_set (dict_set (dict_set d k1 v1) k2 v2) k1 v1
               = dict_set (dict_set d k1 v1) k2 v2).
  { apply dict_set_same.
    rewrite dict_get_set_ne by congruence. apply dict_get_set_eq. }
  rewrite E1. apply dict_set_same. apply dict_get_set_eq.
Qed.

(** X15.  Running the script again with the same command line, on the
    file system a completed run has left, completes too and leaves
    every file as it is: the problem generators listed are the same, the
    templates are untouched, and the two outputs are rewritten with the
    text they already hold.  Only the report is printed once more. *)
Theorem rerun_leaves_files (cl : CommandLine) (w w1 : World) :
  main cl w = (OK tt, w1) ->
  exists w2,
    main cl w1 = (OK tt, w2) /\
    files w2 = files w1 /\
    pgen_choices w1 = pgen_choices w /\
    List.length (stdout w2) = List.length (stdout w1) + 19.
Proof.
  intros Hm.
  destruct (parse_args (pgen_choices w) cl) as [a|e] eqn:Hp;
    [|rewrite (main_parse_error cl w e Hp) in Hm; discriminate Hm].
  destruct (main_completed cl w w1 a Hp Hm)
    as (Hk & dt & mt & dout & mout & Hd & Hmk & Hsd & Hsm & Hod & Hom & ->).
  set (w1 := printed (written (written w defsfile_output dout)
                              makefile_output mout)
                     (report_lines (set_default_flux a))).
  assert (Hch : pgen_choices w1 = pgen_choices w).
  { unfold w1.
    change (pgen_choices (printed ?x ?l)) with (pgen_choices x).
    now rewrite !pgen_choices_written by reflexivity. }
  assert (Hp1 : parse_args (pgen_choices w1) cl = OK a) by now rewrite Hch.
  assert (Hd1 : dict_get (files w1) defsfile_input = Some dt).
  { unfold w1, printed, written. cbn [files].
    now rewrite !dict_get_set_ne by discriminate. }
  assert (Hm1 : dict_get (files w1) makefile_input = Some mt).
  { unfold w1, printed, written. cbn [files].
    now rewrite !dict_get_set_ne by discriminate. }
  assert (Hod1 : can_open_for_writing w1 defsfile_output = true).
  { unfold w1.
    change (can_open_for_writing (printed ?x ?l) ?p)
      with (can_open_for_writing x p).
    now rewrite !can_open_written by reflexivity. }
  assert (Hom1 : can_open_for_writing w1 makefile_output = true).
  { unfold w1.
    change (can_open_for_writing (printed ?x ?l) ?p)
      with (can_open_for_writing x p).
    now rewrite !can_open_written by reflexivity. }
  eexists. split; [|split; [|split]].
  - rewrite (main_outcome cl w1 a Hp1 Hk), Hd1, Hm1, Hsd, Hsm, Hod1, Hom1.
    reflexivity.
  - unfold w1, printed, written. cbn [files].
    apply dict_set_written_twice. discriminate.
  - exact Hch.
  - unfold printed. cbn [stdout]. rewrite length_app.
    unfold report_lines. reflexivity.
Qed.

Lemma rerun_leaves_files_witness :
  exists w1 w2,
    main linear_wave_command_line sample_world = (OK tt, w1) /\
    main linear_wave_command_line w1 = (OK tt, w2) /\
    files w2 = files w1.
Proof.
  assert (H1 : exists w1, main linear_wave_command_line sample_world = (OK tt, w1)).
  { eexists. vm_compute. reflexivity. }
  destruct H1 as [w1 H1].
  destruct (rerun_leaves_files linear_wave_command_line sample_world w1 H1)
    as (w2 & H2 & Hf & _).
  exists w1, w2. repeat split; assumption.
Defined.

Lemma length_append (x y : string) :
  String.length (x ++ y) = String.length x + String.length y.
Proof. induction x as [|c x IH]; cbn; [reflexivity|now rewrite IH]. Qed.

Lemma substring_skip (p x : string) (m : nat) :
  substring (String.length p) m (p ++ x) = substring 0 m x.
Proof. induction p as [|c p IH]; cbn; [reflexivity|exact IH]. Qed.

Lemma substring_whole (x : string) (m : nat) :
  String.length x <= m -> substring 0 m x = x.
Proof.
  revert m. induction x as [|c x IH]; intros [|m] H; cbn in *;
    try reflexivity; [lia|].
  rewrite IH by lia. reflexivity.
Qed.

Lemma substring_front (x y : string) :
  substring 0 (String.length x) (x ++ y) = x.
Proof.
  induction x as [|c x IH]; cbn; [now destruct y|now rewrite IH].
Qed.

Lemma prefix_split (p text : string) :
  String.prefix p text = true -> exists rest, text = p ++ rest.
Proof.
  revert text. induction p as [|c p IH]; intros text H.
  - now exists text.
  - destruct text as [|c' text]; [discriminate|].
    rewrite prefix_cons in H. apply andb_true_iff in H as [Hc Hp].
    apply Ascii.eqb_eq in Hc. subst c'.
    destruct (IH _ Hp) as [rest ->]. now exists rest.
Qed.

Lemma substring_split (k : nat) (text : string) :
  k <= String.length text ->
  text = substring 0 k text ++ substring k (String.length text - k) text.
Proof.
  revert text. induction k as [|k IH]; intros text H.
  - cbn [substring]. rewrite Nat.sub_0_r.
    assert (E : substring 0 0 text = "") by now destruct text.
    rewrite E. cbn [append]. symmetry. now apply substring_whole.
  - destruct text as [|c text]; cbn in H; [lia|].
    cbn [substring String.length Nat.sub append]. f_equal. apply IH. lia.
Qed.

Lemma ends_with_split (suffix text : string) :
  ends_with suffix text = true ->
  text = substring 0 (String.length text - String.length suffix) text ++ suffix.
Proof.
  unfold ends_with. intros H. apply andb_true_iff in H as [Hl He].
  apply Nat.leb_le in Hl. apply String.eqb_eq in He.
  rewrite (substring_split (String.length text - String.length suffix) text)
    at 1 by lia.
  replace (String.length text - (String.length text - String.length suffix))
    with (String.length suffix) by lia.
  now rewrite He.
Qed.

Lemma ends_with_append (name suffix : string) :
  ends_with suffix (name ++ suffix) = true.
Proof.
  unfold ends_with. rewrite length_append.
  apply andb_true_iff. split; [apply Nat.leb_le; lia|].
  replace (String.length name + String.length suffix - String.length suffix)
    with (String.length name) by lia.
  rewrite substring_skip. rewrite substring_whole by lia.
  apply String.eqb_refl.
Qed.


Lemma before_char_no_char (c : ascii) (text : string) :
  contains_char c (before_char c text) = false.
Proof.
  induction text as [|c' text IH]; [reflexivity|].
  cbn [before_char]. destruct (Ascii.eqb c c') eqn:E; [reflexivity|].
  cbn [contains_char]. now rewrite E, IH.
Qed.

Lemma before_char_split (c : ascii) (text : string) :
  text = before_char c text \/
  exists rest, text = before_char c text ++ String c rest.
Proof.
  induction text as [|c' text IH]; [now left|].
  cbn [before_char]. destruct (Ascii.eqb c c') eqn:E.
  - apply Ascii.eqb_eq in E. subst c'. right. now exists text.
  - destruct IH as [IH|[rest IH]].
    + left. cbn [append]. now rewrite <- IH.
    + right. exists rest. cbn [append]. now rewrite <- IH.
Qed.

Lemma before_char_whole (c : ascii) (text : string) :
  contains_char c text = false -> before_char c text = text.
Proof.
  induction text as [|c' text IH]; intros H; [reflexivity|].
  cbn [contains_char] in H. apply orb_false_iff in H. destruct H as [Hc H].
  cbn [before_char]. now rewrite Hc, IH.
Qed.

Lemma before_char_append (c : ascii) (text rest : string) :
  contains_char c text = false ->
  before_char c (text ++ String c rest) = text.
Proof.
  induction text as [|c' text IH]; intros H.
  - cbn. now rewrite Ascii.eqb_refl.
  - cbn [contains_char] in H. apply orb_false_iff in H. destruct H as [Hc H].
    cbn [append before_char]. now rewrite Hc, IH.
Qed.

(** The entry of [src/pgen/] a path goes through. *)
Lemma pgen_entry_below (rel : string) :
  pgen_entry (pgen_directory ++ rel) = before_char "/" rel.
Proof.
  unfold pgen_entry. rewrite substring_skip.
  rewrite substring_whole by (rewrite length_append; lia). reflexivity.
Qed.

Lemma path_below_entry (name rest : string) :
  ("src/pgen/" ++ name ++ ".cpp/") ++ rest
  = pgen_directory ++ (name ++ ".cpp") ++ String "/" rest.
Proof. unfold pgen_directory. now rewrite !append_assoc. Qed.

Lemma entry_path_cases (name rel : string) :
  before_char "/" rel = name ++ ".cpp" ->
  pgen_directory ++ rel = "src/pgen/" ++ name ++ ".cpp" \/
  String.prefix ("src/pgen/" ++ name ++ ".cpp/") (pgen_directory ++ rel)
    = true.
Proof.
  intros He. destruct (before_char_split "/" rel) as [E|[rest E]];
    rewrite He in E.
  - left. now rewrite E.
  - right. rewrite E, <- path_below_entry. apply prefix_append.
Qed.

Lemma entry_of_path (name path : string) :
  contains_char "/" (name ++ ".cpp") = false ->
  path = "src/pgen/" ++ name ++ ".cpp" \/
  String.prefix ("src/pgen/" ++ name ++ ".cpp/") path = true ->
  String.prefix pgen_directory path = true /\
  pgen_entry path = name ++ ".cpp".
Proof.
  intros Hno [->|Hpre].
  - change "src/pgen/" with pgen_directory.
    rewrite prefix_append, pgen_entry_below. split; [reflexivity|].
    now apply before_char_whole.
  - destruct (prefix_split _ _ Hpre) as [rest ->].
    rewrite path_below_entry.
    rewrite prefix_append, pgen_entry_below. split; [reflexivity|].
    now apply before_char_append.
Qed.

(** X16.  The choices of [--prob] are read off the directory listing:
    a name is a choice exactly when it holds no [/], [<name>.cpp] does
    not start with a dot, and [src/pgen/<name>.cpp] is there, as a file
    or as a directory. *)
Theorem problem_choices_are_pgen_entries (w : World) (name : string) :
  In name (pgen_choices w) <->
  contains_char "/" name = false /\
  String.prefix "." (name ++ ".cpp") = false /\
  exists path,
    In path (paths w) /\
    (path = "src/pgen/" ++ name ++ ".cpp" \/
     String.prefix ("src/pgen/" ++ name ++ ".cpp/") path = true).
Proof.
  unfold pgen_choices, glob_pgen. rewrite in_map_iff. split.
  - intros (full & Hn & Hin).
    apply in_map_iff in Hin. destruct Hin as (entry & <- & Hin).
    apply filter_In in Hin. destruct Hin as [Hin Hf].
    apply andb_true_iff in Hf. destruct Hf as [Hend Hdot].
    apply negb_true_iff in Hdot.
    apply nodup_In, in_map_iff in Hin. destruct Hin as (path & He & Hin).
    apply filter_In in Hin. destruct Hin as [Hin Hpre].
    destruct (prefix_split _ _ Hpre) as [rel ->].
    rewrite pgen_entry_below in He.
    pose proof (ends_with_split _ _ Hend) as Hsplit.
    rewrite substring_skip, length_append in Hn.
    replace (String.length pgen_directory + String.length entry
             - String.length pgen_directory - 4)
      with (String.length entry - String.length ".cpp") in Hn
      by (cbn [String.length]; lia).
    rewrite Hn in Hsplit. rewrite Hsplit in He, Hdot.
    assert (Hslash : contains_char "/" (name ++ ".cpp") = false)
      by (rewrite <- He; apply before_char_no_char).
    rewrite contains_char_append in Hslash. apply orb_false_iff in Hslash.
    split; [apply Hslash|]. split; [exact Hdot|].
    exists (pgen_directory ++ rel). split; [exact Hin|].
    now apply entry_path_cases.
  - intros (Hslash & Hdot & path & Hin & Hpath).
    assert (Hno : contains_char "/" (name ++ ".cpp") = false)
      by (rewrite contains_char_append, Hslash; reflexivity).
    destruct (entry_of_path name path Hno Hpath) as [Hpre He].
    exists (pgen_directory ++ name ++ ".cpp"). split.
    + rewrite substring_skip, !length_append.
      replace (String.length pgen_directory
               + (String.length name + String.length ".cpp")
               - String.length pgen_directory - 4)
        with (String.length name) by (cbn [String.length]; lia).
      apply substring_front.
    + apply in_map. apply filter_In. split.
      * apply nodup_In, in_map_iff. exists path. split; [exact He|].
        apply filter_In. now split.
      * rewrite ends_with_append, Hdot. reflexivity.
Qed.

Lemma problem_choices_are_pgen_entries_witness :
  In "linear_wave" (pgen_choices sample_world).
Proof.
  apply (proj2 (problem_choices_are_pgen_entries sample_world "linear_wave")).
  split; [reflexivity|]. split; [reflexivity|].
  exists "src/pgen/linear_wave.cpp". split; [cbn; tauto|now left].
Defined.

Example glob_lists_directories :
  pgen_choices
    {| files := [("src/pgen/shock_tube.cpp", ""); ("src/pgen/.hidden.cpp", "");
                 ("src/pgen/jet.cpp/notes.txt", ""); ("src/pgen/README", "")];
       directories := ["src/pgen/empty.cpp"];
       write_protected := [];
       opened_for_writing := [];
       stdout := [] |}
  = ["shock_tube"; "jet"; "empty"].
Proof. reflexivity. Qed.

Lemma consume_apply (pgen : list string) (a a' : Args)
    (extras extras' : list string) (arg : argument) :
  consume pgen (a, extras) arg = OK (a', extras') ->
  a' = apply_argument a arg.
Proof.
  unfold consume, apply_argument.
  destruct arg as [name value|name|text|text].
  - destruct (py_in name value_options) eqn:Ev.
    + destruct (choices_of pgen name) as [choices|].
      * destruct (py_in value choices); [|discriminate].
        intros H. now injection H as <- _.
      * intros H. now injection H as <- _.
    + destruct (py_in name switches || py_in name help_options);
        [discriminate|].
      intros H. injection H as <- _.
      unfold store. unfold value_options, py_in in Ev. cbn [existsb] in Ev.
      repeat (apply orb_false_iff in Ev; destruct Ev as [?E Ev]).
      repeat match goal with
      | E : (name =? ?x) = false |- _ => rewrite E; clear E
      end.
      reflexivity.
  - destruct (py_in name switches) eqn:Es.
    + intros H. now injection H as <- _.
    + destruct (py_in name help_options); [discriminate|].
      destruct (py_in name value_options); [discriminate|].
      intros H. injection H as <- _.
      unfold store_true. unfold switches, py_in in Es. cbn [existsb] in Es.
      repeat (apply orb_false_iff in Es; destruct Es as [?E Es]).
      repeat match goal with
      | E : (name =? ?x) = false |- _ => rewrite E; clear E
      end.
      reflexivity.
  - discriminate.
  - intros H. now injection H as <- _.
Qed.

Lemma consume_all_fold (pgen : list string) (argv : CommandLine) :
  forall (a a' : Args) (extras extras' : list string),
    consume_all pgen (a, extras) argv = OK (a', extras') ->
    a' = fold_left apply_argument argv a.
Proof.
  induction argv as [|arg argv IH]; intros a a' extras extras' H.
  - now injection H as <- _.
  - cbn [consume_all] in H.
    destruct (consume pgen (a, extras) arg) as [[a1 extras1]|e] eqn:E;
      [|discriminate H].
    cbn [rbind] in H. cbn [fold_left].
    rewrite <- (consume_apply _ _ _ _ _ _ E). exact (IH _ _ _ _ H).
Qed.

Ltac finish_field :=
  try match goal with
  | |- context [last_value ?n ?argv] =>
      destruct (last_value n argv); [reflexivity|]
  end;
  unfold store, store_true;
  repeat match goal with
  | |- context [?name =? ?x] =>
      is_var name;
      let E := fresh "E" in
      destruct (name =? x) eqn:E;
      [apply String.eqb_eq in E; subst name; cbn;
       try reflexivity; try (rewrite <- app_assoc; reflexivity);
       try (now rewrite orb_true_r)|]
  end;
  cbn; try reflexivity.

Ltac fold_field :=
  let argv := fresh "argv" in
  let IH := fresh "IH" in
  let a := fresh "a" in
  intros argv; induction argv as [|[name value|name|text|text] argv IH];
  intros a; cbn [fold_left last_value all_values switched_on existsb];
  [first [reflexivity | now rewrite app_nil_r | now rewrite orb_false_r
          | now destruct a]
  |..];
  rewrite IH; cbn [apply_argument]; finish_field.

Lemma fold_prob : forall argv a,
  prob (fold_left apply_argument argv a)
  = value_or (prob a) (last_value "--prob" argv).
Proof. fold_field. Qed.

Lemma fold_coord : forall argv a,
  coord (fold_left apply_argument argv a)
  = value_or (coord a) (last_value "--coord" argv).
Proof. fold_field. Qed.

Lemma fold_eos : forall argv a,
  eos (fold_left apply_argument argv a)
  = value_or (eos a) (last_value "--eos" argv).
Proof. fold_field. Qed.

Lemma fold_flux : forall argv a,
  flux (fold_left apply_argument argv a)
  = value_or (flux a) (last_value "--flux" argv).
Proof. fold_field. Qed.

Lemma fold_order : forall argv a,
  order (fold_left apply_argument argv a)
  = value_or (order a) (last_value "--order" argv).
Proof. fold_field. Qed.

Lemma fold_fint : forall argv a,
  fint (fold_left apply_argument argv a)
  = value_or (fint a) (last_value "--fint" argv).
Proof. fold_field. Qed.

Lemma fold_hdf5_path : forall argv a,
  hdf5_path (fold_left apply_argument argv a)
  = value_or (hdf5_path a) (last_value "--hdf5_path" argv).
Proof. fold_field. Qed.

Lemma fold_cxx : forall argv a,
  cxx (fold_left apply_argument argv a)
  = value_or (cxx a) (last_value "--cxx" argv).
Proof. fold_field. Qed.

Lemma fold_ccmd : forall argv a,
  ccmd (fold_left apply_argument argv a)
  = match last_value "--ccmd" argv with
    | Some value => Some value
    | None => ccmd a
    end.
Proof. fold_field. Qed.

Lemma fold_include : forall argv a,
  include (fold_left apply_argument argv a)
  = (include a ++ all_values "--include" argv)%list.
Proof. fold_field. Qed.

Lemma fold_lib : forall argv a,
  lib (fold_left apply_argument argv a)
  = (lib a ++ all_values "--lib" argv)%list.
Proof. fold_field. Qed.

Lemma fold_b : forall argv a,
  b (fold_left apply_argument argv a) = b a || switched_on "-b" argv.
Proof. fold_field. Qed.

Lemma fold_s : forall argv a,
  s (fold_left apply_argument argv a) = s a || switched_on "-s" argv.
Proof. fold_field. Qed.

Lemma fold_g : forall argv a,
  g (fold_left apply_argument argv a) = g a || switched_on "-g" argv.
Proof. fold_field. Qed.

Lemma fold_t : forall argv a,
  t (fold_left apply_argument argv a) = t a || switched_on "-t" argv.
Proof. fold_field. Qed.

Lemma fold_sh : forall argv a,
  sh (fold_left apply_argument argv a) = sh a || switched_on "-sh" argv.
Proof. fold_field. Qed.

Lemma fold_debug : forall argv a,
  debug (fold_left apply_argument argv a) = debug a || switched_on "-debug" argv.
Proof. fold_field. Qed.

Lemma fold_mpi : forall argv a,
  mpi (fold_left apply_argument argv a) = mpi a || switched_on "-mpi" argv.
Proof. fold_field. Qed.

Lemma fold_omp : forall argv a,
  omp (fold_left apply_argument argv a) = omp a || switched_on "-omp" argv.
Proof. fold_field. Qed.

Lemma fold_hdf5 : forall argv a,
  hdf5 (fold_left apply_argument argv a) = hdf5 a || switched_on "-hdf5" argv.
Proof. fold_field. Qed.

Lemma consume_checks (pgen : list string) (a a' : Args)
    (extras extras' : list string) (name value : string)
    (choices : list string) :
  consume pgen (a, extras) (Valued name value) = OK (a', extras') ->
  choices_of pgen name = Some choices ->
  In value choices.
Proof.
  unfold consume. intros H Hc.
  destruct (py_in name value_options) eqn:Ev.
  - rewrite Hc in H.
    destruct (py_in value choices) eqn:E; [|discriminate].
    now apply py_in_In.
  - exfalso. unfold choices_of in Hc.
    unfold value_options, py_in in Ev. cbn [existsb] in Ev.
    repeat (apply orb_false_iff in Ev; destruct Ev as [?E Ev]).
    repeat match goal with
    | E : (name =? ?x) = false |- _ => rewrite E in Hc; clear E
    end.
    discriminate.
Qed.

Lemma consume_all_checks (pgen : list string) (argv : CommandLine) :
  forall (a a' : Args) (extras extras' : list string)
         (name value : string) (choices : list string),
    consume_all pgen (a, extras) argv = OK (a', extras') ->
    In (Valued name value) argv ->
    choices_of pgen name = Some choices ->
    In value choices.
Proof.
  induction argv as [|arg argv IH];
    intros a a' extras extras' name value choices H Hin Hc;
    [destruct Hin|].
  cbn [consume_all] in H.
  destruct (consume pgen (a, extras) arg) as [[a1 extras1]|e] eqn:E;
    [|discriminate H].
  cbn [rbind] in H. destruct Hin as [->|Hin].
  - exact (consume_checks _ _ _ _ _ _ _ _ E Hc).
  - exact (IH _ _ _ _ _ _ _ H Hin Hc).
Qed.

Lemma last_value_In (name value : string) (argv : CommandLine) :
  last_value name argv = Some value -> In (Valued name value) argv.
Proof.
  induction argv as [|arg argv IH]; [discriminate|].
  cbn [last_value]. destruct (last_value name argv) as [v|].
  - intros H. right. now apply IH.
  - destruct arg as [name' value'| | |]; try discriminate.
    destruct (name' =? name) eqn:E; [|discriminate].
    apply String.eqb_eq in E. intros H. injection H as ->. subst. now left.
Qed.

(** X17.  What [parse_args] returns for a command line it accepts:
    every option holds the value it is given last, or its default when
    it is not given; [--include] and [--lib] hold all their values in
    the order given; a switch is on exactly when it is given.  A value
    that is given is one of the choices of its option; a default is not
    checked, so [shock_tube] is the problem generator of a command line
    without [--prob] whatever [src/pgen/] holds. *)
Theorem parsed_namespace (pgen : list string) (argv : CommandLine)
    (a : Args) :
  parse_args pgen argv = OK a ->
  (prob a = value_or "shock_tube" (last_value "--prob" argv) /\
   coord a = value_or "cartesian" (last_value "--coord" argv) /\
   eos a = value_or "adiabatic" (last_value "--eos" argv) /\
   flux a = value_or "default" (last_value "--flux" argv) /\
   order a = value_or "plm" (last_value "--order" argv) /\
   fint a = value_or "vl2" (last_value "--fint" argv) /\
   hdf5_path a = value_or "" (last_value "--hdf5_path" argv) /\
   cxx a = value_or "g++" (last_value "--cxx" argv) /\
   ccmd a = last_value "--ccmd" argv) /\
  (include a = all_values "--include" argv /\
   lib a = all_values "--lib" argv) /\
  (b a = switched_on "-b" argv /\ s a = switched_on "-s" argv /\
   g a = switched_on "-g" argv /\ t a = switched_on "-t" argv /\
   sh a = switched_on "-sh" argv /\ debug a = switched_on "-debug" argv /\
   mpi a = switched_on "-mpi" argv /\ omp a = switched_on "-omp" argv /\
   hdf5 a = switched_on "-hdf5" argv) /\
  (forall name value choices,
      last_value name argv = Some value ->
      choices_of pgen name = Some choices ->
      In value choices).
Proof.
  unfold parse_args. destruct (first_ambiguous argv); [discriminate|].
  destruct (consume_all pgen (default_args, []) argv)
    as [[a1 extras]|e] eqn:E; [|discriminate].
  cbn [rbind fst snd]. destruct extras; [|discriminate].
  intros H. injection H as <-.
  rewrite (consume_all_fold _ _ _ _ _ _ E).
  split; [|split; [|split]].
  - rewrite fold_prob, fold_coord, fold_eos, fold_flux, fold_order,
      fold_fint, fold_hdf5_path, fold_cxx, fold_ccmd.
    cbn [prob coord eos flux order fint hdf5_path cxx ccmd default_args].
    repeat split. now destruct (last_value "--ccmd" argv).
  - rewrite fold_include, fold_lib. split; reflexivity.
  - rewrite fold_b, fold_s, fold_g, fold_t, fold_sh, fold_debug, fold_mpi,
      fold_omp, fold_hdf5.
    repeat split.
  - intros name value choices Hl Hc.
    exact (consume_all_checks _ _ _ _ _ _ _ _ _ E (last_value_In _ _ _ Hl) Hc).
Qed.

Lemma parsed_namespace_witness :
  exists a,
    parse_args [] [Valued "--eos" "isothermal"; Bare "-b";
                   Valued "--include" "/opt/a"; Valued "--eos" "adiabatic";
                   Valued "--include" "/opt/b"] = OK a /\
    prob a = "shock_tube" /\ eos a = "adiabatic" /\ b a = true /\
    s a = false /\ include a = ["/opt/a"; "/opt/b"].
Proof.
  assert (H : exists a,
             parse_args [] [Valued "--eos" "isothermal"; Bare "-b";
                            Valued "--include" "/opt/a";
                            Valued "--eos" "adiabatic";
                            Valued "--include" "/opt/b"] = OK a)
    by (eexists; reflexivity).
  destruct H as [a H]. exists a. split; [exact H|].
  destruct (parsed_namespace [] _ a H)
    as ((Hp & _ & He & _) & (Hi & _) & (Hb & Hs & _) & _).
  rewrite Hp, He, Hb, Hs, Hi. repeat split.
Defined.

Lemma substitute_bad_value (items : dict) (key val : string) (e : exn)
    (template : string) :
  In (key, val) items ->
  expand_template (placeholder key) val = Raise e ->
  exists e', substitute items template = Raise e'.
Proof.
  revert template. induction items as [|[k v] items IH];
    intros template Hin He; [destruct Hin|].
  cbn [substitute]. unfold re_sub at 1.
  destruct (expand_template (placeholder k) v) as [rep|e0] eqn:E;
    cbn [rbind].
  - destruct Hin as [Hin|Hin]; [inversion Hin; subst; congruence|].
    now apply IH.
  - now exists e0.
Qed.

(** X18.  [re.sub] compiles the replacement before it looks for a match
    (the behaviour of Python 3.7 and later; the escapes are read as
    Python 3.11 reads them): one value that is not a valid replacement
    template makes the whole substitution fail, with the same error on
    every template, also one that does not mention its key. *)
Theorem substitute_raises_on_bad_value (items : dict) (key val : string)
    (e : exn) :
  In (key, val) items ->
  expand_template (placeholder key) val = Raise e ->
  exists e', forall template, substitute items template = Raise e'.
Proof.
  induction items as [|[k v] items IH]; intros Hin He; [destruct Hin|].
  destruct (expand_template (placeholder k) v) as [rep|e0] eqn:E.
  - destruct Hin as [Hin|Hin]; [inversion Hin; subst; congruence|].
    destruct (IH Hin He) as [e' He']. exists e'. intros template.
    cbn [substitute]. unfold re_sub at 1. rewrite E. cbn [rbind].
    apply He'.
  - exists e0. intros template.
    cbn [substitute]. unfold re_sub at 1. now rewrite E.
Qed.

Lemma substitute_raises_on_bad_value_witness :
  exists e', forall template,
    substitute [("PROBLEM", "shock_tube"); ("COMPILER_COMMAND", "C:\mingw\bin\g++")]
               template = Raise e'.
Proof.
  apply (substitute_raises_on_bad_value _ "COMPILER_COMMAND" "C:\mingw\bin\g++"
           (ReError "bad escape")).
  - cbn. tauto.
  - vm_compute. reflexivity.
Defined.

(** X19.  A compile command given with [--ccmd] that is not a valid
    replacement template (a Windows path, say) stops every run that
    passes Steps 1 to 3, before anything is written: whatever the
    templates hold, the run raises and leaves the world as it was
    (Python 3.7 and later; the escapes are read as Python 3.11 reads
    them). *)
Theorem bad_ccmd_stops_run (cl : CommandLine) (w : World) (a : Args)
    (command : string) (e : exn) :
  parse_args (pgen_choices w) cl = OK a ->
  ccmd a = Some command ->
  expand_template "@COMPILER_COMMAND@" command = Raise e ->
  exists e', main cl w = (Raise e', w).
Proof.
  intros Hp Hc He.
  destruct (check_compatibility (set_default_flux a)) as [[]|e0] eqn:Hk;
    [|exists e0; exact (main_step2_error cl w a e0 Hp Hk)].
  rewrite (main_outcome cl w a Hp Hk).
  destruct (dict_get (files w) defsfile_input) as [dt|];
    [|eexists; reflexivity].
  destruct (dict_get (files w) makefile_input) as [mt|];
    [|eexists; reflexivity].
  destruct (substitute_bad_value
              (definitions (resolved (set_default_flux a)))
              "COMPILER_COMMAND" command e dt) as [e' Hs].
  - apply dict_get_In.
    assert (Hcc : compiler_command (set_default_flux a) = command).
    { destruct (set_default_flux_shape a) as [f ->].
      unfold compiler_command. cbn [ccmd with_flux]. now rewrite Hc. }
    rewrite <- Hcc. reflexivity.
  - exact He.
  - rewrite Hs. now exists e'.
Qed.

Lemma bad_ccmd_stops_run_witness :
  exists e', main windows_ccmd_command_line sample_world
             = (Raise e', sample_world).
Proof.
  apply (bad_ccmd_stops_run windows_ccmd_command_line sample_world
           (mkArgs "shock_tube" "cartesian" "adiabatic" "default" "plm" "vl2"
              false false false false false false false false false
              "" "g++" (Some "C:\mingw\bin\g++") [] [])
           "C:\mingw\bin\g++" (ReError "bad escape")).
  - reflexivity.
  - reflexivity.
  - vm_compute. reflexivity.
Defined.

Lemma dict_get_permutation (items items' : dict) (key : string) :
  Permutation items items' -> NoDup (dict_keys items) ->
  dict_get items key = dict_get items' key.
Proof.
  induction 1 as [|[k v] l l' Hp IH|[k1 v1] [k2 v2] l|l l' l'' Hp1 IH1 Hp2 IH2];
    intros Hnd.
  - reflexivity.
  - cbn in *. inversion Hnd; subst. now rewrite IH.
  - cbn in *. inversion Hnd as [|? ? Hnot _]; subst.
    destruct (k1 =? key) eqn:E1, (k2 =? key) eqn:E2; try reflexivity.
    apply String.eqb_eq in E1, E2. subst. cbn in Hnot. tauto.
  - rewrite IH1 by assumption. apply IH2.
    unfold dict_keys in *.
    exact (Permutation_NoDup (Permutation_map fst Hp1) Hnd).
Qed.

Lemma literal_items_permutation (items items' : dict) :
  Permutation items items' ->
  literal_items items = true -> literal_items items' = true.
Proof.
  unfold literal_items. intros Hp H. rewrite forallb_forall in *.
  intros item Hin. apply H.
  exact (Permutation_in _ (Permutation_sym Hp) Hin).
Qed.

Lemma py_in_permutation (x : string) (l l' : list string) :
  Permutation l l' -> py_in x l = py_in x l'.
Proof.
  unfold py_in. induction 1 as [|y l l' Hp IH|y z l|l l' l'' Hp1 IH1 Hp2 IH2];
    cbn [existsb].
  - reflexivity.
  - now rewrite IH.
  - now rewrite !orb_assoc, (orb_comm (x =? y)).
  - now rewrite IH1.
Qed.

Lemma gap_ok_ext (items items' : dict) (ps : list piece) :
  (forall x, py_in x (dict_keys items) = py_in x (dict_keys items')) ->
  (forall name, dict_get items name = dict_get items' name) ->
  forall gap, gap_ok items gap ps = gap_ok items' gap ps.
Proof.
  intros Hk Hg. induction ps as [|[text|name] ps IH]; intros gap;
    cbn [gap_ok].
  - reflexivity.
  - now rewrite Hk, IH.
  - rewrite Hk, Hg. destruct (dict_get items' name); now rewrite ?IH.
Qed.

Lemma lit_ok_ext (items items' : dict) (ps : list piece) (text : string) :
  (forall x, py_in x (dict_keys items) = py_in x (dict_keys items')) ->
  (forall name, dict_get items name = dict_get items' name) ->
  lit_ok items text ps = lit_ok items' text ps.
Proof.
  intros Hk Hg. induction text as [|c text IH]; cbn [lit_ok];
    [reflexivity|].
  now rewrite IH, (gap_ok_ext items items' _ Hk Hg).
Qed.

Lemma unambiguous_ext (items items' : dict) (ps : list piece) :
  (forall x, py_in x (dict_keys items) = py_in x (dict_keys items')) ->
  (forall name, dict_get items name = dict_get items' name) ->
  unambiguous items ps = unambiguous items' ps.
Proof.
  intros Hk Hg. induction ps as [|[text|name] ps IH]; cbn [unambiguous].
  - reflexivity.
  - now rewrite IH, (lit_ok_ext items items' _ _ Hk Hg).
  - now rewrite IH, (gap_ok_ext items items' _ Hk Hg).
Qed.

(** X20.  The order in which the dictionary is walked does not matter
    on a template that is read as it is meant (the condition of C6):
    for keys that are pairwise distinct and hold no [@] or
    metacharacter, and values without [@] and backslash, two
    dictionaries with the same items give the same text.  (With a value
    that holds [@] the order can matter.) *)
Theorem substitution_order_irrelevant (items items' : dict)
    (ps : list piece) :
  Permutation items items' ->
  NoDup (dict_keys items) ->
  literal_items items = true ->
  unambiguous items ps = true ->
  substitute items' (render ps) = substitute items (render ps).
Proof.
  intros Hp Hnd Hlit Hok.
  assert (Hk : forall x, py_in x (dict_keys items)
                         = py_in x (dict_keys items')).
  { intros x. apply py_in_permutation. unfold dict_keys.
    now apply Permutation_map. }
  assert (Hg : forall name, dict_get items name = dict_get items' name).
  { intros name. now apply dict_get_permutation. }
  rewrite (substitute_unambiguous items ps Hlit Hok).
  rewrite (substitute_unambiguous items' ps).
  - f_equal. f_equal. apply map_ext. intros [text|name]; [reflexivity|].
    cbn [fill]. now rewrite Hg.
  - exact (literal_items_permutation _ _ Hp Hlit).
  - now rewrite <- (unambiguous_ext items items' ps Hk Hg).
Qed.

Lemma substitution_order_irrelevant_witness :
  substitute [("RSOLVER_FILE", "hlle.cpp"); ("RSOLVER_DIR", "hydro/")]
             "rsolvers/@RSOLVER_DIR@@RSOLVER_FILE@ # @echo"
  = substitute [("RSOLVER_DIR", "hydro/"); ("RSOLVER_FILE", "hlle.cpp")]
               "rsolvers/@RSOLVER_DIR@@RSOLVER_FILE@ # @echo".
Proof.
  apply (substitution_order_irrelevant
           [("RSOLVER_DIR", "hydro/"); ("RSOLVER_FILE", "hlle.cpp")]
           [("RSOLVER_FILE", "hlle.cpp"); ("RSOLVER_DIR", "hydro/")]
           [Lit "rsolvers/"; Hole "RSOLVER_DIR"; Hole "RSOLVER_FILE";
            Lit " # @echo"]).
  - apply perm_swap.
  - repeat constructor; cbn; intuition discriminate.
  - reflexivity.
  - reflexivity.
Defined.

(** With a value that holds [@] the order matters. *)
Example substitution_order_matters :
  substitute [("A", "@B@"); ("B", "x")] "@A@" = OK "x" /\
  substitute [("B", "x"); ("A", "@B@")] "@A@" = OK "@B@".
Proof. split; reflexivity. Qed.

(** X21.  The two output files are not written as one: when
    [src/defs.hpp] cannot be opened for writing the run raises the
    [IOError] of that file and has written nothing; when it can and
    [Makefile] cannot, the run raises the [IOError] of [Makefile] after
    [src/defs.hpp] has been rewritten with the substituted template,
    and nothing has been printed. *)
Theorem output_files_not_written_as_one (cl : CommandLine) (w : World)
    (a : Args) (c : Config) (dt mt dout mout : string) :
  parse_args (pgen_choices w) cl = OK a ->
  configure a = OK c ->
  dict_get (files w) "src/defs.hpp.in" = Some dt ->
  dict_get (files w) "Makefile.in" = Some mt ->
  substitute (definitions c) dt = OK dout ->
  substitute (makefile_options c) mt = OK mout ->
  (can_open_for_writing w "src/defs.hpp" = false ->
   main cl w = (Raise (IOError "src/defs.hpp"), w)) /\
  (can_open_for_writing w "src/defs.hpp" = true ->
   can_open_for_writing w "Makefile" = false ->
   exists w',
     main cl w = (Raise (IOError "Makefile"), w') /\
     dict_get (files w') "src/defs.hpp" = Some dout /\
     dict_get (files w') "Makefile" = dict_get (files w) "Makefile" /\
     opened_for_writing w' = (opened_for_writing w ++ ["src/defs.hpp"])%list /\
     stdout w' = stdout w).
Proof.
  intros Hp Hc Hd Hm Hsd Hsm.
  destruct (configure_inv _ _ (parse_args_valid _ _ _ Hp) Hc) as [Hk ->].
  rewrite (main_outcome cl w a Hp Hk).
  change defsfile_input with "src/defs.hpp.in".
  change makefile_input with "Makefile.in".
  change defsfile_output with "src/defs.hpp".
  change makefile_output with "Makefile".
  rewrite Hd, Hm, Hsd, Hsm. split.
  - intros Hod. now rewrite Hod.
  - intros Hod Hom. rewrite Hod, Hom. eexists. split; [reflexivity|].
    unfold written. cbn [files opened_for_writing stdout].
    split; [apply dict_get_set_eq|].
    split; [now rewrite dict_get_set_ne by discriminate|].
    split; reflexivity.
Qed.

Lemma output_files_not_written_as_one_witness :
  exists w',
    main linear_wave_command_line world_with_makefile_directory
    = (Raise (IOError "Makefile"), w') /\
    dict_get (files w') "src/defs.hpp"
    = Some "#define PROBLEM_GENERATOR linear_wave NWAVE 7 NOT_DEBUG" /\
    dict_get (files w') "Makefile" = None.
Proof.
  destruct (proj2 (output_files_not_written_as_one
              linear_wave_command_line world_with_makefile_directory
              (mkArgs "linear_wave" "cartesian" "adiabatic" "hlld" "plm" "vl2"
                 true false false false false false false false false
                 "" "g++" None [] [])
              (resolved (mkArgs "linear_wave" "cartesian" "adiabatic" "hlld"
                 "plm" "vl2" true false false false false false false false
                 false "" "g++" None [] []))
              "#define PROBLEM_GENERATOR @PROBLEM@ NWAVE @NWAVE_VALUE@ @DEBUG@"
              "CXX := @COMPILER_COMMAND@ RSOLVER := @RSOLVER_DIR@@RSOLVER_FILE@"
              "#define PROBLEM_GENERATOR linear_wave NWAVE 7 NOT_DEBUG"
              "CXX := g++ RSOLVER := mhd/hlld.cpp"
              eq_refl eq_refl eq_refl eq_refl eq_refl eq_refl)
            eq_refl eq_refl)
    as (w' & H & Hd & Hm & _).
  exists w'. split; [exact H|]. split; [exact Hd|]. exact Hm.
Defined.

(** X22.  Steps 3 and 4 composed: when the definitions template is
    well formed and names only keys of the definitions, and no value
    holds a backslash or an [@], a completed run leaves no placeholder
    in [src/defs.hpp]: each one is replaced by the value Step 3 gave its
    key. *)
Theorem completed_run_resolves_placeholders (cl : CommandLine) (w w' : World)
    (a : Args) (c : Config) (ps : list piece) :
  parse_args (pgen_choices w) cl = OK a ->
  configure a = OK c ->
  main cl w = (OK tt, w') ->
  dict_get (files w) defsfile_input = Some (render ps) ->
  well_formed definition_names ps = true ->
  (forall name, In name (hole_names ps) -> In name definition_names) ->
  literal_items (definitions c) = true ->
  dict_get (files w') "src/defs.hpp"
    = Some (render (map (fill (definitions c)) ps)) /\
  contains_char "@" (render (map (fill (definitions c)) ps)) = false.
Proof.
  intros Hp Hc Hm Hd Hwf Hnames Hlit.
  destruct (configure_inv _ _ (parse_args_valid _ _ _ Hp) Hc) as [Hk ->].
  assert (Hs : substitute (definitions (resolved (set_default_flux a)))
                          (render ps)
               = OK (render (map (fill (definitions (resolved (set_default_flux a)))) ps))).
  { apply (substitute_render definition_names); [|exact Hlit|exact Hwf].
    intros item Hin.
    change definition_names
      with (dict_keys (definitions (resolved (set_default_flux a)))).
    now apply in_map. }
  split.
  - destruct (main_completed cl w w' a Hp Hm)
      as (_ & dt & mt & dout & mout & Hd' & _ & Hsd & _ & _ & _ & ->).
    rewrite Hd in Hd'. injection Hd' as <-.
    rewrite Hs in Hsd. injection Hsd as <-.
    unfold printed, written. cbn [files].
    rewrite dict_get_set_ne by discriminate. apply dict_get_set_eq.
  - apply (render_fill_no_at definition_names); [exact Hlit|exact Hwf|].
    exact Hnames.
Qed.

Lemma completed_run_resolves_placeholders_witness :
  exists w',
    main linear_wave_command_line sample_world = (OK tt, w') /\
    dict_get (files w') "src/defs.hpp"
      = Some "#define PROBLEM_GENERATOR linear_wave NWAVE 7 NOT_DEBUG".
Proof.
  assert (H1 : exists w', main linear_wave_command_line sample_world = (OK tt, w')).
  { eexists. vm_compute. reflexivity. }
  destruct H1 as [w' H1]. exists w'. split; [exact H1|].
  refine (proj1 (completed_run_resolves_placeholders
            linear_wave_command_line sample_world w'
            (mkArgs "linear_wave" "cartesian" "adiabatic" "hlld" "plm" "vl2"
               true false false false false false false false false
               "" "g++" None [] [])
            (resolved (mkArgs "linear_wave" "cartesian" "adiabatic" "hlld"
               "plm" "vl2" true false false false false false false false
               false "" "g++" None [] []))
            [Lit "#define PROBLEM_GENERATOR "; Hole "PROBLEM"; Lit " NWAVE ";
             Hole "NWAVE_VALUE"; Lit " "; Hole "DEBUG"]
            eq_refl eq_refl H1 eq_refl eq_refl _ eq_refl)).
  cbn. intuition.
Defined.
